(** * doi2pdf: DOI resolution, proxy rewriting and the batch processor

    A shallow embedding of [doi2pdf.py].  Python strings are modelled as
    [string] (sequences of 8-bit characters), dictionaries as [gmap], the
    calls into [requests], [selenium] and [time] as an explicit world that
    answers every call and a trace that records it. *)

From Stdlib Require Import ZArith Ascii Bool Lia.
From stdpp Require Import base option list gmap strings.

Local Open Scope Z_scope.

(** ** Python [str] operations used by the program and by [urllib.parse] *)

Module Str.

(** [c in s] *)
Fixpoint contains (c : ascii) (s : string) : bool :=
  match s with
  | EmptyString => false
  | String a s' => if Ascii.eqb a c then true else contains c s'
  end.

(** [any(p(c) for c in s)] and [all(p(c) for c in s)] *)
Fixpoint any (p : ascii -> bool) (s : string) : bool :=
  match s with
  | EmptyString => false
  | String a s' => p a || any p s'
  end.

Fixpoint all (p : ascii -> bool) (s : string) : bool :=
  match s with
  | EmptyString => true
  | String a s' => p a && all p s'
  end.

(** character-wise translation: [s.replace(a, b)] for single characters and
    [s.lower()] are instances *)
Fixpoint map (f : ascii -> ascii) (s : string) : string :=
  match s with
  | EmptyString => EmptyString
  | String a s' => String (f a) (map f s')
  end.

(** [s.replace(c, "")] for the characters selected by [p] *)
Fixpoint remove (p : ascii -> bool) (s : string) : string :=
  match s with
  | EmptyString => EmptyString
  | String a s' => if p a then remove p s' else String a (remove p s')
  end.

(** [s.lstrip(chars)] *)
Fixpoint lstrip (p : ascii -> bool) (s : string) : string :=
  match s with
  | EmptyString => EmptyString
  | String a s' => if p a then lstrip p s' else s
  end.

(** [s.startswith(pre)] *)
Fixpoint startswith (pre s : string) : bool :=
  match pre, s with
  | EmptyString, _ => true
  | String a pre', String b s' => Ascii.eqb a b && startswith pre' s'
  | String _ _, EmptyString => false
  end.

(** [s[n:]] *)
Fixpoint drop (n : nat) (s : string) : string :=
  match n, s with
  | O, _ => s
  | S n', String _ s' => drop n' s'
  | S _, EmptyString => EmptyString
  end.

(** [s[:-1]] *)
Fixpoint drop_last (s : string) : string :=
  match s with
  | EmptyString => EmptyString
  | String a EmptyString => EmptyString
  | String a s' => String a (drop_last s')
  end.

(** Cut [s] in front of the first character selected by [p]: the result is
    [(s[:i], s[i:])] for the least such index [i], and [(s, "")] when there
    is none.  With [p] the test for one character this is [s.find(c)]. *)
Fixpoint break (p : ascii -> bool) (s : string) : string * string :=
  match s with
  | EmptyString => (EmptyString, EmptyString)
  | String a s' =>
      if p a then (EmptyString, s)
      else let '(b, r) := break p s' in (String a b, r)
  end.

(** Cut [s] in front of the last occurrence of [c]:
    [Some (s[:i], s[i:])] with [i = s.rfind(c)], and [None] when [c] does not
    occur. *)
Fixpoint rbreak (c : ascii) (s : string) : option (string * string) :=
  match s with
  | EmptyString => None
  | String a s' =>
      match rbreak c s' with
      | Some (h, t) => Some (String a h, t)
      | None => if Ascii.eqb a c then Some (EmptyString, s) else None
      end
  end.

(** [s.partition(c)]: [(before, sep, after)]; the separator is reported by
    the boolean. *)
Definition partition (c : ascii) (s : string) : string * bool * string :=
  match break (Ascii.eqb c) s with
  | (b, String _ r) => (b, true, r)
  | (b, EmptyString) => (b, false, EmptyString)
  end.

(** [s.rpartition(c)[2]]: what follows the last [c], all of [s] without one *)
Definition after_last (c : ascii) (s : string) : string :=
  match rbreak c s with
  | Some (_, t) => drop 1 t
  | None => s
  end.

Definition is_upper (a : ascii) : bool :=
  (65 <=? nat_of_ascii a)%nat && (nat_of_ascii a <=? 90)%nat.
Definition is_lower (a : ascii) : bool :=
  (97 <=? nat_of_ascii a)%nat && (nat_of_ascii a <=? 122)%nat.
Definition is_digit (a : ascii) : bool :=
  (48 <=? nat_of_ascii a)%nat && (nat_of_ascii a <=? 57)%nat.

(** [c.isascii() and c.isalpha()] *)
Definition is_ascii_alpha (a : ascii) : bool := is_upper a || is_lower a.

(** [c.lower()] on ASCII characters; statements that read a lower-cased
    host name assume an ASCII network location *)
Definition lower_char (a : ascii) : ascii :=
  if is_upper a then ascii_of_nat (nat_of_ascii a + 32) else a.

(** [s.lower()] *)
Definition lower : string -> string := map lower_char.

(** [s.replace(a, b)] for single characters [a] and [b] *)
Definition replace (a b : ascii) : string -> string :=
  map (fun c => if Ascii.eqb c a then b else c).

(** truth value of a string: [bool(s)] *)
Definition nonempty (s : string) : bool :=
  match s with EmptyString => false | String _ _ => true end.

End Str.

(** ** [urllib.parse]: the part of the standard library the program calls

    The program imports [urlparse] and [urlunparse].  They are modelled after
    CPython 3.11's [urllib/parse.py] on [str] arguments with the default
    [scheme=''] and [allow_fragments=True].  The module [Url] describes how
    the URL is cut into components.  The [ValueError] that [urlsplit] raises
    for a network location with unbalanced or ill-formed square brackets is
    added by [Exn.urlparse] below. *)

Module Url.

Record ParseResult := mkParseResult {
  scheme : string;
  netloc : string;
  path : string;
  params : string;
  query : string;
  fragment : string
}.

Definition uses_netloc : list string :=
  [""; "ftp"; "http"; "gopher"; "nntp"; "telnet";
   "imap"; "wais"; "file"; "mms"; "https"; "shttp";
   "snews"; "prospero"; "rtsp"; "rtspu"; "rsync";
   "svn"; "svn+ssh"; "sftp"; "nfs"; "git"; "git+ssh";
   "ws"; "wss"].

Definition uses_params : list string :=
  [""; "ftp"; "hdl"; "prospero"; "http"; "imap";
   "https"; "shttp"; "rtsp"; "rtspu"; "sip";
   "sips"; "mms"; "sftp"; "tel"].

(** [scheme in uses_params], [scheme in uses_netloc] *)
Definition in_list (s : string) (l : list string) : bool :=
  bool_decide (s ∈ l).

(** [c in scheme_chars]: letters, digits and ["+-."] *)
Definition is_scheme_char (a : ascii) : bool :=
  Str.is_lower a || Str.is_upper a || Str.is_digit a
  || Ascii.eqb a "+" || Ascii.eqb a "-" || Ascii.eqb a ".".

(** [c in _WHATWG_C0_CONTROL_OR_SPACE]: code points 0 to 32 *)
Definition is_c0_control_or_space (a : ascii) : bool :=
  (nat_of_ascii a <=? 32)%nat.

(** [c in _UNSAFE_URL_BYTES_TO_REMOVE]: tab, carriage return, newline *)
Definition is_unsafe (a : ascii) : bool :=
  (nat_of_ascii a =? 9)%nat || (nat_of_ascii a =? 13)%nat
  || (nat_of_ascii a =? 10)%nat.

(** [c in '/?#'], the delimiters that end the network location *)
Definition is_netloc_delim (a : ascii) : bool :=
  Ascii.eqb a "/" || Ascii.eqb a "?" || Ascii.eqb a "#".

(** The scheme test of [urlsplit]:
    [i = url.find(':')]; when [i > 0], [url[0]] is an ASCII letter and every
    character of [url[:i]] is a scheme character, the scheme is
    [url[:i].lower()] and the URL continues at [url[i+1:]]. *)
Definition split_scheme (url : string) : string * string :=
  match Str.break (Ascii.eqb ":") url with
  | (String a0 b, String _ rest) =>
      if Str.is_ascii_alpha a0 && Str.all is_scheme_char (String a0 b)
      then (Str.lower (String a0 b), rest)
      else (EmptyString, url)
  | _ => (EmptyString, url)
  end.

(** [_splitnetloc(url, 2)] *)
Definition _splitnetloc2 (url : string) : string * string :=
  Str.break is_netloc_delim (Str.drop 2 url).

(** [url.split(c, 1)] guarded by [c in url] *)
Definition split_once (c : ascii) (url : string) : string * string :=
  match Str.break (Ascii.eqb c) url with
  | (b, String _ r) => (b, r)
  | (b, EmptyString) => (url, EmptyString)
  end.

(** [urlsplit(url)]: scheme, netloc, path, query, fragment *)
Definition urlsplit (url : string)
  : string * string * string * string * string :=
  let url := Str.lstrip is_c0_control_or_space url in
  let url := Str.remove is_unsafe url in
  let '(scheme, url) := split_scheme url in
  let '(netloc, url) :=
    if Str.startswith "//" url then _splitnetloc2 url
    else (EmptyString, url) in
  let '(url, fragment) := split_once "#" url in
  let '(url, query) := split_once "?" url in
  (scheme, netloc, url, query, fragment).

(** [_splitparams(url)] *)
Definition _splitparams (url : string) : string * string :=
  match Str.rbreak "/" url with
  | Some (h, t) =>
      (* i = url.find(';', url.rfind('/')) *)
      match Str.break (Ascii.eqb ";") t with
      | (b, String _ r) => (h +:+ b, r)
      | (_, EmptyString) => (url, EmptyString)
      end
  | None =>
      (* i = url.find(';'); url[:i], url[i+1:] also for i = -1 *)
      match Str.break (Ascii.eqb ";") url with
      | (b, String _ r) => (b, r)
      | (_, EmptyString) => (Str.drop_last url, url)
      end
  end.

(** [urlparse(url)] *)
Definition urlparse (url : string) : ParseResult :=
  let '(scheme, netloc, url, query, fragment) := urlsplit url in
  let '(url, params) :=
    if in_list scheme uses_params && Str.contains ";" url
    then _splitparams url
    else (url, EmptyString) in
  mkParseResult scheme netloc url params query fragment.

(** [urlunsplit((scheme, netloc, url, query, fragment))] *)
Definition urlunsplit (scheme netloc url query fragment : string) : string :=
  let url :=
    if Str.nonempty netloc
       || (Str.nonempty scheme && in_list scheme uses_netloc
           && negb (Str.startswith "//" url))
    then
      let url :=
        if Str.nonempty url && negb (Str.startswith "/" url)
        then "/" +:+ url else url in
      "//" +:+ netloc +:+ url
    else url in
  let url := if Str.nonempty scheme then scheme +:+ ":" +:+ url else url in
  let url := if Str.nonempty query then url +:+ "?" +:+ query else url in
  let url := if Str.nonempty fragment then url +:+ "#" +:+ fragment else url in
  url.

(** [urlunparse(components)] *)
Definition urlunparse (p : ParseResult) : string :=
  let url :=
    if Str.nonempty (params p) then path p +:+ ";" +:+ params p
    else path p in
  urlunsplit (scheme p) (netloc p) url (query p) (fragment p).

(** The [hostname] attribute of a parse result ([_hostinfo] followed by the
    [hostname] property); [None] when the host part is empty. *)
Definition _hostinfo_hostname (netloc : string) : string :=
  let hostinfo := Str.after_last "@" netloc in
  match Str.partition "[" hostinfo with
  | (_, true, bracketed) =>
      let '(hostname, _, _) := Str.partition "]" bracketed in hostname
  | (_, false, _) =>
      let '(hostname, _, _) := Str.partition ":" hostinfo in hostname
  end.

Definition hostname (p : ParseResult) : option string :=
  let hostname := _hostinfo_hostname (netloc p) in
  if Str.nonempty hostname then
    let '(hostname, percent, zone) := Str.partition "%" hostname in
    Some (Str.lower hostname +:+ (if percent then "%" else "") +:+ zone)
  else None.

End Url.

(** ** [convert_to_hku_proxy] *)

Definition hku_suffix : string := ".eproxy.lib.hku.hk".

Definition convert_to_hku_proxy (url : string) : string :=
  let parsed := Url.urlparse url in
  let proxy_netloc := Str.replace "." "-" (Url.netloc parsed) +:+ hku_suffix in
  let proxied_url :=
    Url.urlunparse
      (Url.mkParseResult (Url.scheme parsed) proxy_netloc (Url.path parsed)
         (Url.params parsed) (Url.query parsed) (Url.fragment parsed)) in
  proxied_url.

(** ** The world outside the program

    Every call into [requests], [selenium] and [time] appends an event to
    the trace; what the call answers is decided by the world from the
    history so far. *)

(** A Python exception, with [exc_str e] for [str(e)] *)
Record PyExc := mkExc { exc_class : string; exc_str : string }.

Inductive Outcome (A : Type) : Type :=
| Returned (a : A)
| Raised (e : PyExc).
Arguments Returned {A} a.
Arguments Raised {A} e.

Inductive Event : Type :=
| EvRequestsGet (url : string)            (* requests.get(url, ...) *)
| EvProxyCall (url : string)              (* proxy(url) *)
| EvDriverGet (url : string) (ok : bool)  (* driver.get(url); ok = returned *)
| EvExecuteScript (script : string)       (* driver.execute_script(script) *)
| EvFindElement (by_ value : string) (ok : bool)
| EvClick (ok : bool)                     (* element.click() *)
| EvSleep (millis : Z)                    (* time.sleep(millis / 1000) *)
| EvWaitForPageLoad (timeout : Z)         (* entry of _wait_for_page_load *)
| EvQuit.                                 (* driver.quit() *)

Definition Trace := list Event.

#[global] Instance Event_eq_dec : EqDecision Event.
Proof. solve_decision. Defined.

Definition ok_of {A} (r : Outcome A) : bool :=
  match r with Returned _ => true | Raised _ => false end.

(** *** The state-and-exception monad of the embedding *)

Definition M (A : Type) : Type := Trace -> Outcome A * Trace.

Definition ret {A} (a : A) : M A := fun tr => (Returned a, tr).

Definition raise {A} (e : PyExc) : M A := fun tr => (Raised e, tr).

Definition bind {A B} (m : M A) (k : A -> M B) : M B := fun tr =>
  match m tr with
  | (Returned a, tr') => k a tr'
  | (Raised e, tr') => (Raised e, tr')
  end.

(** [try: m except Exception as e: h e] *)
Definition try_except {A} (m : M A) (h : PyExc -> M A) : M A := fun tr =>
  match m tr with
  | (Returned a, tr') => (Returned a, tr')
  | (Raised e, tr') => h e tr'
  end.

(** [try: m except Exception as e: ...] with the outcome handed to the code
    that follows, for handlers that end in [continue] *)
Definition attempt {A} (m : M A) : M (Outcome A) := fun tr =>
  let '(r, tr') := m tr in (Returned r, tr').

(** A call answered by the world, recorded with [ev] *)
Definition call {A} (f : Trace -> Outcome A) (ev : Outcome A -> Event) : M A :=
  fun tr => let r := f tr in (r, tr ++ [ev r]).

Declare Scope py_scope.
Delimit Scope py_scope with py.
Notation "x <- m ;; k" := (bind m (fun x => k))
  (at level 100, m at next level, right associativity) : py_scope.
Notation "m ;;; k" := (bind m (fun _ => k))
  (at level 100, right associativity) : py_scope.
Local Open Scope py_scope.

(** *** [time] *)

(** Seconds elapsed, in milliseconds: the model's clock advances by the
    durations slept and by nothing else. *)
Fixpoint clock (tr : Trace) : Z :=
  match tr with
  | [] => 0
  | EvSleep millis :: tr' => millis + clock tr'
  | _ :: tr' => clock tr'
  end.

Definition time_time : M Z := fun tr => (Returned (clock tr), tr).

Definition time_sleep (millis : Z) : M unit :=
  fun tr => (Returned tt, tr ++ [EvSleep millis]).

(** *** [requests] *)

Record Response := mkResponse { resp_url : string; status_code : Z }.

(** The exceptions of [requests.exceptions] that [doi_to_url] tells apart:
    [HTTPError] with its [response] attribute, and every other
    [RequestException] (connection errors, timeouts, invalid URLs, ...). *)
Inductive RequestsError : Type :=
| HTTPError (text : string) (response : option Response)
| RequestException (text : string).

Record World := mkWorld {
  (** [requests.get(url, allow_redirects=True, timeout=10)] *)
  requests_get : Trace -> string -> RequestsError + Response
}.

(** [response.raise_for_status()]: an [HTTPError] carrying the response for
    the status codes 400 to 599.  The message of that error is not read by
    the program on this path. *)
Definition raise_for_status (response : Response) : option RequestsError :=
  if (400 <=? status_code response) && (status_code response <? 600)
  then Some (HTTPError ("HTTP Error for url: " +:+ resp_url response)
               (Some response))
  else None.

(** *** [selenium] *)

Module Selenium.

Record WebElement := mkWebElement {
  click : Trace -> Outcome unit
}.

Record WebDriver := mkWebDriver {
  get : Trace -> string -> Outcome unit;
  execute_script : Trace -> string -> Outcome string;
  find_element : Trace -> string -> string -> Outcome WebElement;
  quit : Trace -> Outcome unit
}.

(** [By.CLASS_NAME] *)
Definition CLASS_NAME : string := "class name".

End Selenium.

(** ** [doi_to_url] *)

Definition publisher_table : list (string * string) :=
  [("pubs.acs.org", "ACS");
   ("sciencedirect.com", "Elsevier");
   ("link.springer.com", "Springer");
   ("onlinelibrary.wiley.com", "Wiley");
   ("tandfonline.com", "Taylor & Francis");
   ("cambridge.org", "Cambridge University Press");
   ("nature.com", "Nature Publishing Group");
   ("ieee.org", "IEEE");
   ("royalsocietypublishing.org", "Royal Society")].

Definition publisher_map : gmap string string := list_to_map publisher_table.

(** What the [try] block of [doi_to_url] leaves behind: the final URL, or
    the exception that [requests.get] or [raise_for_status] raised. *)
Definition fetch (w : World) (resolver_url : string) (tr : Trace)
  : RequestsError + string :=
  match requests_get w tr resolver_url with
  | inr response =>
      match raise_for_status response with
      | Some e => inl e
      | None => inr (resp_url response)
      end
  | inl e => inl e
  end.

Definition resolve_error (doi text : string) : string * string :=
  ("Error resolving DOI " +:+ doi +:+ ": " +:+ text, "Unknown").

Definition doi_to_url (w : World) (doi : string) : M (string * string) :=
  fun tr =>
  let resolver_url := "https://doi.org/" +:+ doi in
  let tr1 := tr ++ [EvRequestsGet resolver_url] in
  let final_url : (string * string) + string :=
    match fetch w resolver_url tr with
    | inr final_url => inr final_url
    | inl (HTTPError text (Some response)) => inr (resp_url response)
    | inl (HTTPError text None) => inl (resolve_error doi text)
    | inl (RequestException text) => inl (resolve_error doi text)
    end in
  match final_url with
  | inl early => (Returned early, tr1)
  | inr final_url =>
      let domain := Url.netloc (Url.urlparse final_url) in
      let publisher := default "Unknown" (publisher_map !! domain) in
      (Returned (final_url, publisher), tr1)
  end.

(** ** [_wait_for_page_load] *)

(** The [while time.time() < end] loop.  Each round sleeps half a second, so
    [fuel] rounds suffice as soon as [500 * fuel] exceeds the time left. *)
Fixpoint wait_loop (fuel : nat) (driver : Selenium.WebDriver) (end_ : Z)
  : M bool := fun tr =>
  match fuel with
  | O => (Returned false, tr)
  | S fuel' =>
      if clock tr <? end_ then
        let r := Selenium.execute_script driver tr
                   "return document.readyState" in
        let tr1 := tr ++ [EvExecuteScript "return document.readyState"] in
        match r with
        | Returned state =>
            if String.eqb state "complete" then (Returned true, tr1)
            else (time_sleep 500 ;;; wait_loop fuel' driver end_) tr1
        | Raised _ =>
            (* except Exception: pass *)
            (time_sleep 500 ;;; wait_loop fuel' driver end_) tr1
        end
      else (Returned false, tr)
  end.

Definition _wait_for_page_load (driver : Selenium.WebDriver) (timeout : Z)
  : M bool := fun tr =>
  let tr0 := tr ++ [EvWaitForPageLoad timeout] in
  let end_ := clock tr0 + 1000 * timeout in
  wait_loop (S (Z.to_nat (2 * timeout))) driver end_ tr0.

(** ** [process_dois] *)

(** Values stored in the per-DOI [info] dictionary *)
Inductive PyVal : Type :=
| VStr (s : string)
| VList (l : list string).

Abbreviation Info := (gmap string PyVal).

(** The [proxy] argument: [None], a string, a callable, or any other
    object. *)
Inductive ProxyArg : Type :=
| ProxyNone
| ProxyStr (s : string)
| ProxyCallable (f : Trace -> string -> Outcome string)
| ProxyOther.

(** The body of the [try] block that determines the proxied URL *)
Definition select_proxy (proxy : ProxyArg) (url : string) : M string :=
  match proxy with
  | ProxyNone => ret (convert_to_hku_proxy url)
  | ProxyStr s =>
      if String.eqb s "hku" then ret (convert_to_hku_proxy url)
      else if String.eqb s "none" then ret url
      else ret (convert_to_hku_proxy url)
  | ProxyCallable f => call (fun tr => f tr url) (fun _ => EvProxyCall url)
  | ProxyOther => ret (convert_to_hku_proxy url)
  end.

(** [info[key].append(x)] *)
Definition dict_list_append (info : Info) (key x : string) : M Info :=
  match info !! key with
  | Some (VList l) => ret (<[key := VList (l ++ [x])]> info)
  | Some (VStr _) => raise (mkExc "AttributeError" "'str' object has no attribute 'append'")
  | None => raise (mkExc "KeyError" key)
  end.

(** The class name of the PDF button *)
Definition pdf_class : string := "article__btn__secondary--pdf".

(** The body of the [try] block of the ACS branch *)
Definition click_pdf (driver : Selenium.WebDriver) (info : Info) : M Info :=
  pdf_button <-
    call (fun tr => Selenium.find_element driver tr Selenium.CLASS_NAME
                      pdf_class)
         (fun r => EvFindElement Selenium.CLASS_NAME pdf_class (ok_of r)) ;;
  call (Selenium.click pdf_button) (fun r => EvClick (ok_of r)) ;;;
  info <- dict_list_append info "actions" "clicked_pdf_button" ;;
  time_sleep 3000 ;;;
  ret (<["status" := VStr "pdf_clicked"]> info).

(** The publisher switch.  The handler of the ACS branch works on the
    dictionary as it was when the [try] block was entered: the block updates
    it only after its last call that can raise. *)
Definition publisher_switch (driver : Selenium.WebDriver)
    (publisher : string) (info : Info) : M Info :=
  if String.eqb publisher "ACS" then
    try_except (click_pdf driver info)
      (fun e => ret (<["error" := VStr (exc_str e)]>
                       (<["status" := VStr "click_pdf_failed"]> info)))
  else if String.eqb publisher "Elsevier" then
    ret (<["status" := VStr "no_action_for_publisher"]> info)
  else
    ret (<["status" := VStr "no_action_for_publisher"]> info).

(** After a navigation: the pause of the first visit, which clears the
    flag, or the wait for the page.  It yields the [first_visit] flag. *)
Definition await_page (driver : Selenium.WebDriver) (wait_time : Z)
    (first_visit : bool) : M bool :=
  if first_visit then time_sleep 20000 ;;; ret false
  else _wait_for_page_load driver wait_time ;;; ret first_visit.

(** The body of the outer [try] block: navigation, the pause or the wait,
    the publisher switch.  It yields the dictionary and the [first_visit]
    flag. *)
Definition visit (driver : Selenium.WebDriver) (wait_time : Z)
    (publisher proxied : string) (info : Info) (first_visit : bool)
  : M (Info * bool) :=
  call (fun tr => Selenium.get driver tr proxied)
       (fun r => EvDriverGet proxied (ok_of r)) ;;;
  first_visit <- await_page driver wait_time first_visit ;;
  info <- publisher_switch driver publisher info ;;
  ret (info, first_visit).

Record LoopState := mkLoopState {
  results : gmap string (gmap string PyVal);
  first_visit : bool
}.

(** One round of the [for doi in dois] loop.  The handler of the outer [try]
    sees [info] and [first_visit] as they were on entry: the only calls of
    the block that can raise come before its first assignment. *)
Definition process_doi (w : World) (driver : Selenium.WebDriver)
    (wait_time : Z) (proxy : ProxyArg) (st : LoopState) (doi : string)
  : M LoopState :=
  let info : Info := {["doi" := VStr doi]} in
  resolved <- doi_to_url w doi ;;
  let '(url, publisher) := resolved in
  let info := <["url" := VStr url]> info in
  let info := <["publisher" := VStr publisher]> info in
  if Str.startswith "Error" url then
    let info := <["status" := VStr "resolve_failed"]> info in
    let info := <["actions" := VList []]> info in
    ret (mkLoopState (<[doi := info]> (results st)) (first_visit st))
  else
    selected <- attempt (select_proxy proxy url) ;;
    match selected with
    | Raised e =>
        let info := <["status" := VStr "proxy_error"]> info in
        let info :=
          <["error" := VStr ("proxy function error: " +:+ exc_str e)]> info in
        let info := <["actions" := VList []]> info in
        ret (mkLoopState (<[doi := info]> (results st)) (first_visit st))
    | Returned proxied =>
        let info := <["proxied_url" := VStr proxied]> info in
        let info := <["actions" := VList []]> info in
        visited <-
          try_except
            (visit driver wait_time publisher proxied info (first_visit st))
            (fun e =>
               let info := <["status" := VStr "navigation_error"]> info in
               let info := <["error" := VStr (exc_str e)]> info in
               ret (info, first_visit st)) ;;
        let '(info, first_visit) := visited in
        ret (mkLoopState (<[doi := info]> (results st)) first_visit)
    end.

Fixpoint for_each (body : LoopState -> string -> M LoopState)
    (dois : list string) (st : LoopState) : M LoopState :=
  match dois with
  | [] => ret st
  | doi :: rest => st' <- body st doi ;; for_each body rest st'
  end.

Definition process_dois (w : World) (dois : list string)
    (driver_obj : Selenium.WebDriver) (wait_time : Z) (proxy : ProxyArg)
  : M (gmap string (gmap string PyVal)) :=
  st <- for_each (process_doi w driver_obj wait_time proxy) dois
          (mkLoopState ∅ true) ;;
  ret (results st).

(** ** [DOI2PDFDownloader]

    The queue, the proxy style and the browser session of the facade.  The
    constructor and [setup] create the session through [webdriver.Chrome];
    they are outside this development. *)

Module DOI2PDFDownloader.

Record t := mk {
  _queue : list string;
  proxy_method : ProxyArg;
  headless : bool;
  (** [None] stands for a value of [self._driver] that is not truthy *)
  _driver : option Selenium.WebDriver
}.

(** The argument of [add_dois]: a [str], or an iterable of DOIs *)
Inductive DoisArg : Type :=
| OneDoi (doi : string)
| ManyDois (dois : list string).

Definition add_dois (self : t) (dois : DoisArg) : t :=
  match dois with
  | OneDoi doi =>
      mk (_queue self ++ [doi]) (proxy_method self) (headless self)
         (_driver self)
  | ManyDois dois =>
      mk (_queue self ++ dois) (proxy_method self) (headless self)
         (_driver self)
  end.

(** A driver object without the methods of a session: every call on it
    raises [AttributeError]. *)
Definition no_driver : Selenium.WebDriver :=
  let e := mkExc "AttributeError" "'NoneType' object has no attribute" in
  Selenium.mkWebDriver (fun _ _ => Raised e) (fun _ _ => Raised e)
    (fun _ _ _ => Raised e) (fun _ => Raised e).

Definition start_download_sync (w : World) (self : t) (wait_time : Z)
  : M (gmap string (gmap string PyVal) * t) :=
  results <- process_dois w (_queue self) (default no_driver (_driver self))
               wait_time ProxyNone ;;
  ret (results, mk [] (proxy_method self) (headless self) (_driver self)).

Definition start_download_async (self : t) : M unit :=
  raise (mkExc "NotImplementedError"
           "Asynchronous start is not implemented yet.").

Definition close (self : t) : M unit :=
  match _driver self with
  | Some driver =>
      try_except
        (call (Selenium.quit driver) (fun _ => EvQuit))
        (fun _ => ret tt)
  | None => ret tt
  end.

(** [close] called [n] times in succession; an exception ends the
    sequence. *)
Fixpoint close_times (n : nat) (self : t) : M unit :=
  match n with
  | O => ret tt
  | S n' => close self ;;; close_times n' self
  end.

End DOI2PDFDownloader.

(** ** Well-formed parse results *)

Module UrlInv.

(** [c in '?#'] *)
Definition is_query_delim (a : ascii) : bool :=
  Ascii.eqb a "?" || Ascii.eqb a "#".

(** The first character of [s], if any, satisfies [p]. *)
Definition first_in (p : ascii -> bool) (s : string) : Prop :=
  match s with
  | EmptyString => True
  | String a _ => p a = true
  end.

(** A scheme as [urlsplit] reports it: lower case scheme characters after
    an ASCII letter. *)
Definition scheme_valid (sch : string) : Prop :=
  exists a0 b, sch = String a0 b /\ Str.is_ascii_alpha a0 = true /\
    Str.all Url.is_scheme_char sch = true /\ Str.lower sch = sch.

(** The path with its parameters, as [urlunparse] joins them *)
Definition with_params (path params : string) : string :=
  if Str.nonempty params then path +:+ ";" +:+ params else path.

(** The parameter split of [urlparse] *)
Definition split_params_of (scheme url : string) : string * string :=
  if Url.in_list scheme Url.uses_params && Str.contains ";" url
  then Url._splitparams url
  else (url, EmptyString).

(** What holds of every result of [urlparse] *)
Record parsed_ok (p : Url.ParseResult) : Prop := {
  ok_scheme : Url.scheme p = "" \/ scheme_valid (Url.scheme p);
  ok_netloc : Str.any Url.is_netloc_delim (Url.netloc p) = false;
  ok_first :
    Url.netloc p <> "" ->
    first_in Url.is_netloc_delim (with_params (Url.path p) (Url.params p));
  ok_path :
    Str.any is_query_delim (with_params (Url.path p) (Url.params p)) = false;
  ok_query : Str.contains "#" (Url.query p) = false;
  ok_unsafe_netloc : Str.any Url.is_unsafe (Url.netloc p) = false;
  ok_unsafe_path :
    Str.any Url.is_unsafe (with_params (Url.path p) (Url.params p)) = false;
  ok_unsafe_query : Str.any Url.is_unsafe (Url.query p) = false;
  ok_unsafe_fragment : Str.any Url.is_unsafe (Url.fragment p) = false;
  ok_params :
    split_params_of (Url.scheme p) (with_params (Url.path p) (Url.params p))
    = (Url.path p, Url.params p)
}.

(** The parse result that [convert_to_hku_proxy] hands to [urlunparse] *)
Definition with_proxy_netloc (p : Url.ParseResult) : Url.ParseResult :=
  Url.mkParseResult (Url.scheme p)
    (Str.replace "." "-" (Url.netloc p) +:+ hku_suffix)
    (Url.path p) (Url.params p) (Url.query p) (Url.fragment p).

(** The host part of the network location: what follows the user
    information *)
Definition hostinfo (netloc : string) : string := Str.after_last "@" netloc.

(** The host part is a bare host name: no port and no bracketed literal *)
Definition bare_host (netloc : string) : Prop :=
  Str.contains ":" (hostinfo netloc) = false /\
  Str.contains "[" (hostinfo netloc) = false.

End UrlInv.

Import UrlInv.

(** ** Vocabulary for statements about runs *)

(** The address [doi_to_url] asks for *)
Definition resolver_url (doi : string) : string := "https://doi.org/" +:+ doi.

(** The dictionary of a round once the DOI is resolved *)
Definition info_resolved (doi url publisher : string) : Info :=
  <["publisher" := VStr publisher]> (<["url" := VStr url]> {["doi" := VStr doi]}).

(** The dictionary of a round when navigation starts *)
Definition info_proxied (doi url publisher proxied : string) : Info :=
  <["actions" := VList []]>
    (<["proxied_url" := VStr proxied]> (info_resolved doi url publisher)).

Definition status_vocabulary : list string :=
  ["resolve_failed"; "proxy_error"; "pdf_clicked"; "click_pdf_failed";
   "no_action_for_publisher"; "navigation_error"].

(** A finished record: the keys every round sets, a status of the
    vocabulary, and the error text with the statuses that capture an
    exception. *)
Definition finished (doi : string) (info : Info) : Prop :=
  info !! "doi" = Some (VStr doi) /\
  (exists url, info !! "url" = Some (VStr url)) /\
  (exists publisher, info !! "publisher" = Some (VStr publisher)) /\
  (exists actions, info !! "actions" = Some (VList actions)) /\
  exists status,
    info !! "status" = Some (VStr status) /\
    status ∈ status_vocabulary /\
    (status ∈ ["proxy_error"; "click_pdf_failed"; "navigation_error"] ->
     exists text, info !! "error" = Some (VStr text)).

(** Kinds of events *)
Definition is_request (e : Event) : bool :=
  match e with EvRequestsGet _ => true | _ => false end.

Definition is_navigation (e : Event) : bool :=
  match e with EvDriverGet _ _ => true | _ => false end.

(** a navigation that returned *)
Definition is_arrival (e : Event) : bool :=
  match e with EvDriverGet _ ok => ok | _ => false end.

(** the 20-second pause *)
Definition is_login_pause (e : Event) : bool :=
  match e with EvSleep millis => millis =? 20000 | _ => false end.

Definition is_ui_action (e : Event) : bool :=
  match e with EvFindElement _ _ _ | EvClick _ => true | _ => false end.

(** what [_wait_for_page_load] does after it is entered *)
Definition is_poll (e : Event) : bool :=
  match e with
  | EvExecuteScript _ => true
  | EvSleep millis => millis =? 500
  | _ => false
  end.

(** what the publisher switch does *)
Definition is_switch_event (e : Event) : bool :=
  match e with
  | EvFindElement _ _ _ | EvClick _ => true
  | EvSleep millis => millis =? 3000
  | _ => false
  end.

(** The addresses requested, in order *)
Fixpoint requests_of (tr : Trace) : list string :=
  match tr with
  | [] => []
  | EvRequestsGet url :: tr' => url :: requests_of tr'
  | _ :: tr' => requests_of tr'
  end.

(** Number of 20-second pauses *)
Fixpoint pauses (tr : Trace) : nat :=
  match tr with
  | [] => O
  | e :: tr' => ((if is_login_pause e then 1 else 0) + pauses tr')%nat
  end.

(** Every arrival is directly followed by the entry into
    [_wait_for_page_load] with timeout [wait_time]. *)
Fixpoint arrivals_wait (wait_time : Z) (tr : Trace) : bool :=
  match tr with
  | [] => true
  | EvDriverGet _ true :: tr' =>
      match tr' with
      | EvWaitForPageLoad timeout :: _ =>
          (timeout =? wait_time) && arrivals_wait wait_time tr'
      | _ => false
      end
  | _ :: tr' => arrivals_wait wait_time tr'
  end.

(** Events before the first arrival: no arrival, no pause, no action on the
    page *)
Definition is_quiet (e : Event) : bool :=
  negb (is_arrival e) && negb (is_login_pause e) && negb (is_ui_action e).

(** After the first arrival: no 20-second pause, and every arrival is
    followed by the wait for the page. *)
Definition later_ok (wait_time : Z) (evs : Trace) : Prop :=
  Forall (fun e => is_login_pause e = false) evs /\
  arrivals_wait wait_time evs = true.

(** The events of a batch so far, given the [first_visit] flag: quiet while
    the flag is set; afterwards a first arrival, directly followed by the
    pause, and a well-behaved remainder. *)
Definition batch_shape (wait_time : Z) (first_visit : bool) (evs : Trace)
  : Prop :=
  if first_visit then Forall (fun e => is_quiet e = true) evs
  else exists pre url post,
    evs = pre ++ EvDriverGet url true :: EvSleep 20000 :: post /\
    Forall (fun e => is_quiet e = true) pre /\
    later_ok wait_time post.

(** The events of one round, given the flag before and after *)
Definition round_shape (wait_time : Z) (before after : bool) (evs : Trace)
  : Prop :=
  (after = before /\ Forall (fun e => is_quiet e = true) evs) \/
  (before = true /\ after = false /\ batch_shape wait_time false evs) \/
  (before = false /\ after = false /\ later_ok wait_time evs).

(** The records the ACS branch leaves *)
Definition click_failed (info : Info) (e : PyExc) : Info :=
  <["error" := VStr (exc_str e)]> (<["status" := VStr "click_pdf_failed"]> info).

Definition clicked (info : Info) (actions : list string) : Info :=
  <["status" := VStr "pdf_clicked"]>
    (<["actions" := VList (actions ++ ["clicked_pdf_button"])]> info).

(** The character map of [replace('.', '-')] *)
Definition dot_to_dash (a : ascii) : ascii :=
  if Ascii.eqb a "." then "-"%char else a.

(** The resolution of [doi] at history [tr] ends at [final_url]: the
    response, or the response attached to the [HTTPError], carries it. *)
Definition resolves_to (w : World) (doi : string) (tr : Trace)
    (final_url : string) : Prop :=
  fetch w (resolver_url doi) tr = inr final_url \/
  exists text response,
    fetch w (resolver_url doi) tr = inl (HTTPError text (Some response)) /\
    resp_url response = final_url.


(** The host name of [url] is rewritten by [convert_to_hku_proxy]: dots
    replaced, suffix appended. *)
Definition hostname_rewritten (url : string) : Prop :=
  forall h,
    Url.hostname (Url.urlparse url) = Some h ->
    Url.hostname (Url.urlparse (convert_to_hku_proxy url))
    = Some (Str.replace "." "-" h +:+ hku_suffix).

(** The publisher that [doi_to_url] reports is the table's entry for the
    host name of the final URL. *)
Definition publisher_by_hostname (w : World) (doi : string) (tr : Trace)
  : Prop :=
  forall final_url h,
    resolves_to w doi tr final_url ->
    Url.hostname (Url.urlparse final_url) = Some h ->
    (doi_to_url w doi tr).1
    = Returned (final_url, default "Unknown" (publisher_map !! h)).

(** Every record of the batch with status [click_pdf_failed] carries a
    non-empty error text. *)
Definition click_failures_have_text (w : World) (dois : list string)
    (driver_obj : Selenium.WebDriver) (wait_time : Z) (proxy : ProxyArg)
    (tr : Trace) : Prop :=
  forall results doi info,
    (process_dois w dois driver_obj wait_time proxy tr).1 = Returned results ->
    results !! doi = Some info ->
    info !! "status" = Some (VStr "click_pdf_failed") ->
    exists text, info !! "error" = Some (VStr text) /\ text <> "".

(** The 20-second pause occurs exactly once among the events of the
    batch. *)
Definition pauses_exactly_once (w : World) (dois : list string)
    (driver_obj : Selenium.WebDriver) (wait_time : Z) (proxy : ProxyArg)
    (tr : Trace) : Prop :=
  exists results evs,
    process_dois w dois driver_obj wait_time proxy tr
    = (Returned results, tr ++ evs) /\
    pauses evs = 1%nat.

(** ** Sample worlds and drivers *)

Module Sample.

Definition doi : string := "10.1021/acscatal.9b05338".

(** The batch of the example at the end of the program *)
Definition dois : list string :=
  ["10.1021/acscatal.9b05338"; "10.1021/jacs.5c12544";
   "10.1021/acs.jpcc.3c04283"].

Definition acs_url : string :=
  "https://pubs.acs.org/doi/10.1021/acscatal.9b05338".

(** The resolver redirects to the ACS page. *)
Definition world_acs : World :=
  mkWorld (fun _ _ => inr (mkResponse acs_url 200)).

(** The final URL names the port. *)
Definition world_port : World :=
  mkWorld (fun _ _ =>
    inr (mkResponse "https://pubs.acs.org:443/doi/10.1021/acscatal.9b05338"
           200)).


(** No network *)
Definition world_offline : World :=
  mkWorld (fun _ _ => inl (RequestException "Connection refused")).

Definition button : Selenium.WebElement :=
  Selenium.mkWebElement (fun _ => Returned tt).

(** A session in which every call returns and the PDF button is there *)
Definition driver_ok : Selenium.WebDriver :=
  Selenium.mkWebDriver (fun _ _ => Returned tt) (fun _ _ => Returned "complete")
    (fun _ _ _ => Returned button) (fun _ => Returned tt).

(** A session whose [find_element] raises an exception without text, as
    [raise Exception()] does *)
Definition driver_silent : Selenium.WebDriver :=
  Selenium.mkWebDriver (fun _ _ => Returned tt) (fun _ _ => Returned "complete")
    (fun _ _ _ => Raised (mkExc "Exception" "")) (fun _ => Returned tt).

(** A session whose teardown fails *)
Definition driver_stuck : Selenium.WebDriver :=
  Selenium.mkWebDriver (fun _ _ => Returned tt) (fun _ _ => Returned "complete")
    (fun _ _ _ => Returned button)
    (fun _ => Raised (mkExc "WebDriverException" "Message: session gone")).

(** A proxy function that raises *)
Definition proxy_raising : ProxyArg :=
  ProxyCallable (fun _ _ => Raised (mkExc "ValueError" "no proxy for this host")).

Definition downloader : DOI2PDFDownloader.t :=
  DOI2PDFDownloader.mk [] (ProxyStr "hku") false (Some driver_stuck).

End Sample.

(** ** Vocabulary for further statements *)

(** The script [_wait_for_page_load] runs *)
Definition ready_script : string := "return document.readyState".

(** A poll at history [tr] sees a loaded page: the script returns
    ["complete"]; an exception counts as not loaded. *)
Definition reports_complete (driver : Selenium.WebDriver) (tr : Trace) : bool :=
  match Selenium.execute_script driver tr ready_script with
  | Returned state => String.eqb state "complete"
  | Raised _ => false
  end.

(** Number of calls of [execute_script] *)
Fixpoint polls (tr : Trace) : nat :=
  match tr with
  | [] => O
  | EvExecuteScript _ :: tr' => S (polls tr')
  | _ :: tr' => polls tr'
  end.

(** The events of [_wait_for_page_load] after its entry: the one script,
    and sleeps of half a second *)
Definition is_wait_event (e : Event) : bool :=
  match e with
  | EvExecuteScript script => String.eqb script ready_script
  | EvSleep millis => millis =? 500
  | _ => false
  end.

(** [callable(proxy)] *)
Definition is_callable (proxy : ProxyArg) : bool :=
  match proxy with ProxyCallable _ => true | _ => false end.

(** What a batch with proxy argument [proxy] and timeout [wait_time] may
    do: everything but [quit], with the arguments the program fixes. *)
Definition batch_event (proxy : ProxyArg) (wait_time : Z) (e : Event) : bool :=
  match e with
  | EvRequestsGet _ => true
  | EvProxyCall _ => is_callable proxy
  | EvDriverGet _ _ => true
  | EvExecuteScript script => String.eqb script ready_script
  | EvFindElement by_ value _ =>
      String.eqb by_ Selenium.CLASS_NAME && String.eqb value pdf_class
  | EvClick _ => true
  | EvSleep millis =>
      (millis =? 20000) || (millis =? 500) || (millis =? 3000)
  | EvWaitForPageLoad timeout => timeout =? wait_time
  | EvQuit => false
  end.

(** Number of calls of [driver.get], and of those that returned *)
Fixpoint navigations (tr : Trace) : nat :=
  match tr with
  | [] => O
  | e :: tr' => ((if is_navigation e then 1 else 0) + navigations tr')%nat
  end.

Fixpoint arrivals (tr : Trace) : nat :=
  match tr with
  | [] => O
  | e :: tr' => ((if is_arrival e then 1 else 0) + arrivals tr')%nat
  end.

(** The address of a navigation *)
Definition navigation_target (e : Event) : option string :=
  match e with EvDriverGet url _ => Some url | _ => None end.

(** The keys of a record, by its status *)
Definition record_keys (status : string) : list string :=
  ["doi"; "url"; "publisher"; "status"; "actions"]
  ++ (if bool_decide (status ∈ ["resolve_failed"; "proxy_error"])
      then [] else ["proxied_url"])
  ++ (if bool_decide
           (status ∈ ["proxy_error"; "click_pdf_failed"; "navigation_error"])
      then ["error"] else []).

(** The shape of a record: a status of the vocabulary, exactly the keys of
    that status, and the action of the PDF button exactly with the status
    ["pdf_clicked"]. *)
Definition record_shape (doi : string) (info : Info) : Prop :=
  exists status,
    info !! "status" = Some (VStr status) /\
    status ∈ status_vocabulary /\
    dom info = list_to_set (record_keys status) /\
    info !! "doi" = Some (VStr doi) /\
    info !! "actions"
    = Some (VList (if String.eqb status "pdf_clicked"
                   then ["clicked_pdf_button"] else [])).

(** The label agrees with the table: it is ["Unknown"], or the label the
    table gives for the network location of [url]. *)
Definition labelled (url publisher : string) : Prop :=
  publisher = "Unknown" \/
  (Url.netloc (Url.urlparse url), publisher) ∈ publisher_table.

(** The record agrees with itself: its label agrees with the table on its
    URL, a click was tried only with the label ["ACS"], and no action means
    another label. *)
Definition record_label (info : Info) : Prop :=
  exists url publisher status,
    info !! "url" = Some (VStr url) /\
    info !! "publisher" = Some (VStr publisher) /\
    info !! "status" = Some (VStr status) /\
    labelled url publisher /\
    (status ∈ ["pdf_clicked"; "click_pdf_failed"] ->
     publisher = "ACS" /\ Url.netloc (Url.urlparse url) = "pubs.acs.org") /\
    (status = "no_action_for_publisher" -> publisher <> "ACS").

(** The path that [urlunsplit] writes behind a network location: a
    leading slash is supplied when the joined path lacks one. *)
Definition rooted (path params : string) : string :=
  let joined := with_params path params in
  if Str.nonempty joined && negb (Str.startswith "/" joined)
  then "/" +:+ path else path.

(** ** Construction and configuration of the downloader

    [__init__] and [setup] build the preferences and start the browser.
    [os.path.abspath] and [webdriver.Chrome] are taken from outside. *)

Module Config.

(** Values of the preference dictionary *)
Inductive PrefVal : Type :=
| PBool (b : bool)
| PStr (s : string).

(** [webdriver.ChromeOptions()]: the experimental options set so far *)
Record ChromeOptions := mkOptions {
  experimental_options : gmap string (gmap string PrefVal)
}.

Record Os := mkOs {
  abspath : string -> string;
  (** [webdriver.Chrome(options=...)] *)
  Chrome : ChromeOptions -> Outcome Selenium.WebDriver
}.

(** The attributes of the object: those of [DOI2PDFDownloader.t], the
    preferences and the options.  [chrome_options] holds the dictionary
    [prefs] itself once it was added. *)
Record Instance := mkInstance {
  base : DOI2PDFDownloader.t;
  prefs : gmap string PrefVal;
  chrome_options : ChromeOptions
}.

(** truth value of [download_path]: [None] and [""] are not truthy *)
Definition truthy (download_path : option string) : option string :=
  match download_path with
  | Some path => if Str.nonempty path then Some path else None
  | None => None
  end.

(** [chrome_options.add_experimental_option(name, value)] *)
Definition add_experimental_option (options : ChromeOptions) (name : string)
    (value : gmap string PrefVal) : ChromeOptions :=
  mkOptions (<[name := value]> (experimental_options options)).

(** [DOI2PDFDownloader(download_path, proxy_method, headless)]: the object,
    or the exception of [webdriver.Chrome] *)
Definition __init__ (os : Os) (download_path : option string)
    (proxy_method : ProxyArg) (headless : bool) : Outcome Instance :=
  let chrome_options := mkOptions ∅ in
  let prefs : gmap string PrefVal :=
    <["download.prompt_for_download" := PBool false]>
      (<["download.default_directory" := PStr (abspath os ".")]>
         {["plugins.always_open_pdf_externally" := PBool true]}) in
  let prefs :=
    match truthy download_path with
    | Some path =>
        <["download.default_directory" := PStr (abspath os path)]> prefs
    | None => prefs
    end in
  let chrome_options := add_experimental_option chrome_options "prefs" prefs in
  match Chrome os chrome_options with
  | Returned driver =>
      Returned
        (mkInstance
           (DOI2PDFDownloader.mk [] proxy_method headless (Some driver))
           prefs chrome_options)
  | Raised e => Raised e
  end.

(** [self.setup(download_path, proxy_method, headless)]: the outcome and the
    object as the call leaves it, also when [webdriver.Chrome] raises.  An
    argument that is [None] ([ProxyNone] for [proxy_method]) keeps the
    attribute. *)
Definition setup (os : Os) (self : Instance) (download_path : option string)
    (proxy_method : ProxyArg) (headless : option bool)
  : Outcome unit * Instance :=
  let prefs :=
    match truthy download_path with
    | Some path =>
        <["download.default_directory" := PStr (abspath os path)]> (prefs self)
    | None => prefs self
    end in
  let proxy_method :=
    match proxy_method with
    | ProxyNone => DOI2PDFDownloader.proxy_method (base self)
    | method => method
    end in
  let headless :=
    match headless with
    | Some flag => flag
    | None => DOI2PDFDownloader.headless (base self)
    end in
  let chrome_options :=
    add_experimental_option (chrome_options self) "prefs" prefs in
  let queue := DOI2PDFDownloader._queue (base self) in
  match Chrome os chrome_options with
  | Returned driver =>
      (Returned tt,
       mkInstance
         (DOI2PDFDownloader.mk queue proxy_method headless (Some driver))
         prefs chrome_options)
  | Raised e =>
      (Raised e,
       mkInstance
         (DOI2PDFDownloader.mk queue proxy_method headless
            (DOI2PDFDownloader._driver (base self)))
         prefs chrome_options)
  end.

(** The arguments of one call of [setup] *)
Record SetupArgs := mkArgs {
  arg_download_path : option string;
  arg_proxy_method : ProxyArg;
  arg_headless : option bool
}.

(** Calls of [setup] one after the other, each on the object the one
    before left (the caller catching what [webdriver.Chrome] raises) *)
Fixpoint setups (os : Os) (self : Instance) (calls : list SetupArgs)
  : Instance :=
  match calls with
  | [] => self
  | args :: rest =>
      setups os
        (setup os self (arg_download_path args) (arg_proxy_method args)
           (arg_headless args)).2
        rest
  end.

(** The directory the calls ask for: the last truthy [download_path],
    [current] when there is none *)
Fixpoint requested_directory (current : string) (paths : list (option string))
  : string :=
  match paths with
  | [] => current
  | path :: rest =>
      requested_directory (default current (truthy path)) rest
  end.

End Config.

(** ** More sample drivers *)

Module Fixture.

(** A session that cannot navigate *)
Definition driver_unreachable : Selenium.WebDriver :=
  Selenium.mkWebDriver
    (fun _ _ => Raised (mkExc "WebDriverException" "Message: unreachable"))
    (fun _ _ => Returned "complete")
    (fun _ _ _ => Returned Sample.button) (fun _ => Returned tt).

(** An operating system with [/home/user] as current directory, where
    Chrome starts *)
Definition os : Config.Os :=
  Config.mkOs
    (fun path => if Str.startswith "/" path then path
                 else if String.eqb path "." then "/home/user"
                 else "/home/user/" +:+ path)
    (fun _ => Returned Sample.driver_ok).

End Fixture.

(** [p] is what the proxy selection returns for some resolved URL. *)
Definition proxy_image (proxy : ProxyArg) (p : string) : Prop :=
  exists url tr1 tr2, select_proxy proxy url tr1 = (Returned p, tr2).

(** Every navigation among [evs] goes to an address the proxy selection
    returned. *)
Definition targets_selected (proxy : ProxyArg) (evs : Trace) : Prop :=
  Forall
    (fun e => forall p, navigation_target e = Some p -> proxy_image proxy p)
    evs.

(** ** Vocabulary for the downloader *)

(** Calls of [add_dois] one after the other *)
Definition add_all (self : DOI2PDFDownloader.t)
    (args : list DOI2PDFDownloader.DoisArg) : DOI2PDFDownloader.t :=
  foldl DOI2PDFDownloader.add_dois self args.

(** The DOIs an argument of [add_dois] stands for *)
Definition dois_of (arg : DOI2PDFDownloader.DoisArg) : list string :=
  match arg with
  | DOI2PDFDownloader.OneDoi doi => [doi]
  | DOI2PDFDownloader.ManyDois dois => dois
  end.

(** [p] is the result of [convert_to_hku_proxy]: a URL on the proxy host of
    some URL. *)
Definition hku_address (p : string) : Prop :=
  exists url,
    p = convert_to_hku_proxy url /\
    Url.netloc (Url.urlparse p)
    = Str.replace "." "-" (Url.netloc (Url.urlparse url)) +:+ hku_suffix.

(** The downloader with another [proxy_method] *)
Definition with_proxy_method (self : DOI2PDFDownloader.t) (method : ProxyArg)
  : DOI2PDFDownloader.t :=
  DOI2PDFDownloader.mk (DOI2PDFDownloader._queue self) method
    (DOI2PDFDownloader.headless self) (DOI2PDFDownloader._driver self).

(** The downloader after a run: the queue is empty. *)
Definition after_run (self : DOI2PDFDownloader.t) : DOI2PDFDownloader.t :=
  DOI2PDFDownloader.mk [] (DOI2PDFDownloader.proxy_method self)
    (DOI2PDFDownloader.headless self) (DOI2PDFDownloader._driver self).

(** What the browser gets to see of a downloader: the session, the options
    it was started with, and the preferences *)
Definition browser_of (self : Config.Instance)
  : option Selenium.WebDriver * Config.ChromeOptions
    * gmap string Config.PrefVal :=
  (DOI2PDFDownloader._driver (Config.base self), Config.chrome_options self,
   Config.prefs self).

(** Two constructions end alike for the browser: with the same exception,
    or with the same session, options and preferences. *)
Definition same_browser (a b : Outcome Config.Instance) : Prop :=
  match a, b with
  | Returned x, Returned y => browser_of x = browser_of y
  | Raised e1, Raised e2 => e1 = e2
  | _, _ => False
  end.

(** The preferences with download directory [directory] *)
Definition prefs_for (directory : string) : gmap string Config.PrefVal :=
  <["download.prompt_for_download" := Config.PBool false]>
    (<["download.default_directory" := Config.PStr directory]>
       {["plugins.always_open_pdf_externally" := Config.PBool true]}).

(** The state of the preferences: those for [abspath dir], held by the
    options under ["prefs"] and nothing else *)
Definition configured (os : Config.Os) (dir : string)
    (self : Config.Instance) : Prop :=
  Config.prefs self = prefs_for (Config.abspath os dir) /\
  Config.experimental_options (Config.chrome_options self)
  = {["prefs" := Config.prefs self]}.

(** ** The exceptions the program does not catch

    The definitions above describe the program as long as the resolution of
    a DOI raises nothing.  Two calls of [doi_to_url] can raise an exception
    that no handler of the program catches: [requests.get], when it raises
    an exception that is no [RequestException], and [urlparse], which raises
    [ValueError] for some network locations with square brackets.  The
    module [Exn] describes the program with these exceptions.

    A string of the model stands for the Python [str] with the same code
    points, all below 256.  On these, the check of [urlsplit] under NFKC
    normalisation ([_checknetloc]) raises nothing: no such character
    normalises to a text with one of [/?#@:]. *)

(** [s.isascii()] *)
Definition isascii (s : string) : bool :=
  Str.all (fun a => (nat_of_ascii a <? 128)%nat) s.

(** Neither bracket occurs in [netloc]. *)
Definition bracket_free (netloc : string) : Prop :=
  Str.contains "[" netloc = false /\ Str.contains "]" netloc = false.

(** A pure computation that may raise, in the monad *)
Definition of_outcome {A} (r : Outcome A) : M A := fun tr => (r, tr).

Module Exn.

Record Env := mkEnv {
  world : World;
  (** the exception that [requests.get(url, ...)] raises, when it raises
      one that is no [RequestException]; the answer of [world] counts
      otherwise *)
  requests_raises : Trace -> string -> option PyExc;
  (** the [ValueError], if any, that [urlsplit] raises for a network
      location in which both brackets occur: none up to CPython 3.11.3, the
      check of the bracketed host ([_check_bracketed_host],
      [_check_bracketed_netloc], with [ipaddress]) in later releases *)
  check_bracketed_netloc : string -> option PyExc
}.

Definition ValueError (text : string) : PyExc := mkExc "ValueError" text.

(** The checks of [urlsplit] on the network location:
    [('[' in netloc and ']' not in netloc) or
     (']' in netloc and '[' not in netloc)] raises; with both brackets the
    bracketed host is checked. *)
Definition netloc_error (env : Env) (netloc : string) : option PyExc :=
  let opening := Str.contains "[" netloc in
  let closing := Str.contains "]" netloc in
  if (opening && negb closing) || (closing && negb opening)
  then Some (ValueError "Invalid IPv6 URL")
  else if opening && closing then check_bracketed_netloc env netloc
  else None.

(** [urlparse(url)], with the [ValueError] of [urlsplit] *)
Definition urlparse (env : Env) (url : string) : Outcome Url.ParseResult :=
  let parsed := Url.urlparse url in
  match netloc_error env (Url.netloc parsed) with
  | Some e => Raised e
  | None => Returned parsed
  end.

Definition convert_to_hku_proxy (env : Env) (url : string) : Outcome string :=
  match urlparse env url with
  | Raised e => Raised e
  | Returned parsed =>
      let proxy_netloc :=
        Str.replace "." "-" (Url.netloc parsed) +:+ hku_suffix in
      let proxied_url :=
        Url.urlunparse
          (Url.mkParseResult (Url.scheme parsed) proxy_netloc
             (Url.path parsed) (Url.params parsed) (Url.query parsed)
             (Url.fragment parsed)) in
      Returned proxied_url
  end.

Definition doi_to_url (env : Env) (doi : string) : M (string * string) :=
  fun tr =>
  let resolver_url := "https://doi.org/" +:+ doi in
  let tr1 := tr ++ [EvRequestsGet resolver_url] in
  match requests_raises env tr resolver_url with
  | Some e => (Raised e, tr1)
  | None =>
      let final_url : (string * string) + string :=
        match fetch (world env) resolver_url tr with
        | inr final_url => inr final_url
        | inl (HTTPError text (Some response)) => inr (resp_url response)
        | inl (HTTPError text None) => inl (resolve_error doi text)
        | inl (RequestException text) => inl (resolve_error doi text)
        end in
      match final_url with
      | inl early => (Returned early, tr1)
      | inr final_url =>
          match urlparse env final_url with
          | Raised e => (Raised e, tr1)
          | Returned parsed =>
              let domain := Url.netloc parsed in
              let publisher := default "Unknown" (publisher_map !! domain) in
              (Returned (final_url, publisher), tr1)
          end
      end
  end.

(** The body of the [try] block that determines the proxied URL *)
Definition select_proxy (env : Env) (proxy : ProxyArg) (url : string)
  : M string :=
  match proxy with
  | ProxyNone => of_outcome (convert_to_hku_proxy env url)
  | ProxyStr s =>
      if String.eqb s "hku" then of_outcome (convert_to_hku_proxy env url)
      else if String.eqb s "none" then ret url
      else of_outcome (convert_to_hku_proxy env url)
  | ProxyCallable f => call (fun tr => f tr url) (fun _ => EvProxyCall url)
  | ProxyOther => of_outcome (convert_to_hku_proxy env url)
  end.

(** One round of the [for doi in dois] loop.  [doi_to_url] is called
    outside every [try]: what it raises ends the round and the loop. *)
Definition process_doi (env : Env) (driver : Selenium.WebDriver)
    (wait_time : Z) (proxy : ProxyArg) (st : LoopState) (doi : string)
  : M LoopState :=
  let info : Info := {["doi" := VStr doi]} in
  resolved <- doi_to_url env doi ;;
  let '(url, publisher) := resolved in
  let info := <["url" := VStr url]> info in
  let info := <["publisher" := VStr publisher]> info in
  if Str.startswith "Error" url then
    let info := <["status" := VStr "resolve_failed"]> info in
    let info := <["actions" := VList []]> info in
    ret (mkLoopState (<[doi := info]> (results st)) (first_visit st))
  else
    selected <- attempt (select_proxy env proxy url) ;;
    match selected with
    | Raised e =>
        let info := <["status" := VStr "proxy_error"]> info in
        let info :=
          <["error" := VStr ("proxy function error: " +:+ exc_str e)]> info in
        let info := <["actions" := VList []]> info in
        ret (mkLoopState (<[doi := info]> (results st)) (first_visit st))
    | Returned proxied =>
        let info := <["proxied_url" := VStr proxied]> info in
        let info := <["actions" := VList []]> info in
        visited <-
          try_except
            (visit driver wait_time publisher proxied info (first_visit st))
            (fun e =>
               let info := <["status" := VStr "navigation_error"]> info in
               let info := <["error" := VStr (exc_str e)]> info in
               ret (info, first_visit st)) ;;
        let '(info, first_visit) := visited in
        ret (mkLoopState (<[doi := info]> (results st)) first_visit)
    end.

Definition process_dois (env : Env) (dois : list string)
    (driver_obj : Selenium.WebDriver) (wait_time : Z) (proxy : ProxyArg)
  : M (gmap string (gmap string PyVal)) :=
  st <- for_each (process_doi env driver_obj wait_time proxy) dois
          (mkLoopState ∅ true) ;;
  ret (results st).

(** [self.start_download_sync(wait_time)]: the outcome and the object as
    the call leaves it.  When [process_dois] raises, the assignment to
    [self._queue] is not reached. *)
Definition start_download_sync (env : Env) (self : DOI2PDFDownloader.t)
    (wait_time : Z)
  : Trace -> (Outcome (gmap string (gmap string PyVal)) * DOI2PDFDownloader.t)
             * Trace :=
  fun tr =>
  match process_dois env (DOI2PDFDownloader._queue self)
          (default DOI2PDFDownloader.no_driver
             (DOI2PDFDownloader._driver self))
          wait_time ProxyNone tr with
  | (Returned results, tr') =>
      ((Returned results,
        DOI2PDFDownloader.mk [] (DOI2PDFDownloader.proxy_method self)
          (DOI2PDFDownloader.headless self) (DOI2PDFDownloader._driver self)),
       tr')
  | (Raised e, tr') => ((Raised e, self), tr')
  end.

End Exn.

(** ** Vocabulary for statements about the uncaught exceptions *)

(** The resolution of [doi] at history [tr] raises [e]: [requests.get]
    raises it and it is no [RequestException], or the resolution ends at a
    final URL for whose network location [urlparse] raises it. *)
Definition resolution_raises (env : Exn.Env) (doi : string) (tr : Trace)
    (e : PyExc) : Prop :=
  Exn.requests_raises env tr (resolver_url doi) = Some e \/
  (Exn.requests_raises env tr (resolver_url doi) = None /\
   exists final_url,
     resolves_to (Exn.world env) doi tr final_url /\
     Exn.netloc_error env (Url.netloc (Url.urlparse final_url)) = Some e).

(** What the specification says of the publisher action (4.4, step 5), for
    the dictionary [info] at history [tr]: the dictionary and the history it
    leaves.  With the label ["ACS"] the PDF button is looked up by its class
    name and clicked; the failure of either call is captured with its text;
    every other label is left without action. *)
Inductive switched (driver : Selenium.WebDriver) (publisher : string)
    (info : Info) (tr : Trace) : Info -> Trace -> Prop :=
| switched_not_found e :
    publisher = "ACS" ->
    Selenium.find_element driver tr Selenium.CLASS_NAME pdf_class = Raised e ->
    switched driver publisher info tr (click_failed info e)
      (tr ++ [EvFindElement Selenium.CLASS_NAME pdf_class false])
| switched_not_clicked pdf_button e :
    publisher = "ACS" ->
    Selenium.find_element driver tr Selenium.CLASS_NAME pdf_class
    = Returned pdf_button ->
    Selenium.click pdf_button
      (tr ++ [EvFindElement Selenium.CLASS_NAME pdf_class true]) = Raised e ->
    switched driver publisher info tr (click_failed info e)
      (tr ++ [EvFindElement Selenium.CLASS_NAME pdf_class true; EvClick false])
| switched_clicked pdf_button :
    publisher = "ACS" ->
    Selenium.find_element driver tr Selenium.CLASS_NAME pdf_class
    = Returned pdf_button ->
    Selenium.click pdf_button
      (tr ++ [EvFindElement Selenium.CLASS_NAME pdf_class true]) = Returned tt ->
    switched driver publisher info tr (clicked info [])
      (tr ++ [EvFindElement Selenium.CLASS_NAME pdf_class true; EvClick true;
              EvSleep 3000])
| switched_no_action :
    publisher <> "ACS" ->
    switched driver publisher info tr
      (<["status" := VStr "no_action_for_publisher"]> info) tr.

(** What the specification says of the time after a navigation (4.4,
    step 4): the pause of 20 seconds on the first visit, the wait for the
    page with [wait_time] afterwards. *)
Definition awaited (driver : Selenium.WebDriver) (wait_time : Z)
    (first_visit : bool) (tr tr' : Trace) : Prop :=
  if first_visit then tr' = tr ++ [EvSleep 20000]
  else exists ready, _wait_for_page_load driver wait_time tr = (Returned ready, tr').

(** What the specification says of one DOI (4.4, steps 1 to 6, and 7):
    the record stored for [doi], the [first_visit] flag and the history the
    round leaves, by what failed.  A resolution that gives an error text is
    recorded as [resolve_failed]; an exception of the proxy selection as
    [proxy_error]; an exception of the navigation as [navigation_error];
    after a navigation that returned, the record is the one of the
    publisher action. *)
Inductive captured (env : Exn.Env) (driver : Selenium.WebDriver)
    (wait_time : Z) (proxy : ProxyArg) (first_visit : bool) (doi : string)
    (tr : Trace) : Info -> bool -> Trace -> Prop :=
| captured_resolve_failed url publisher tr1 :
    Exn.doi_to_url env doi tr = (Returned (url, publisher), tr1) ->
    Str.startswith "Error" url = true ->
    captured env driver wait_time proxy first_visit doi tr
      (<["actions" := VList []]>
         (<["status" := VStr "resolve_failed"]>
            (info_resolved doi url publisher)))
      first_visit tr1
| captured_proxy_error url publisher tr1 e tr2 :
    Exn.doi_to_url env doi tr = (Returned (url, publisher), tr1) ->
    Str.startswith "Error" url = false ->
    Exn.select_proxy env proxy url tr1 = (Raised e, tr2) ->
    captured env driver wait_time proxy first_visit doi tr
      (<["actions" := VList []]>
         (<["error" := VStr ("proxy function error: " +:+ exc_str e)]>
            (<["status" := VStr "proxy_error"]>
               (info_resolved doi url publisher))))
      first_visit tr2
| captured_navigation_error url publisher tr1 proxied tr2 e :
    Exn.doi_to_url env doi tr = (Returned (url, publisher), tr1) ->
    Str.startswith "Error" url = false ->
    Exn.select_proxy env proxy url tr1 = (Returned proxied, tr2) ->
    Selenium.get driver tr2 proxied = Raised e ->
    captured env driver wait_time proxy first_visit doi tr
      (<["error" := VStr (exc_str e)]>
         (<["status" := VStr "navigation_error"]>
            (info_proxied doi url publisher proxied)))
      first_visit (tr2 ++ [EvDriverGet proxied false])
| captured_visited url publisher tr1 proxied tr2 tr3 info tr4 :
    Exn.doi_to_url env doi tr = (Returned (url, publisher), tr1) ->
    Str.startswith "Error" url = false ->
    Exn.select_proxy env proxy url tr1 = (Returned proxied, tr2) ->
    Selenium.get driver tr2 proxied = Returned tt ->
    awaited driver wait_time first_visit
      (tr2 ++ [EvDriverGet proxied true]) tr3 ->
    switched driver publisher (info_proxied doi url publisher proxied) tr3
      info tr4 ->
    captured env driver wait_time proxy first_visit doi tr info false tr4.

(** The loop over [dois] from state [st] at history [tr] ends in [st'] at
    [tr']. *)
Definition rounds_done (env : Exn.Env) (driver : Selenium.WebDriver)
    (wait_time : Z) (proxy : ProxyArg) (dois : list string)
    (st : LoopState) (tr : Trace) (st' : LoopState) (tr' : Trace) : Prop :=
  for_each (Exn.process_doi env driver wait_time proxy) dois st tr
  = (Returned st', tr').

(** ** Sample environments *)

Module SampleEnv.

(** A library that accepts every network location with both brackets, as
    CPython up to 3.11.3 does *)
Definition lenient (w : World) : Exn.Env :=
  Exn.mkEnv w (fun _ _ => None) (fun _ => None).

(** The resolver redirects to an address with an unbalanced bracket. *)
Definition bracket_url : string := "http://[::1/x".

Definition env_bracket : Exn.Env :=
  lenient (mkWorld (fun _ _ => inr (mkResponse bracket_url 200))).

(** The resolver redirects to the ACS page. *)
Definition env_acs : Exn.Env := lenient Sample.world_acs.

(** [requests.get] raises an exception of another library. *)
Definition env_foreign : Exn.Env :=
  Exn.mkEnv Sample.world_acs
    (fun _ _ => Some (mkExc "UnicodeError" "label empty or too long"))
    (fun _ => None).

End SampleEnv.

(** [process_dois] returns, whatever it is given: the first sentence of the
    claim on the batch. *)
Definition never_raises (env : Exn.Env) (dois : list string)
    (driver_obj : Selenium.WebDriver) (wait_time : Z) (proxy : ProxyArg)
    (tr : Trace) : Prop :=
  exists results tr',
    Exn.process_dois env dois driver_obj wait_time proxy tr
    = (Returned results, tr').

(** The events of one round of the loop for [doi], begun at history [tr]:
    the request for the DOI comes first and is the only request; there is
    at most one navigation; and a navigation goes to the address that the
    proxy selection returned for the URL that [doi_to_url] returned for
    this DOI in this round. *)
Definition round_navigation (env : Exn.Env) (proxy : ProxyArg)
    (doi : string) (tr : Trace) (revs : Trace) : Prop :=
  (exists rest,
     revs = EvRequestsGet (resolver_url doi) :: rest /\
     requests_of rest = []) /\
  (navigations revs <= 1)%nat /\
  forall e p,
    e ∈ revs -> navigation_target e = Some p ->
    exists url publisher tr1 tr2,
      Exn.doi_to_url env doi tr = (Returned (url, publisher), tr1) /\
      Exn.select_proxy env proxy url tr1 = (Returned p, tr2).

(** The rounds [rounds] are those of the first DOIs of [dois], in order,
    each begun at the history the rounds before it left. *)
Fixpoint by_rounds (P : string -> Trace -> Trace -> Prop)
    (dois : list string) (tr : Trace) (rounds : list Trace) {struct rounds}
  : Prop :=
  match rounds, dois with
  | [], _ => True
  | revs :: rounds', doi :: dois' =>
      P doi tr revs /\ by_rounds P dois' (tr ++ revs) rounds'
  | _ :: _, [] => False
  end.

(** Events that are neither a request nor a navigation *)
Definition is_local (e : Event) : bool :=
  negb (is_request e) && negb (is_navigation e).

(** ** Proof automation *)

(** Facts about one character, by cases on its eight bits *)
Ltac by_cases a :=
  destruct a as [[] [] [] [] [] [] [] []]; vm_compute; try reflexivity;
  try discriminate; intuition discriminate.

(** Membership in a list of literals, decided by evaluation *)
Ltac in_vocabulary := apply (bool_decide_unpack _); vm_compute; exact I.
Ltac not_in_list H := apply (bool_decide_pack _) in H; vm_compute in H; done.

#[local] Arguments String.append !_ _ : simpl nomatch.

(** * Facts about the string operations and the URL model *)

Section StrFacts.
Implicit Types (s t b r : string) (a c : ascii) (p : ascii -> bool).

Lemma sapp_nil_r s : s +:+ "" = s.
Proof. induction s as [|a s IH]; simpl; [done | by rewrite IH]. Qed.

Lemma sapp_assoc s t r : (s +:+ t) +:+ r = s +:+ (t +:+ r).
Proof. induction s as [|a s IH]; simpl; [done | by rewrite IH]. Qed.

Lemma any_app p s t : Str.any p (s +:+ t) = Str.any p s || Str.any p t.
Proof.
  induction s as [|a s IH]; simpl; [done |].
  by rewrite IH, orb_assoc.
Qed.

Lemma all_app p s t : Str.all p (s +:+ t) = Str.all p s && Str.all p t.
Proof.
  induction s as [|a s IH]; simpl; [done |].
  by rewrite IH, andb_assoc.
Qed.

Lemma smap_app f s t : Str.map f (s +:+ t) = Str.map f s +:+ Str.map f t.
Proof. induction s as [|a s IH]; simpl; [done | by rewrite IH]. Qed.

Lemma contains_any c s : Str.contains c s = Str.any (Ascii.eqb c) s.
Proof.
  induction s as [|a s IH]; simpl; [done |].
  rewrite (Ascii.eqb_sym c a), IH. by destruct (Ascii.eqb a c).
Qed.

Lemma any_ext p q s : (forall a, p a = q a) -> Str.any p s = Str.any q s.
Proof. intros E. induction s as [|a s IH]; simpl; [done | by rewrite E, IH]. Qed.

Lemma any_weaken p q s :
  (forall a, q a = true -> p a = true) -> Str.any p s = false -> Str.any q s = false.
Proof.
  intros E. induction s as [|a s IH]; simpl; [done |].
  intros [Ha Hs]%orb_false_elim. rewrite (IH Hs), orb_false_r.
  destruct (q a) eqn:Hq; [|done]. by rewrite (E a Hq) in Ha.
Qed.

Lemma any_map p f s : Str.any p (Str.map f s) = Str.any (fun a => p (f a)) s.
Proof. induction s as [|a s IH]; simpl; [done | by rewrite IH]. Qed.

Lemma map_id_on f s :
  Str.all (fun a => Ascii.eqb (f a) a) s = true -> Str.map f s = s.
Proof.
  induction s as [|a s IH]; simpl; [done |].
  intros [Ha Hs]%andb_prop. apply Ascii.eqb_eq in Ha.
  by rewrite Ha, IH.
Qed.

Lemma remove_free p s : Str.any p s = false -> Str.remove p s = s.
Proof.
  induction s as [|a s IH]; simpl; [done |].
  intros [Ha Hs]%orb_false_elim. by rewrite Ha, IH.
Qed.

Lemma any_remove p s : Str.any p (Str.remove p s) = false.
Proof.
  induction s as [|a s IH]; simpl; [done |].
  destruct (p a) eqn:Ha; simpl; [done | by rewrite Ha].
Qed.

(** [break] cuts the string in two, in front of the first selected
    character. *)
Lemma break_eq p s b r :
  Str.break p s = (b, r) ->
  s = b +:+ r /\ Str.any p b = false /\
  (r = "" \/ exists a r', r = String a r' /\ p a = true).
Proof.
  revert b r. induction s as [|a s IH]; simpl; intros b r.
  - intros [= <- <-]. auto.
  - destruct (p a) eqn:Ha.
    + intros [= <- <-]. split_and!; [done..|]. right; eauto.
    + destruct (Str.break p s) as [b' r'] eqn:E. intros [= <- <-].
      destruct (IH _ _ eq_refl) as (-> & Hb & Hr).
      simpl. rewrite Ha. auto.
Qed.

Lemma break_app p b r :
  Str.any p b = false ->
  (r = "" \/ exists a r', r = String a r' /\ p a = true) ->
  Str.break p (b +:+ r) = (b, r).
Proof.
  intros Hb Hr. induction b as [|a b IH]; simpl in *.
  - destruct Hr as [->|(a & r' & -> & Ha)]; simpl; [done | by rewrite Ha].
  - apply orb_false_elim in Hb as [Ha Hb]. by rewrite Ha, IH.
Qed.

Lemma break_free p s : Str.any p s = false -> Str.break p s = (s, "").
Proof.
  intros H. rewrite <-(sapp_nil_r s) at 1. apply break_app; auto.
Qed.

(** [rbreak] cuts in front of the last occurrence. *)
Lemma rbreak_Some c s h t :
  Str.rbreak c s = Some (h, t) ->
  s = h +:+ t /\ exists t', t = String c t' /\ Str.contains c t' = false.
Proof.
  revert h t. induction s as [|a s IH]; simpl; intros h t; [done |].
  destruct (Str.rbreak c s) as [[h' t']|] eqn:E.
  - intros [= <- <-]. destruct (IH _ _ eq_refl) as (-> & Ht). auto.
  - destruct (Ascii.eqb a c) eqn:Ha; [|done]. intros [= <- <-].
    apply Ascii.eqb_eq in Ha as ->. split; [done |]. exists s. split; [done |].
    clear IH. induction s as [|a s IH]; simpl in *; [done |].
    destruct (Str.rbreak c s) as [[??]|]; [done |].
    destruct (Ascii.eqb a c); [done | auto].
Qed.

Lemma rbreak_None c s : Str.rbreak c s = None -> Str.contains c s = false.
Proof.
  induction s as [|a s IH]; simpl; [done |].
  destruct (Str.rbreak c s) as [[??]|]; [done |].
  destruct (Ascii.eqb a c); [done | auto].
Qed.

Lemma rbreak_app c h t' :
  Str.contains c t' = false ->
  Str.rbreak c (h +:+ String c t') = Some (h, String c t').
Proof.
  intros Ht.
  assert (Hn : Str.rbreak c t' = None).
  { induction t' as [|a t IH]; simpl in *; [done |].
    destruct (Ascii.eqb a c); [done |]. by rewrite IH. }
  induction h as [|a h IH]; simpl.
  - by rewrite Hn, Ascii.eqb_refl.
  - by rewrite IH.
Qed.

Lemma rbreak_free c s : Str.contains c s = false -> Str.rbreak c s = None.
Proof.
  induction s as [|a s IH]; simpl; [done |].
  destruct (Ascii.eqb a c); [done |]. intros H. by rewrite IH.
Qed.

Lemma startswith_app pre s : Str.startswith pre (pre +:+ s) = true.
Proof.
  induction pre as [|a pre IH]; simpl; [done |].
  by rewrite Ascii.eqb_refl, IH.
Qed.

Lemma nonempty_true s : Str.nonempty s = true <-> s <> "".
Proof. by destruct s. Qed.

Lemma nonempty_false s : Str.nonempty s = false <-> s = "".
Proof. by destruct s. Qed.

End StrFacts.

Section CharFacts.

Lemma scheme_char_not_colon a :
  Url.is_scheme_char a = true -> Ascii.eqb ":" a = false.
Proof. by_cases a. Qed.

Lemma scheme_char_safe a :
  Url.is_scheme_char a = true -> Url.is_unsafe a = false.
Proof. by_cases a. Qed.

Lemma alpha_not_space a :
  Str.is_ascii_alpha a = true -> Url.is_c0_control_or_space a = false.
Proof. by_cases a. Qed.

Lemma lower_char_idem a : Str.lower_char (Str.lower_char a) = Str.lower_char a.
Proof. by_cases a. Qed.

Lemma lower_char_scheme a :
  Url.is_scheme_char a = true -> Url.is_scheme_char (Str.lower_char a) = true.
Proof. by_cases a. Qed.

Lemma lower_char_alpha a :
  Str.is_ascii_alpha a = true -> Str.is_ascii_alpha (Str.lower_char a) = true.
Proof. by_cases a. Qed.

Lemma netloc_delim_cases a :
  Url.is_netloc_delim a = true -> UrlInv.is_query_delim a = false -> a = "/"%char.
Proof. by_cases a. Qed.

End CharFacts.

Section UrlFacts.
Implicit Types (s t b r url : string) (a c : ascii) (p : ascii -> bool).

Lemma all_any_false p q s :
  (forall a, q a = true -> p a = false) ->
  Str.all q s = true -> Str.any p s = false.
Proof.
  intros E. induction s as [|a s IH]; simpl; [done |].
  intros [Ha Hs]%andb_prop. by rewrite (E a Ha), IH.
Qed.

Lemma all_map q f s :
  (forall a, q a = true -> q (f a) = true) ->
  Str.all q s = true -> Str.all q (Str.map f s) = true.
Proof.
  intros E. induction s as [|a s IH]; simpl; [done |].
  intros [Ha Hs]%andb_prop. by rewrite (E a Ha), IH.
Qed.

Lemma lower_idem s : Str.lower (Str.lower s) = Str.lower s.
Proof.
  unfold Str.lower. induction s as [|a s IH]; simpl; [done |].
  by rewrite lower_char_idem, IH.
Qed.

Lemma any_drop p n s : Str.any p s = false -> Str.any p (Str.drop n s) = false.
Proof.
  revert s. induction n as [|n IH]; intros [|a s]; simpl; try done.
  intros [_ Hs]%orb_false_elim. auto.
Qed.

Lemma first_in_app p s t : first_in p (s +:+ t) -> first_in p s.
Proof. by destruct s. Qed.

Lemma first_in_slash s :
  first_in Url.is_netloc_delim s -> Str.any is_query_delim s = false ->
  (if Str.nonempty s && negb (Str.startswith "/" s) then "/" +:+ s else s) = s.
Proof.
  destruct s as [|a s]; simpl; [done |].
  intros Ha [Hq _]%orb_false_elim.
  rewrite (netloc_delim_cases a Ha Hq). by simpl.
Qed.

(** *** [split_once] *)

Lemma split_once_eq c s b r :
  Url.split_once c s = (b, r) ->
  Str.contains c b = false /\
  (s = b +:+ String c r \/ (s = b /\ r = "")).
Proof.
  unfold Url.split_once.
  destruct (Str.break (Ascii.eqb c) s) as [b' r'] eqn:E.
  apply break_eq in E as (-> & Hb & Hr).
  destruct r' as [|a r'].
  - intros [= <- <-]. rewrite sapp_nil_r in *. rewrite contains_any. auto.
  - intros [= <- <-]. rewrite contains_any. split; [done |]. left.
    destruct Hr as [|(a' & r'' & [= <- <-] & Ha)]; [done |].
    by apply Ascii.eqb_eq in Ha as <-.
Qed.

Lemma split_once_app c b r :
  Str.contains c b = false -> Url.split_once c (b +:+ String c r) = (b, r).
Proof.
  intros Hb. unfold Url.split_once. rewrite break_app; [done | |].
  - by rewrite <-contains_any.
  - right. exists c, r. by rewrite Ascii.eqb_refl.
Qed.

Lemma split_once_free c s :
  Str.contains c s = false -> Url.split_once c s = (s, "").
Proof.
  intros Hs. unfold Url.split_once. rewrite break_free; [done |].
  by rewrite <-contains_any.
Qed.

(** *** The scheme *)

Lemma scheme_valid_lower a0 b :
  Str.is_ascii_alpha a0 = true ->
  Str.all Url.is_scheme_char (String a0 b) = true ->
  scheme_valid (Str.lower (String a0 b)).
Proof.
  intros Ha Hall. exists (Str.lower_char a0), (Str.lower b).
  split_and!; [done | by apply lower_char_alpha | | apply lower_idem].
  apply all_map; [apply lower_char_scheme | done].
Qed.

Lemma split_scheme_eq url sch rest :
  Url.split_scheme url = (sch, rest) ->
  (sch = "" /\ rest = url) \/
  (scheme_valid sch /\ exists pre, url = pre +:+ String ":" rest).
Proof.
  unfold Url.split_scheme.
  destruct (Str.break (Ascii.eqb ":") url) as [b r] eqn:E.
  apply break_eq in E as (-> & Hb & Hr).
  destruct b as [|a0 b]; [intros [= <- <-]; auto |].
  destruct r as [|x r]; [intros [= <- <-]; auto |].
  destruct (Str.is_ascii_alpha a0 && Str.all Url.is_scheme_char (String a0 b))
    eqn:Hc; [|intros [= <- <-]; auto].
  apply andb_prop in Hc as [Ha Hall]. intros [= <- <-]. right.
  split; [by apply scheme_valid_lower |].
  destruct Hr as [|(a' & r'' & [= <- <-] & Hx)]; [done |].
  apply Ascii.eqb_eq in Hx as <-. by exists (String a0 b).
Qed.

Lemma split_scheme_valid sch rest :
  scheme_valid sch -> Url.split_scheme (sch +:+ String ":" rest) = (sch, rest).
Proof.
  intros (a0 & b & -> & Ha & Hall & Hlow). unfold Url.split_scheme.
  rewrite break_app.
  - by rewrite Ha, Hall, Hlow.
  - eapply all_any_false; [apply scheme_char_not_colon | done].
  - right. by exists ":"%char, rest.
Qed.

Lemma split_scheme_slashes rest :
  Url.split_scheme ("//" +:+ rest) = ("", "//" +:+ rest).
Proof.
  unfold Url.split_scheme. simpl.
  destruct (Str.break (Ascii.eqb ":") rest) as [b r]. by destruct r.
Qed.

(** *** The parameters *)

Lemma break_semicolon_found s :
  Str.contains ";" s = true ->
  exists b r, Str.break (Ascii.eqb ";") s = (b, String ";" r) /\
    s = b +:+ String ";" r /\ Str.contains ";" b = false.
Proof.
  intros Hs. destruct (Str.break (Ascii.eqb ";") s) as [b r] eqn:E.
  pose proof E as (-> & Hb & Hr)%break_eq.
  rewrite <-contains_any in Hb.
  destruct Hr as [->|(a & r' & -> & Ha)].
  - rewrite sapp_nil_r in Hs. congruence.
  - apply Ascii.eqb_eq in Ha as <-. eauto.
Qed.

Lemma params_roundtrip sch url path params :
  split_params_of sch url = (path, params) ->
  (exists tail, url = with_params path params +:+ tail) /\
  split_params_of sch (with_params path params) = (path, params).
Proof.
  unfold split_params_of.
  destruct (Url.in_list sch Url.uses_params) eqn:Hin; simpl;
    [|intros [= <- <-]; split; [by exists ""; rewrite sapp_nil_r | done]].
  destruct (Str.contains ";" url) eqn:Hsemi;
    [|intros [= <- <-]; unfold with_params; simpl;
      split; [by exists ""; rewrite sapp_nil_r | by rewrite Hsemi]].
  unfold Url._splitparams.
  destruct (Str.rbreak "/" url) as [[h t]|] eqn:Er.
  - apply rbreak_Some in Er as (-> & t' & -> & Ht').
    destruct (Str.break (Ascii.eqb ";") (String "/" t')) as [b r] eqn:Eb.
    pose proof Eb as (Et & Hb & Hr)%break_eq. rewrite <-contains_any in Hb.
    destruct r as [|x r].
    + intros [= <- <-]. unfold with_params; simpl.
      split; [by exists ""; rewrite sapp_nil_r |].
      rewrite Hsemi. unfold Url._splitparams.
      by rewrite rbreak_app, Eb.
    + destruct Hr as [|(x' & r' & [= <- <-] & Hx)]; [done |].
      apply Ascii.eqb_eq in Hx as <-. intros [= <- <-].
      destruct b as [|b0 b]; [done |]. simpl in Et. injection Et as <- Et.
      subst t'. unfold with_params. destruct r as [|r0 r]; simpl.
      * split; [exists ";"; by rewrite !sapp_assoc |].
        destruct (Str.contains ";" (h +:+ String "/" b)) eqn:Hs2; [|done].
        unfold Url._splitparams. rewrite rbreak_app.
        -- simpl in Hb. rewrite break_free; [done |].
           by rewrite <-contains_any.
        -- rewrite contains_any, any_app in Ht'.
           apply orb_false_elim in Ht' as [Ht' _]. by rewrite contains_any.
      * rewrite !sapp_assoc. simpl.
        split; [by exists ""; rewrite sapp_nil_r |].
        rewrite Hsemi. unfold Url._splitparams.
        rewrite rbreak_app by done. by rewrite Eb.
  - destruct (break_semicolon_found url Hsemi) as (b & r & Eb & -> & Hb).
    rewrite Eb. intros [= <- <-]. unfold with_params.
    destruct r as [|r0 r]; simpl.
    + split; [by exists ";" |]. by rewrite Hb.
    + split; [by exists ""; rewrite sapp_nil_r |].
      rewrite Hsemi. unfold Url._splitparams. by rewrite Er, Eb.
Qed.

End UrlFacts.

Section UrlParse.
Implicit Types (s t b r url : string) (a c : ascii) (p : ascii -> bool).

Lemma any_app_cons p s a t :
  Str.any p (s +:+ String a t) = false ->
  Str.any p s = false /\ p a = false /\ Str.any p t = false.
Proof.
  rewrite any_app. intros [? H]%orb_false_elim.
  change (p a || Str.any p t = false) in H.
  by apply orb_false_elim in H as [??].
Qed.

Lemma any_or p q1 q2 s :
  (forall a, p a = q1 a || q2 a) ->
  Str.any q1 s = false -> Str.any q2 s = false -> Str.any p s = false.
Proof.
  intros E. induction s as [|a s IH]; [done |].
  change (q1 a || Str.any q1 s = false -> q2 a || Str.any q2 s = false ->
          p a || Str.any p s = false).
  intros [H1 ?]%orb_false_elim [H2 ?]%orb_false_elim.
  by rewrite E, H1, H2, IH.
Qed.

Lemma urlparse_unfold url :
  Url.urlparse url =
  let '(scheme, netloc, u, query, fragment) := Url.urlsplit url in
  let '(path, params) := split_params_of scheme u in
  Url.mkParseResult scheme netloc path params query fragment.
Proof. reflexivity. Qed.

Lemma urlunparse_unfold q :
  Url.urlunparse q =
  Url.urlunsplit (Url.scheme q) (Url.netloc q)
    (with_params (Url.path q) (Url.params q)) (Url.query q) (Url.fragment q).
Proof. reflexivity. Qed.

(** What holds of the five components that [urlsplit] returns *)
Lemma urlsplit_ok url sch nl u q f :
  Url.urlsplit url = (sch, nl, u, q, f) ->
  (sch = "" \/ scheme_valid sch) /\
  Str.any Url.is_netloc_delim nl = false /\
  (nl <> "" -> first_in Url.is_netloc_delim u) /\
  Str.any is_query_delim u = false /\
  Str.contains "#" q = false /\
  Str.any Url.is_unsafe nl = false /\ Str.any Url.is_unsafe u = false /\
  Str.any Url.is_unsafe q = false /\ Str.any Url.is_unsafe f = false.
Proof.
  unfold Url.urlsplit.
  set (s1 := Str.remove Url.is_unsafe _).
  assert (H1 : Str.any Url.is_unsafe s1 = false) by apply any_remove.
  clearbody s1.
  destruct (Url.split_scheme s1) as [sch' s2] eqn:E2.
  assert (Hsch : (sch' = "" \/ scheme_valid sch') /\
                 Str.any Url.is_unsafe s2 = false).
  { apply split_scheme_eq in E2 as [[-> ->]|[Hv [pre ->]]]; [auto |].
    split; [auto |]. by apply any_app_cons in H1 as (_ & _ & ?). }
  destruct Hsch as [Hsch H2]. clear E2 H1 s1.
  set (nr := if Str.startswith "//" s2 then _ else _).
  assert (Hnr : Str.any Url.is_netloc_delim nr.1 = false /\
                (nr.1 <> "" -> first_in Url.is_netloc_delim nr.2) /\
                Str.any Url.is_unsafe nr.1 = false /\
                Str.any Url.is_unsafe nr.2 = false).
  { subst nr. destruct (Str.startswith "//" s2); [|done].
    unfold Url._splitnetloc2.
    destruct (Str.break Url.is_netloc_delim (Str.drop 2 s2)) as [b r] eqn:E.
    pose proof (any_drop Url.is_unsafe 2 s2 H2) as H3.
    apply break_eq in E as (E & Hb & Hr). rewrite E, any_app in H3.
    apply orb_false_elim in H3 as [??]. simpl. split_and!; try done.
    intros _. by destruct Hr as [->|(a & r' & -> & Ha)]. }
  destruct nr as [nl' s3]. simpl in Hnr. destruct Hnr as (Hnl & Hfirst & Hu1 & H3).
  destruct (Url.split_once "#" s3) as [s4 f'] eqn:E4.
  destruct (Url.split_once "?" s4) as [u' q'] eqn:E5.
  intros [= <- <- <- <- <-].
  apply split_once_eq in E4 as [Hh4 E4], E5 as [Hq5 E5].
  assert (Hs4 : (exists t, s3 = s4 +:+ t) /\ Str.any Url.is_unsafe s4 = false
                /\ Str.any Url.is_unsafe f' = false).
  { destruct E4 as [->|[-> ->]].
    - apply any_app_cons in H3 as (? & _ & ?). eauto.
    - split; [by exists ""; rewrite sapp_nil_r | auto]. }
  destruct Hs4 as ([t4 ->] & Hu4 & Huf).
  assert (Hs5 : (exists t, s4 = u' +:+ t) /\ Str.any Url.is_unsafe u' = false
                /\ Str.any Url.is_unsafe q' = false
                /\ Str.contains "#" u' = false /\ Str.contains "#" q' = false).
  { destruct E5 as [->|[-> ->]].
    - apply any_app_cons in Hu4 as (? & _ & ?).
      rewrite contains_any in Hh4. apply any_app_cons in Hh4 as (? & _ & ?).
      rewrite !contains_any. split_and!; eauto.
    - split; [by exists ""; rewrite sapp_nil_r | auto]. }
  destruct Hs5 as ([t5 ->] & Hu5 & Huq & Hh5 & Hhq).
  split_and!; try done.
  - intros Hne. specialize (Hfirst Hne).
    by apply first_in_app in Hfirst; apply first_in_app in Hfirst.
  - rewrite contains_any in Hq5, Hh5.
    eapply any_or; [|exact Hq5|exact Hh5].
    intros a. unfold is_query_delim.
    by rewrite (Ascii.eqb_sym a "?"), (Ascii.eqb_sym a "#").
Qed.

(** Every result of [urlparse] is well formed. *)
Lemma urlparse_ok url : parsed_ok (Url.urlparse url).
Proof.
  rewrite urlparse_unfold.
  destruct (Url.urlsplit url) as [[[[sch nl] u] q] f] eqn:E.
  apply urlsplit_ok in E as (Hs & Hnl & Hfirst & Hq & Hh & U1 & U2 & U3 & U4).
  destruct (split_params_of sch u) as [path params] eqn:Ep.
  apply params_roundtrip in Ep as [[tail ->] Ep].
  rewrite any_app in Hq, U2.
  apply orb_false_elim in Hq as [Hq _], U2 as [U2 _].
  split; simpl; try done.
  intros Hne. by eapply first_in_app, Hfirst.
Qed.

Lemma replace_dot_delim s :
  Str.any Url.is_netloc_delim (Str.replace "." "-" s) =
  Str.any Url.is_netloc_delim s.
Proof.
  unfold Str.replace. rewrite any_map. apply any_ext.
  intros a. destruct a as [[] [] [] [] [] [] [] []]; reflexivity.
Qed.

Lemma replace_dot_unsafe s :
  Str.any Url.is_unsafe (Str.replace "." "-" s) = Str.any Url.is_unsafe s.
Proof.
  unfold Str.replace. rewrite any_map. apply any_ext.
  intros a. destruct a as [[] [] [] [] [] [] [] []]; reflexivity.
Qed.

(** Rewriting the network location keeps the parse result well formed. *)
Lemma rewritten_ok pr :
  parsed_ok pr -> Url.netloc pr <> "" -> parsed_ok (with_proxy_netloc pr).
Proof.
  intros [H1 H2 H3 H4 H5 H6 H7 H8 H9 H10] Hne.
  split; simpl; try done.
  - by rewrite any_app, replace_dot_delim, H2.
  - auto.
  - by rewrite any_app, replace_dot_unsafe, H6.
Qed.

Lemma rewritten_netloc_nonempty pr : Url.netloc (with_proxy_netloc pr) <> "".
Proof. simpl. by destruct (Str.replace "." "-" (Url.netloc pr)). Qed.

Lemma urlunsplit_netloc sch nl u qu fr :
  nl <> "" -> first_in Url.is_netloc_delim u ->
  Str.any is_query_delim u = false ->
  Url.urlunsplit sch nl u qu fr =
  (if Str.nonempty sch then sch +:+ ":" else "") +:+ "//" +:+ nl +:+ u
  +:+ (if Str.nonempty qu then String "?" qu else "")
  +:+ (if Str.nonempty fr then String "#" fr else "").
Proof.
  intros Hne%nonempty_true H3 H4. unfold Url.urlunsplit.
  rewrite Hne. cbn [orb]. rewrite (first_in_slash u H3 H4).
  destruct (Str.nonempty sch), (Str.nonempty qu), (Str.nonempty fr);
    cbn [String.append]; rewrite ?sapp_assoc, ?sapp_nil_r; cbn [String.append];
    rewrite ?sapp_assoc, ?sapp_nil_r; reflexivity.
Qed.

Lemma query_delim_free u :
  Str.any is_query_delim u = false ->
  Str.contains "?" u = false /\ Str.contains "#" u = false.
Proof.
  intros H. rewrite !contains_any. split.
  - eapply any_weaken; [|exact H]. intros a Ha.
    apply Ascii.eqb_eq in Ha as <-. reflexivity.
  - eapply any_weaken; [|exact H]. intros a Ha.
    apply Ascii.eqb_eq in Ha as <-. reflexivity.
Qed.

(** [urlsplit] recovers the components from the string [urlunsplit] built. *)
Lemma urlsplit_joined sch nl u qu fr :
  sch = "" \/ scheme_valid sch ->
  nl <> "" ->
  Str.any Url.is_netloc_delim nl = false ->
  first_in Url.is_netloc_delim u ->
  Str.any is_query_delim u = false ->
  Str.contains "#" qu = false ->
  Str.any Url.is_unsafe nl = false -> Str.any Url.is_unsafe u = false ->
  Str.any Url.is_unsafe qu = false -> Str.any Url.is_unsafe fr = false ->
  Url.urlsplit
    ((if Str.nonempty sch then sch +:+ ":" else "") +:+ "//" +:+ nl +:+ u
     +:+ (if Str.nonempty qu then String "?" qu else "")
     +:+ (if Str.nonempty fr then String "#" fr else ""))
  = (sch, nl, u, qu, fr).
Proof.
  intros Hsch Hne Hnl Hfirst Hq Hqu U1 U2 U3 U4.
  destruct (query_delim_free u Hq) as [Hu1 Hu2].
  set (Q := if Str.nonempty qu then String "?" qu else "").
  set (F := if Str.nonempty fr then String "#" fr else "").
  set (rest := u +:+ Q +:+ F).
  assert (HQ : Str.any Url.is_unsafe Q = false) by (subst Q; by destruct qu).
  assert (HF : Str.any Url.is_unsafe F = false) by (subst F; by destruct fr).
  assert (Hrest : Str.any Url.is_unsafe ("//" +:+ nl +:+ rest) = false).
  { subst rest. change ("//" +:+ ?x) with (String "/" (String "/" x)).
    cbn [Str.any]. rewrite !any_app, U1, U2, HQ, HF. reflexivity. }
  assert (Hsplit :
    Url.split_scheme
      ((if Str.nonempty sch then sch +:+ ":" else "") +:+ "//" +:+ nl +:+ rest)
    = (sch, "//" +:+ nl +:+ rest)).
  { destruct Hsch as [->|Hv]; [apply split_scheme_slashes |].
    pose proof Hv as (a0 & b & -> & _). cbn [Str.nonempty].
    rewrite sapp_assoc. by apply split_scheme_valid. }
  unfold Url.urlsplit.
  assert (Hstrip :
    Str.lstrip Url.is_c0_control_or_space
      ((if Str.nonempty sch then sch +:+ ":" else "") +:+ "//" +:+ nl +:+ rest)
    = (if Str.nonempty sch then sch +:+ ":" else "") +:+ "//" +:+ nl +:+ rest).
  { destruct Hsch as [->|(a0 & b & -> & Ha & _)]; [reflexivity |].
    cbn. by rewrite (alpha_not_space a0 Ha). }
  fold Q F rest. rewrite Hstrip, remove_free.
  2:{ rewrite any_app, Hrest, orb_false_r.
      destruct Hsch as [->|(a0 & b & E & _ & Hall & _)]; [done |].
      assert (Hs : Str.any Url.is_unsafe sch = false)
        by (eapply all_any_false; [apply scheme_char_safe | done]).
      replace (Str.nonempty sch) with true by (by rewrite E).
      by rewrite any_app, Hs. }
  rewrite Hsplit. rewrite startswith_app.
  unfold Url._splitnetloc2. change (Str.drop 2 ("//" +:+ ?x)) with x.
  rewrite break_app; [|done|].
  2:{ subst rest Q F. clear -Hfirst.
      destruct u as [|a u];
        [|right; do 2 eexists; split; [reflexivity | exact Hfirst]].
      destruct qu; [|right; do 2 eexists; split; reflexivity].
      destruct fr; [by left | right; do 2 eexists; split; reflexivity]. }
  subst rest.
  assert (E4 : Url.split_once "#" (u +:+ Q +:+ F) = (u +:+ Q, fr)).
  { subst F. destruct fr; cbn [Str.nonempty].
    - rewrite sapp_nil_r. apply split_once_free.
      rewrite contains_any, any_app, <-!contains_any, Hu2. subst Q.
      destruct qu; [done |]. change (Str.contains "#" (String "?" ?x))
        with (Str.contains "#" x). done.
    - rewrite <-sapp_assoc. apply split_once_app.
      rewrite contains_any, any_app, <-!contains_any, Hu2. subst Q.
      destruct qu; [done |]. change (Str.contains "#" (String "?" ?x))
        with (Str.contains "#" x). done. }
  rewrite E4.
  assert (E5 : Url.split_once "?" (u +:+ Q) = (u, qu)).
  { subst Q. destruct qu; cbn [Str.nonempty].
    - rewrite sapp_nil_r. by apply split_once_free.
    - by apply split_once_app. }
  by rewrite E5.
Qed.

(** [urlparse] undoes [urlunparse] on a well-formed parse result with a
    network location. *)
Lemma urlparse_urlunparse q :
  parsed_ok q -> Url.netloc q <> "" -> Url.urlparse (Url.urlunparse q) = q.
Proof.
  intros [H1 H2 H3 H4 H5 H6 H7 H8 H9 H10] Hne.
  rewrite urlparse_unfold, urlunparse_unfold.
  rewrite urlunsplit_netloc, urlsplit_joined by auto.
  rewrite H10. by destruct q.
Qed.

End UrlParse.

Section Hostname.
Implicit Types (s t b r url : string) (a c : ascii).

Lemma contains_app c s t :
  Str.contains c (s +:+ t) = Str.contains c s || Str.contains c t.
Proof. by rewrite !contains_any, any_app. Qed.

Lemma contains_map c f s :
  (forall a, Ascii.eqb (f a) c = Ascii.eqb a c) ->
  Str.contains c (Str.map f s) = Str.contains c s.
Proof.
  intros E. induction s as [|a s IH]; [done |].
  cbn [Str.map Str.contains]. by rewrite E, IH.
Qed.

Lemma partition_app c b r :
  Str.contains c b = false ->
  Str.partition c (b +:+ String c r) = (b, true, r).
Proof.
  intros Hb. unfold Str.partition. rewrite break_app; [done | |].
  - by rewrite <-contains_any.
  - right. exists c, r. by rewrite Ascii.eqb_refl.
Qed.

Lemma partition_free c s :
  Str.contains c s = false -> Str.partition c s = (s, false, "").
Proof.
  intros Hs. unfold Str.partition. rewrite break_free; [done |].
  by rewrite <-contains_any.
Qed.

Lemma partition_found c s :
  Str.contains c s = true ->
  exists b r, s = b +:+ String c r /\ Str.contains c b = false.
Proof.
  intros Hs. destruct (Str.break (Ascii.eqb c) s) as [b r] eqn:E.
  apply break_eq in E as (-> & Hb & Hr). rewrite <-contains_any in Hb.
  destruct Hr as [->|(a & r' & -> & Ha)].
  - rewrite sapp_nil_r in Hs. congruence.
  - apply Ascii.eqb_eq in Ha as <-. eauto.
Qed.

Lemma after_last_map_app c f s t :
  (forall a, Ascii.eqb (f a) c = Ascii.eqb a c) ->
  Str.contains c t = false ->
  Str.after_last c (Str.map f s +:+ t) = Str.map f (Str.after_last c s) +:+ t.
Proof.
  intros E Ht. unfold Str.after_last.
  assert (Ec : f c = c) by (apply Ascii.eqb_eq; by rewrite E, Ascii.eqb_refl).
  destruct (Str.rbreak c s) as [[h u]|] eqn:Er.
  - apply rbreak_Some in Er as (-> & u' & -> & Hu').
    rewrite smap_app. cbn [Str.map]. rewrite Ec, sapp_assoc.
    cbn [String.append]. rewrite rbreak_app; [done |].
    by rewrite contains_app, contains_map, Hu', Ht.
  - apply rbreak_None in Er. rewrite rbreak_free; [done |].
    by rewrite contains_app, contains_map, Er, Ht.
Qed.

Lemma replace_dot_map s : Str.replace "." "-" s = Str.map dot_to_dash s.
Proof. reflexivity. Qed.

Lemma dot_to_dash_at a : Ascii.eqb (dot_to_dash a) "@" = Ascii.eqb a "@".
Proof. by_cases a. Qed.
Lemma dot_to_dash_colon a : Ascii.eqb (dot_to_dash a) ":" = Ascii.eqb a ":".
Proof. by_cases a. Qed.
Lemma dot_to_dash_bracket a : Ascii.eqb (dot_to_dash a) "[" = Ascii.eqb a "[".
Proof. by_cases a. Qed.
Lemma dot_to_dash_percent a : Ascii.eqb (dot_to_dash a) "%" = Ascii.eqb a "%".
Proof. by_cases a. Qed.
Lemma dot_to_dash_lower a :
  Str.lower_char (dot_to_dash a) = dot_to_dash (Str.lower_char a).
Proof. by_cases a. Qed.

Lemma lower_replace_dot s :
  Str.lower (Str.replace "." "-" s) = Str.replace "." "-" (Str.lower s).
Proof.
  rewrite !replace_dot_map. unfold Str.lower.
  induction s as [|a s IH]; [done |].
  cbn [Str.map]. by rewrite dot_to_dash_lower, IH.
Qed.

(** The host name of a bare host part is the host part itself, lower-cased
    in front of a zone separator. *)
Lemma hostname_bare pr :
  bare_host (Url.netloc pr) ->
  Url.hostname pr =
  let hi := hostinfo (Url.netloc pr) in
  if Str.nonempty hi then
    let '(h0, percent, zone) := Str.partition "%" hi in
    Some (Str.lower h0 +:+ (if percent then "%" else "") +:+ zone)
  else None.
Proof.
  intros [Hc Hb]. unfold Url.hostname, Url._hostinfo_hostname.
  fold (hostinfo (Url.netloc pr)).
  by rewrite (partition_free "[" _ Hb), (partition_free ":" _ Hc).
Qed.

Lemma hostinfo_rewritten nl :
  hostinfo (Str.replace "." "-" nl +:+ hku_suffix)
  = Str.replace "." "-" (hostinfo nl) +:+ hku_suffix.
Proof.
  unfold hostinfo. rewrite !replace_dot_map.
  apply after_last_map_app; [apply dot_to_dash_at | reflexivity].
Qed.

Lemma bare_host_rewritten nl :
  bare_host nl -> bare_host (Str.replace "." "-" nl +:+ hku_suffix).
Proof.
  intros [Hc Hb]. unfold bare_host. rewrite hostinfo_rewritten, !contains_app.
  rewrite !replace_dot_map, !contains_map
    by (apply dot_to_dash_colon || apply dot_to_dash_bracket).
  by rewrite Hc, Hb.
Qed.

(** On a bare host part the host name is rewritten as the network location
    is. *)
Lemma hostname_rewritten_bare pr h :
  bare_host (Url.netloc pr) ->
  Url.hostname pr = Some h ->
  Url.hostname (with_proxy_netloc pr) = Some (Str.replace "." "-" h +:+ hku_suffix).
Proof.
  intros Hbare. rewrite (hostname_bare pr Hbare).
  rewrite (hostname_bare (with_proxy_netloc pr)) by by apply bare_host_rewritten.
  cbn [with_proxy_netloc Url.netloc]. rewrite hostinfo_rewritten. cbv zeta.
  set (hi := hostinfo (Url.netloc pr)).
  destruct (Str.nonempty hi) eqn:Hne; [|done].
  replace (Str.nonempty (Str.replace "." "-" hi +:+ hku_suffix)) with true
    by (by destruct (Str.replace "." "-" hi)).
  destruct (Str.contains "%" hi) eqn:Hp.
  - destruct (partition_found _ _ Hp) as (h0 & zone & E & Hh0).
    rewrite E, (partition_app _ _ _ Hh0). intros [= <-].
    rewrite !replace_dot_map, !smap_app. cbn [Str.map].
    rewrite sapp_assoc. cbn [String.append]. rewrite partition_app
      by (by rewrite contains_map by apply dot_to_dash_percent).
    rewrite <-!replace_dot_map, lower_replace_dot.
    by rewrite sapp_assoc.
  - rewrite (partition_free _ _ Hp). intros [= <-].
    rewrite partition_free
      by (by rewrite contains_app, replace_dot_map, contains_map, Hp
            by apply dot_to_dash_percent).
    cbn [String.append]. rewrite !sapp_nil_r.
    unfold Str.lower. rewrite smap_app. fold (Str.lower (Str.replace "." "-" hi)).
    by rewrite lower_replace_dot.
Qed.

End Hostname.

(** * Facts about runs *)

Section Runs.
Context (w : World) (driver : Selenium.WebDriver) (wait_time : Z)
  (proxy : ProxyArg).

Lemma bind_returned {A B} (m : M A) (k : A -> M B) tr a tr' :
  m tr = (Returned a, tr') -> bind m k tr = k a tr'.
Proof. unfold bind. by intros ->. Qed.

Lemma bind_raised {A B} (m : M A) (k : A -> M B) tr e tr' :
  m tr = (Raised e, tr') -> bind m k tr = (Raised e, tr').
Proof. unfold bind. by intros ->. Qed.

Lemma clock_app tr1 tr2 : clock (tr1 ++ tr2) = clock tr1 + clock tr2.
Proof.
  induction tr1 as [|e tr1 IH]; [done |].
  destruct e; simpl; rewrite ?IH; lia.
Qed.

(** *** [doi_to_url] *)

Lemma doi_to_url_run doi tr :
  exists url publisher,
    doi_to_url w doi tr =
    (Returned (url, publisher), tr ++ [EvRequestsGet (resolver_url doi)]).
Proof.
  unfold doi_to_url, resolver_url.
  destruct (fetch w _ tr) as [[text [r|]|text]|final_url]; simpl; eauto.
Qed.

(** *** [_wait_for_page_load] *)

Lemma wait_loop_run fuel end_ tr :
  exists ready evs,
    wait_loop fuel driver end_ tr = (Returned ready, tr ++ evs) /\
    Forall (fun e => is_poll e = true) evs.
Proof.
  revert tr. induction fuel as [|fuel IH]; intros tr; simpl.
  - exists false, []. by rewrite app_nil_r.
  - destruct (clock tr <? end_); [|exists false, []; by rewrite app_nil_r].
    set (tr1 := tr ++ [EvExecuteScript _]).
    assert (Hnext : exists ready evs,
      (time_sleep 500 ;;; wait_loop fuel driver end_) tr1
      = (Returned ready, tr ++ evs) /\ Forall (fun e => is_poll e = true) evs).
    { unfold bind, time_sleep.
      destruct (IH (tr1 ++ [EvSleep 500])) as (ready & evs & -> & Hevs).
      exists ready, (EvExecuteScript "return document.readyState"
                     :: EvSleep 500 :: evs).
      subst tr1. rewrite <-!app_assoc. split; [done |].
      by repeat constructor. }
    destruct (Selenium.execute_script driver tr _) as [state|e]; [|done].
    destruct (String.eqb state "complete"); [|done].
    exists true, [EvExecuteScript "return document.readyState"].
    split; [done | by repeat constructor].
Qed.

(** More fuel than rounds left does not change the result: the loop ends
    on its clock. *)
Lemma wait_loop_fuel fuel1 fuel2 end_ tr :
  end_ - clock tr <= 500 * Z.of_nat fuel1 ->
  (0 < fuel1)%nat -> (fuel1 <= fuel2)%nat ->
  wait_loop fuel2 driver end_ tr = wait_loop fuel1 driver end_ tr.
Proof.
  revert fuel2 tr. induction fuel1 as [|fuel1 IH]; intros fuel2 tr Hc Hpos Hle;
    [lia |].
  destruct fuel2 as [|fuel2]; [lia |]. simpl.
  destruct (clock tr <? end_) eqn:Hlt; [|done].
  apply Z.ltb_lt in Hlt.
  set (tr1 := tr ++ [EvExecuteScript _]).
  assert (Hnext :
    (time_sleep 500 ;;; wait_loop fuel2 driver end_) tr1
    = (time_sleep 500 ;;; wait_loop fuel1 driver end_) tr1).
  { unfold bind, time_sleep.
    assert (Hclock : clock (tr1 ++ [EvSleep 500]) = clock tr + 500).
    { subst tr1. rewrite !clock_app. simpl. lia. }
    destruct fuel1 as [|fuel1].
    - (* the clock has reached the end *)
      destruct fuel2 as [|fuel2]; [done |]. simpl.
      rewrite Hclock.
      destruct (clock tr + 500 <? end_) eqn:Hlt2; [|done].
      apply Z.ltb_lt in Hlt2. lia.
    - apply IH; [rewrite Hclock; lia | lia | lia]. }
  destruct (Selenium.execute_script driver tr _) as [state|e]; [|done].
  by destruct (String.eqb state "complete").
Qed.

Lemma _wait_for_page_load_run timeout tr :
  exists ready evs,
    _wait_for_page_load driver timeout tr
    = (Returned ready, tr ++ EvWaitForPageLoad timeout :: evs) /\
    Forall (fun e => is_poll e = true) evs.
Proof.
  unfold _wait_for_page_load.
  destruct (wait_loop_run (S (Z.to_nat (2 * timeout)))
              (clock (tr ++ [EvWaitForPageLoad timeout]) + 1000 * timeout)
              (tr ++ [EvWaitForPageLoad timeout]))
    as (ready & evs & -> & Hevs).
  exists ready, evs. by rewrite <-app_assoc.
Qed.

(** The fuel that [_wait_for_page_load] passes is enough: any larger
    amount gives the same result. *)
Lemma _wait_for_page_load_fuel timeout tr fuel :
  (S (Z.to_nat (2 * timeout)) <= fuel)%nat ->
  let tr0 := tr ++ [EvWaitForPageLoad timeout] in
  wait_loop fuel driver (clock tr0 + 1000 * timeout) tr0
  = _wait_for_page_load driver timeout tr.
Proof.
  intros Hle tr0. unfold _wait_for_page_load. fold tr0.
  apply wait_loop_fuel; [|lia|done]. lia.
Qed.

(** *** [await_page] *)

Lemma await_page_first tr :
  await_page driver wait_time true tr = (Returned false, tr ++ [EvSleep 20000]).
Proof. reflexivity. Qed.

Lemma await_page_later tr :
  exists evs,
    await_page driver wait_time false tr
    = (Returned false, tr ++ EvWaitForPageLoad wait_time :: evs) /\
    Forall (fun e => is_poll e = true) evs.
Proof.
  unfold await_page, bind.
  destruct (_wait_for_page_load_run wait_time tr) as (ready & evs & -> & Hevs).
  eauto.
Qed.

(** *** [select_proxy] *)

Lemma select_proxy_run url tr :
  (exists proxied, select_proxy proxy url tr = (Returned proxied, tr)) \/
  (exists f, proxy = ProxyCallable f /\
     select_proxy proxy url tr = (f tr url, tr ++ [EvProxyCall url])).
Proof.
  destruct proxy as [|s|f|]; simpl; eauto.
  destruct (String.eqb s "hku"); [eauto |].
  destruct (String.eqb s "none"); eauto.
Qed.

End Runs.

Section Rounds.
Context (w : World) (driver : Selenium.WebDriver) (wait_time : Z)
  (proxy : ProxyArg).

(** *** The publisher switch *)

Lemma publisher_switch_acs info actions tr :
  info !! "actions" = Some (VList actions) ->
  let find := Selenium.find_element driver tr Selenium.CLASS_NAME pdf_class in
  let tr1 := tr ++ [EvFindElement Selenium.CLASS_NAME pdf_class (ok_of find)] in
  publisher_switch driver "ACS" info tr =
  match find with
  | Raised e => (Returned (click_failed info e), tr1)
  | Returned pdf_button =>
      match Selenium.click pdf_button tr1 with
      | Raised e => (Returned (click_failed info e), tr1 ++ [EvClick false])
      | Returned _ =>
          (Returned (clicked info actions), tr1 ++ [EvClick true; EvSleep 3000])
      end
  end.
Proof.
  intros Hact find tr1. subst tr1 find. unfold publisher_switch.
  rewrite String.eqb_refl.
  unfold try_except, click_pdf, bind, call. cbv zeta.
  destruct (Selenium.find_element driver tr Selenium.CLASS_NAME pdf_class)
    as [pdf_button|e]; simpl ok_of; [|done].
  destruct (Selenium.click pdf_button _) as [[]|e]; simpl ok_of; [|done].
  unfold dict_list_append. rewrite Hact. unfold ret, time_sleep.
  by rewrite <-app_assoc.
Qed.

Lemma publisher_switch_other publisher info tr :
  publisher <> "ACS" ->
  publisher_switch driver publisher info tr =
  (Returned (<["status" := VStr "no_action_for_publisher"]> info), tr).
Proof.
  intros Hne. unfold publisher_switch.
  destruct (String.eqb publisher "ACS") eqn:E;
    [by apply String.eqb_eq in E |].
  by destruct (String.eqb publisher "Elsevier").
Qed.

(** *** The rounds of the loop, case by case *)

Lemma process_doi_resolve_failed st doi tr url publisher tr1 :
  doi_to_url w doi tr = (Returned (url, publisher), tr1) ->
  Str.startswith "Error" url = true ->
  process_doi w driver wait_time proxy st doi tr =
  (Returned
     (mkLoopState
        (<[doi := <["actions" := VList []]>
                    (<["status" := VStr "resolve_failed"]>
                       (info_resolved doi url publisher))]> (results st))
        (first_visit st)),
   tr1).
Proof.
  intros Hres Herr. unfold process_doi.
  rewrite (bind_returned _ _ _ _ _ Hres). by rewrite Herr.
Qed.

Lemma process_doi_proxy_error st doi tr url publisher tr1 e tr2 :
  doi_to_url w doi tr = (Returned (url, publisher), tr1) ->
  Str.startswith "Error" url = false ->
  select_proxy proxy url tr1 = (Raised e, tr2) ->
  process_doi w driver wait_time proxy st doi tr =
  (Returned
     (mkLoopState
        (<[doi := <["actions" := VList []]>
                    (<["error" := VStr ("proxy function error: " +:+ exc_str e)]>
                       (<["status" := VStr "proxy_error"]>
                          (info_resolved doi url publisher)))]> (results st))
        (first_visit st)),
   tr2).
Proof.
  intros Hres Herr Hsel. unfold process_doi.
  rewrite (bind_returned _ _ _ _ _ Hres). rewrite Herr.
  unfold bind at 1. unfold attempt. by rewrite Hsel.
Qed.

Lemma process_doi_navigation_error st doi tr url publisher tr1 proxied tr2 e :
  doi_to_url w doi tr = (Returned (url, publisher), tr1) ->
  Str.startswith "Error" url = false ->
  select_proxy proxy url tr1 = (Returned proxied, tr2) ->
  Selenium.get driver tr2 proxied = Raised e ->
  process_doi w driver wait_time proxy st doi tr =
  (Returned
     (mkLoopState
        (<[doi := <["error" := VStr (exc_str e)]>
                    (<["status" := VStr "navigation_error"]>
                       (info_proxied doi url publisher proxied))]> (results st))
        (first_visit st)),
   tr2 ++ [EvDriverGet proxied false]).
Proof.
  intros Hres Herr Hsel Hget. unfold process_doi.
  rewrite (bind_returned _ _ _ _ _ Hres). rewrite Herr.
  unfold bind at 1. unfold attempt. rewrite Hsel.
  unfold bind, try_except, visit, bind, call. by rewrite Hget.
Qed.

Lemma process_doi_visited st doi tr url publisher tr1 proxied tr2 :
  doi_to_url w doi tr = (Returned (url, publisher), tr1) ->
  Str.startswith "Error" url = false ->
  select_proxy proxy url tr1 = (Returned proxied, tr2) ->
  Selenium.get driver tr2 proxied = Returned tt ->
  forall tr3 info tr4,
  await_page driver wait_time (first_visit st)
    (tr2 ++ [EvDriverGet proxied true]) = (Returned false, tr3) ->
  publisher_switch driver publisher (info_proxied doi url publisher proxied) tr3
    = (Returned info, tr4) ->
  process_doi w driver wait_time proxy st doi tr =
  (Returned (mkLoopState (<[doi := info]> (results st)) false), tr4).
Proof.
  intros Hres Herr Hsel Hget tr3 info tr4 Hawait Hswitch. unfold process_doi.
  rewrite (bind_returned _ _ _ _ _ Hres). rewrite Herr.
  unfold bind at 1. unfold attempt. rewrite Hsel.
  unfold bind at 1. unfold try_except, visit.
  unfold bind at 1. unfold call. rewrite Hget. simpl ok_of.
  rewrite (bind_returned _ _ _ _ _ Hawait).
  fold (info_resolved doi url publisher).
  fold (info_proxied doi url publisher proxied).
  by rewrite (bind_returned _ _ _ _ _ Hswitch).
Qed.

End Rounds.

Section Shapes.
Context (wait_time : Z).

Lemma quiet_not_pause e : is_quiet e = true -> is_login_pause e = false.
Proof.
  unfold is_quiet. intros [[_ H]%andb_prop _]%andb_prop.
  by apply negb_true_iff in H.
Qed.

Lemma quiet_not_arrival e : is_quiet e = true -> is_arrival e = false.
Proof.
  unfold is_quiet. intros [[H _]%andb_prop _]%andb_prop.
  by apply negb_true_iff in H.
Qed.

Lemma poll_not_pause e : is_poll e = true -> is_login_pause e = false.
Proof.
  destruct e; simpl; try done. intros H%Z.eqb_eq. by subst.
Qed.

Lemma poll_not_arrival e : is_poll e = true -> is_arrival e = false.
Proof. by destruct e. Qed.

Lemma switch_not_pause e : is_switch_event e = true -> is_login_pause e = false.
Proof.
  destruct e; simpl; try done. intros H%Z.eqb_eq. by subst.
Qed.

Lemma switch_not_arrival e : is_switch_event e = true -> is_arrival e = false.
Proof. by destruct e. Qed.

Lemma switch_not_request e : is_switch_event e = true -> is_request e = false.
Proof. by destruct e. Qed.

Lemma poll_not_request e : is_poll e = true -> is_request e = false.
Proof. by destruct e. Qed.

Lemma arrivals_wait_none evs :
  Forall (fun e => is_arrival e = false) evs ->
  arrivals_wait wait_time evs = true.
Proof.
  induction 1 as [|e evs He _ IH]; [done |].
  destruct e; simpl in *; try done. by subst.
Qed.

Lemma arrivals_wait_app evs1 evs2 :
  arrivals_wait wait_time evs1 = true ->
  arrivals_wait wait_time evs2 = true ->
  arrivals_wait wait_time (evs1 ++ evs2) = true.
Proof.
  intros H1 H2. induction evs1 as [|e evs1 IH]; [done |].
  destruct e as [?|?|? ok|?|? ? ?|?|?|?|]; simpl in *; auto.
  destruct ok; [|auto].
  destruct evs1 as [|[] evs1]; try done.
  apply andb_prop in H1 as [Ht H1]. simpl. rewrite Ht. simpl.
  by apply IH.
Qed.

Lemma arrivals_wait_at evs1 url evs2 :
  arrivals_wait wait_time (evs1 ++ EvDriverGet url true :: evs2) = true ->
  exists evs2', evs2 = EvWaitForPageLoad wait_time :: evs2'.
Proof.
  induction evs1 as [|e evs1 IH]; simpl.
  - destruct evs2 as [|[] evs2]; try done.
    intros [Ht _]%andb_prop. apply Z.eqb_eq in Ht as ->. eauto.
  - destruct e as [?|?|? ok|?|? ? ?|?|?|?|]; auto. destruct ok; [|auto].
    destruct evs1 as [|[] evs1]; simpl; try done.
    intros [_ H]%andb_prop. by apply IH.
Qed.

Lemma later_ok_quiet evs :
  Forall (fun e => is_quiet e = true) evs -> later_ok wait_time evs.
Proof.
  intros H. split.
  - eapply Forall_impl; [exact H | apply quiet_not_pause].
  - apply arrivals_wait_none.
    eapply Forall_impl; [exact H | apply quiet_not_arrival].
Qed.

Lemma later_ok_app evs1 evs2 :
  later_ok wait_time evs1 -> later_ok wait_time evs2 ->
  later_ok wait_time (evs1 ++ evs2).
Proof.
  intros [P1 A1] [P2 A2]. split.
  - by apply Forall_app.
  - by apply arrivals_wait_app.
Qed.

(** A round extends the shape of the batch. *)
Lemma batch_shape_round before after evs revs :
  batch_shape wait_time before evs ->
  round_shape wait_time before after revs ->
  batch_shape wait_time after (evs ++ revs).
Proof.
  intros Hb [[-> Hq]|[(-> & -> & Hr)|(-> & -> & Hl)]].
  - destruct before; simpl in *.
    + by apply Forall_app.
    + destruct Hb as (pre & url & post & -> & Hpre & Hpost).
      exists pre, url, (post ++ revs). split_and!; [|done|].
      * by rewrite <-app_assoc.
      * by apply later_ok_app, later_ok_quiet.
  - simpl in *. destruct Hr as (pre & url & post & -> & Hpre & Hpost).
    exists (evs ++ pre), url, post. split_and!; [|by apply Forall_app|done].
    by rewrite <-app_assoc.
  - simpl in *. destruct Hb as (pre & url & post & -> & Hpre & Hpost).
    exists pre, url, (post ++ revs). split_and!; [|done|].
    + by rewrite <-app_assoc.
    + by apply later_ok_app.
Qed.

Lemma requests_of_app tr1 tr2 :
  requests_of (tr1 ++ tr2) = requests_of tr1 ++ requests_of tr2.
Proof.
  induction tr1 as [|e tr1 IH]; [done |].
  destruct e; simpl; by rewrite ?IH.
Qed.

Lemma requests_of_none evs :
  Forall (fun e => is_request e = false) evs -> requests_of evs = [].
Proof.
  induction 1 as [|e evs He _ IH]; [done |]. by destruct e.
Qed.

Lemma pauses_app tr1 tr2 : pauses (tr1 ++ tr2) = (pauses tr1 + pauses tr2)%nat.
Proof. induction tr1 as [|e tr1 IH]; simpl; [done | rewrite IH; lia]. Qed.

Lemma pauses_none evs :
  Forall (fun e => is_login_pause e = false) evs -> pauses evs = 0%nat.
Proof.
  induction 1 as [|e evs He _ IH]; [done |]. simpl. by rewrite He, IH.
Qed.

End Shapes.

Section Batch.
Context (w : World) (driver : Selenium.WebDriver) (wait_time : Z)
  (proxy : ProxyArg).

Lemma finished_resolve_failed doi url publisher :
  finished doi (<["actions" := VList []]>
                  (<["status" := VStr "resolve_failed"]>
                     (info_resolved doi url publisher))).
Proof.
  unfold finished, info_resolved. split_and!; [done | by eexists..|].
  exists "resolve_failed". split_and!; [done | in_vocabulary |].
  intros H. not_in_list H.
Qed.

Lemma finished_proxy_error doi url publisher text :
  finished doi (<["actions" := VList []]>
                  (<["error" := VStr text]>
                     (<["status" := VStr "proxy_error"]>
                        (info_resolved doi url publisher)))).
Proof.
  unfold finished, info_resolved. split_and!; [done | by eexists..|].
  exists "proxy_error". split_and!; [done | in_vocabulary | by eexists].
Qed.

Lemma finished_navigation_error doi url publisher proxied text :
  finished doi (<["error" := VStr text]>
                  (<["status" := VStr "navigation_error"]>
                     (info_proxied doi url publisher proxied))).
Proof.
  unfold finished, info_proxied, info_resolved.
  split_and!; [done | by eexists..|].
  exists "navigation_error". split_and!; [done | in_vocabulary | by eexists].
Qed.

Lemma finished_click_failed doi url publisher proxied e :
  finished doi (click_failed (info_proxied doi url publisher proxied) e).
Proof.
  unfold finished, click_failed, info_proxied, info_resolved.
  split_and!; [done | by eexists..|].
  exists "click_pdf_failed". split_and!; [done | in_vocabulary | by eexists].
Qed.

Lemma finished_clicked doi url publisher proxied :
  finished doi (clicked (info_proxied doi url publisher proxied) []).
Proof.
  unfold finished, clicked, info_proxied, info_resolved.
  split_and!; [done | by eexists..|].
  exists "pdf_clicked". split_and!; [done | in_vocabulary |].
  intros H. not_in_list H.
Qed.

Lemma finished_no_action doi url publisher proxied :
  finished doi (<["status" := VStr "no_action_for_publisher"]>
                  (info_proxied doi url publisher proxied)).
Proof.
  unfold finished, info_proxied, info_resolved.
  split_and!; [done | by eexists..|].
  exists "no_action_for_publisher". split_and!; [done | in_vocabulary |].
  intros H. not_in_list H.
Qed.

(** The publisher switch returns, with a finished record, after events of
    its own kind only. *)
Lemma publisher_switch_run doi url publisher proxied tr :
  exists info sevs,
    publisher_switch driver publisher
      (info_proxied doi url publisher proxied) tr
    = (Returned info, tr ++ sevs) /\
    Forall (fun e => is_switch_event e = true) sevs /\
    finished doi info.
Proof.
  destruct (decide (publisher = "ACS")) as [->|Hne].
  - rewrite (publisher_switch_acs driver _ [] tr) by done.
    destruct (Selenium.find_element driver tr _ _) as [pdf_button|e];
      simpl ok_of.
    + destruct (Selenium.click pdf_button _) as [[]|e].
      * eexists _, [_; _; _]. rewrite <-app_assoc. split; [done |].
        split; [by repeat constructor | apply finished_clicked].
      * eexists _, [_; _]. rewrite <-app_assoc. split; [done |].
        split; [by repeat constructor | apply finished_click_failed].
    + eexists _, [_]. split; [done |].
      split; [by repeat constructor | apply finished_click_failed].
  - rewrite publisher_switch_other by done.
    eexists _, []. rewrite app_nil_r. split; [done |].
    split; [constructor | apply finished_no_action].
Qed.

Lemma switch_later sevs :
  Forall (fun e => is_switch_event e = true) sevs -> later_ok wait_time sevs.
Proof.
  intros H. split.
  - eapply Forall_impl; [exact H | apply switch_not_pause].
  - apply arrivals_wait_none.
    eapply Forall_impl; [exact H | apply switch_not_arrival].
Qed.

Lemma poll_later evs :
  Forall (fun e => is_poll e = true) evs -> later_ok wait_time evs.
Proof.
  intros H. split.
  - eapply Forall_impl; [exact H | apply poll_not_pause].
  - apply arrivals_wait_none.
    eapply Forall_impl; [exact H | apply poll_not_arrival].
Qed.

(** One round: it returns, stores a finished record under the DOI, asks
    for the resolver address first and for no other, and its events have the
    shape the [first_visit] flag prescribes. *)
Lemma process_doi_round st doi tr :
  exists info after evs,
    process_doi w driver wait_time proxy st doi tr =
    (Returned (mkLoopState (<[doi := info]> (results st)) after),
     tr ++ EvRequestsGet (resolver_url doi) :: evs) /\
    finished doi info /\
    requests_of evs = [] /\
    round_shape wait_time (first_visit st) after
      (EvRequestsGet (resolver_url doi) :: evs).
Proof.
  destruct (doi_to_url_run w doi tr) as (url & publisher & Hres).
  destruct (Str.startswith "Error" url) eqn:Herr.
  { rewrite (process_doi_resolve_failed _ _ _ _ _ _ _ _ _ _ Hres Herr).
    eexists _, _, []. split; [done |].
    split; [apply finished_resolve_failed |]. split; [done |].
    left. split; [done | by repeat constructor]. }
  set (tr1 := tr ++ [EvRequestsGet (resolver_url doi)]) in *.
  assert (Hsel : exists r pevs,
    select_proxy proxy url tr1 = (r, tr1 ++ pevs) /\
    Forall (fun e => is_quiet e = true) pevs /\ requests_of pevs = []).
  { destruct (select_proxy_run proxy url tr1) as [[p ->]|(f & _ & ->)].
    - eexists _, []. by rewrite app_nil_r.
    - eexists _, [_]. split; [done |]. split; [by repeat constructor | done]. }
  destruct Hsel as ([proxied|e] & pevs & Hsel & Hpq & Hpr).
  2:{ rewrite (process_doi_proxy_error _ _ _ _ _ _ _ _ _ _ _ _ Hres Herr Hsel).
      eexists _, _, pevs. subst tr1. rewrite <-app_assoc. split; [done |].
      split; [apply finished_proxy_error |]. split; [done |].
      left. split; [done |]. by constructor. }
  destruct (Selenium.get driver (tr1 ++ pevs) proxied) as [[]|e] eqn:Hget.
  2:{ rewrite (process_doi_navigation_error _ _ _ _ _ _ _ _ _ _ _ _ _
                 Hres Herr Hsel Hget).
      eexists _, _, (pevs ++ [EvDriverGet proxied false]).
      subst tr1. rewrite <-!app_assoc. split; [done |].
      split; [apply finished_navigation_error |].
      split; [by rewrite requests_of_app, Hpr |].
      left. split; [done |]. constructor; [done |].
      apply Forall_app. split; [done | by repeat constructor]. }
  set (tr2 := (tr1 ++ pevs) ++ [EvDriverGet proxied true]).
  assert (Hawait : exists aevs,
    await_page driver wait_time (first_visit st) tr2
    = (Returned false, tr2 ++ aevs) /\ requests_of aevs = [] /\
    if first_visit st
    then aevs = [EvSleep 20000]
    else exists polls, aevs = EvWaitForPageLoad wait_time :: polls /\
           Forall (fun e => is_poll e = true) polls).
  { destruct (first_visit st).
    - exists [EvSleep 20000]. by rewrite await_page_first.
    - destruct (await_page_later driver wait_time tr2) as (polls & -> & Hp).
      eexists. split; [done |]. split; [|eauto]. simpl.
      apply requests_of_none.
      eapply Forall_impl; [exact Hp | apply poll_not_request]. }
  destruct Hawait as (aevs & Hawait & Har & Hashape).
  destruct (publisher_switch_run doi url publisher proxied (tr2 ++ aevs))
    as (info & sevs & Hswitch & Hsevs & Hfin).
  rewrite (process_doi_visited _ _ _ _ _ _ _ _ _ _ _ _
             Hres Herr Hsel Hget _ _ _ Hawait Hswitch).
  exists info, false, (pevs ++ EvDriverGet proxied true :: aevs ++ sevs).
  split; [subst tr2 tr1; by rewrite <-!app_assoc |].
  split; [done |]. split.
  { rewrite requests_of_app, Hpr. simpl. rewrite requests_of_app, Har.
    apply requests_of_none.
    eapply Forall_impl; [exact Hsevs | apply switch_not_request]. }
  pose proof (switch_later sevs Hsevs) as Hlater.
  destruct (first_visit st); right.
  - left. split_and!; [done..|]. subst aevs.
    exists (EvRequestsGet (resolver_url doi) :: pevs), proxied, sevs.
    split_and!; [done | by constructor | done].
  - right. split_and!; [done..|].
    destruct Hashape as (polls & -> & Hpolls).
    change (later_ok wait_time
      ((EvRequestsGet (resolver_url doi) :: pevs) ++
       [EvDriverGet proxied true; EvWaitForPageLoad wait_time] ++
       polls ++ sevs)).
    apply later_ok_app; [apply later_ok_quiet; by constructor |].
    apply later_ok_app.
    { split; [by repeat constructor |]. simpl. by rewrite Z.eqb_refl. }
    apply later_ok_app; [by apply poll_later | done].
Qed.

End Batch.

Section Loop.
Context (w : World) (driver : Selenium.WebDriver) (wait_time : Z)
  (proxy : ProxyArg).

Lemma for_each_app body dois1 dois2 st tr :
  for_each body (dois1 ++ dois2) st tr =
  match for_each body dois1 st tr with
  | (Returned st1, tr1) => for_each body dois2 st1 tr1
  | (Raised e, tr1) => (Raised e, tr1)
  end.
Proof.
  revert st tr. induction dois1 as [|doi dois1 IH]; intros st tr; [done |].
  simpl. unfold bind. destruct (body st doi tr) as [[st'|e] tr']; [|done].
  apply IH.
Qed.

(** The loop: it returns; the records of the DOIs are added to the
    results, each finished; the resolver is asked for every DOI, in order;
    the events keep the shape of the batch. *)
Lemma for_each_run dois st tr :
  exists st' evs,
    for_each (process_doi w driver wait_time proxy) dois st tr
    = (Returned st', tr ++ evs) /\
    requests_of evs = resolver_url <$> dois /\
    dom (results st') = dom (results st) ∪ list_to_set dois /\
    (forall doi info,
       results st' !! doi = Some info ->
       results st !! doi = Some info \/ (doi ∈ dois /\ finished doi info)) /\
    (forall evs0,
       batch_shape wait_time (first_visit st) evs0 ->
       batch_shape wait_time (first_visit st') (evs0 ++ evs)).
Proof.
  revert st tr. induction dois as [|doi dois IH]; intros st tr.
  - exists st, []. rewrite app_nil_r. split; [done |]. split; [done |].
    split; [simpl; by rewrite union_empty_r_L |]. split; [auto |].
    intros evs0. by rewrite app_nil_r.
  - destruct (process_doi_round w driver wait_time proxy st doi tr)
      as (info & after & revs & Hround & Hfin & Hreq & Hshape).
    simpl. rewrite (bind_returned _ _ _ _ _ Hround).
    destruct (IH (mkLoopState (<[doi := info]> (results st)) after)
                (tr ++ EvRequestsGet (resolver_url doi) :: revs))
      as (st' & evs & -> & Hreqs & Hdom & Hrec & Hbatch).
    exists st', (EvRequestsGet (resolver_url doi) :: revs ++ evs).
    split; [by rewrite <-app_assoc |].
    split; [simpl; by rewrite requests_of_app, Hreq, Hreqs |].
    split.
    { rewrite Hdom. simpl. rewrite dom_insert_L. apply set_eq. intros x.
      rewrite !elem_of_union, elem_of_singleton. tauto. }
    split.
    + intros d i Hd. destruct (Hrec d i Hd) as [Hin|[Hin Hf]].
      * simpl in Hin. destruct (decide (doi = d)) as [->|Hne].
        -- rewrite lookup_insert_eq in Hin. injection Hin as <-.
           right. split; [apply list_elem_of_here | done].
        -- rewrite lookup_insert_ne in Hin by done. by left.
      * right. split; [by apply list_elem_of_further | done].
    + intros evs0 H0. simpl in Hbatch.
      change (EvRequestsGet (resolver_url doi) :: revs ++ evs)
        with ((EvRequestsGet (resolver_url doi) :: revs) ++ evs).
      rewrite app_assoc. apply Hbatch.
      by eapply batch_shape_round.
Qed.

End Loop.

(** * The program with its uncaught exceptions *)

Section Escapes.
Context (env : Exn.Env).

Lemma netloc_error_bracket_free netloc :
  bracket_free netloc -> Exn.netloc_error env netloc = None.
Proof. intros [H1 H2]. unfold Exn.netloc_error. by rewrite H1, H2. Qed.

Lemma rewritten_bracket_free netloc :
  bracket_free netloc ->
  bracket_free (Str.replace "." "-" netloc +:+ hku_suffix).
Proof.
  intros [Hopen Hclose].
  split; rewrite contains_app, replace_dot_map, contains_map
    by (intros a; by_cases a).
  - by rewrite Hopen.
  - by rewrite Hclose.
Qed.

Lemma urlparse_returned url parsed :
  Exn.urlparse env url = Returned parsed <->
  parsed = Url.urlparse url /\
  Exn.netloc_error env (Url.netloc (Url.urlparse url)) = None.
Proof.
  unfold Exn.urlparse.
  destruct (Exn.netloc_error env _) as [e|]; split.
  - done.
  - by intros [_ ?].
  - by intros [= <-].
  - by intros [-> _].
Qed.

Lemma urlparse_raised url e :
  Exn.urlparse env url = Raised e <->
  Exn.netloc_error env (Url.netloc (Url.urlparse url)) = Some e.
Proof.
  unfold Exn.urlparse.
  destruct (Exn.netloc_error env _) as [e'|]; split; try done.
  - by intros [= <-].
  - by intros [= <-].
Qed.

(** [convert_to_hku_proxy] raises what [urlparse] raises on its argument,
    and nothing else. *)
Lemma convert_returned url :
  Exn.netloc_error env (Url.netloc (Url.urlparse url)) = None ->
  Exn.convert_to_hku_proxy env url = Returned (convert_to_hku_proxy url).
Proof.
  intros H. unfold Exn.convert_to_hku_proxy, Exn.urlparse. by rewrite H.
Qed.

Lemma convert_raised url e :
  Exn.netloc_error env (Url.netloc (Url.urlparse url)) = Some e ->
  Exn.convert_to_hku_proxy env url = Raised e.
Proof.
  intros H. unfold Exn.convert_to_hku_proxy, Exn.urlparse. by rewrite H.
Qed.

Lemma select_proxy_accepted proxy url tr :
  Exn.netloc_error env (Url.netloc (Url.urlparse url)) = None ->
  Exn.select_proxy env proxy url tr = select_proxy proxy url tr.
Proof.
  intros H. unfold Exn.select_proxy, select_proxy, of_outcome.
  rewrite (convert_returned url H).
  by destruct proxy.
Qed.

(** The two ways [doi_to_url] ends: it raises what the resolution raises,
    or it returns what it returns without these exceptions, and then its
    URL is an error text or an address that [urlparse] accepts. *)
Lemma doi_to_url_cases doi tr :
  let tr1 := tr ++ [EvRequestsGet (resolver_url doi)] in
  (exists e,
     resolution_raises env doi tr e /\
     Exn.doi_to_url env doi tr = (Raised e, tr1)) \/
  (exists url publisher,
     Exn.doi_to_url env doi tr = (Returned (url, publisher), tr1) /\
     doi_to_url (Exn.world env) doi tr = (Returned (url, publisher), tr1) /\
     (forall e, ~ resolution_raises env doi tr e) /\
     (Str.startswith "Error" url = false ->
      Exn.netloc_error env (Url.netloc (Url.urlparse url)) = None)).
Proof.
  intros tr1. subst tr1.
  unfold Exn.doi_to_url, doi_to_url, resolution_raises, resolves_to.
  fold (resolver_url doi).
  destruct (Exn.requests_raises env tr (resolver_url doi)) as [e|] eqn:Hreq.
  { left. exists e. by split; [left |]. }
  destruct (fetch (Exn.world env) (resolver_url doi) tr)
    as [[text [r|]|text]|final_url] eqn:Hfetch.
  - unfold Exn.urlparse.
    destruct (Exn.netloc_error env _) as [e|] eqn:Hnl.
    + left. exists e. split; [|done]. right. split; [done |].
      exists (resp_url r). split; [|done]. right. by exists text, r.
    + right. eexists _, _. split; [done |]. split; [done |]. split; [|done].
      intros e [H|[_ (u & [H|(t' & r' & [= _ <-] & <-)] & He)]];
        [done | done | congruence].
  - right. eexists _, _. split; [done |]. split; [done |]. split.
    + intros e [H|[_ (u & [H|(t' & r' & [=] & _)] & He)]]; done.
    + intros H. by cbv in H.
  - right. eexists _, _. split; [done |]. split; [done |]. split.
    + intros e [H|[_ (u & [H|(t' & r' & [=] & _)] & He)]]; done.
    + intros H. by cbv in H.
  - unfold Exn.urlparse.
    destruct (Exn.netloc_error env _) as [e|] eqn:Hnl.
    + left. exists e. split; [|done]. right. split; [done |].
      exists final_url. split; [by left | done].
    + right. eexists _, _. split; [done |]. split; [done |]. split; [|done].
      intros e [H|[_ (u & [[= <-]|(t' & r' & [=] & _)] & He)]];
        [done | congruence].
Qed.

End Escapes.

Section EscapeRounds.
Context (env : Exn.Env) (driver : Selenium.WebDriver) (wait_time : Z)
  (proxy : ProxyArg).

(** What [doi_to_url] raises ends the round. *)
Lemma round_raised st doi tr e tr1 :
  Exn.doi_to_url env doi tr = (Raised e, tr1) ->
  Exn.process_doi env driver wait_time proxy st doi tr = (Raised e, tr1).
Proof. intros H. unfold Exn.process_doi. by rewrite (bind_raised _ _ _ _ _ H). Qed.

(** When [doi_to_url] returns, the round is the one without the uncaught
    exceptions: [convert_to_hku_proxy] parses an address that [doi_to_url]
    has parsed. *)
Lemma round_returned st doi tr url publisher tr1 :
  Exn.doi_to_url env doi tr = (Returned (url, publisher), tr1) ->
  doi_to_url (Exn.world env) doi tr = (Returned (url, publisher), tr1) ->
  (Str.startswith "Error" url = false ->
   Exn.netloc_error env (Url.netloc (Url.urlparse url)) = None) ->
  Exn.process_doi env driver wait_time proxy st doi tr
  = process_doi (Exn.world env) driver wait_time proxy st doi tr.
Proof.
  intros H1 H2 Hacc. unfold Exn.process_doi, process_doi.
  rewrite (bind_returned _ _ _ _ _ H1), (bind_returned _ _ _ _ _ H2).
  destruct (Str.startswith "Error" url); [done |].
  unfold bind at 1 3. unfold attempt.
  by rewrite select_proxy_accepted by auto.
Qed.

Lemma switched_run publisher doi url proxied tr :
  exists info tr',
    publisher_switch driver publisher
      (info_proxied doi url publisher proxied) tr = (Returned info, tr') /\
    switched driver publisher (info_proxied doi url publisher proxied) tr
      info tr'.
Proof.
  destruct (decide (publisher = "ACS")) as [->|Hne].
  - rewrite (publisher_switch_acs driver _ [] tr) by done.
    destruct (Selenium.find_element driver tr _ _) as [pdf_button|e] eqn:Hf;
      simpl ok_of.
    + destruct (Selenium.click pdf_button _) as [[]|e] eqn:Hc.
      * eexists _, _. split; [done |]. rewrite <-app_assoc.
        by eapply switched_clicked.
      * eexists _, _. split; [done |]. rewrite <-app_assoc.
        by eapply switched_not_clicked.
    + eexists _, _. split; [done |]. by apply switched_not_found.
  - rewrite publisher_switch_other by done.
    eexists _, _. split; [done |]. by apply switched_no_action.
Qed.

Lemma awaited_run before tr :
  exists tr',
    await_page driver wait_time before tr = (Returned false, tr') /\
    awaited driver wait_time before tr tr'.
Proof.
  destruct before.
  - eexists. by rewrite await_page_first.
  - unfold await_page, bind, awaited.
    destruct (_wait_for_page_load_run driver wait_time tr)
      as (ready & evs & -> & _).
    eexists. split; [done |]. by exists ready.
Qed.

(** A round in which [doi_to_url] returns stores the record that the
    specification describes. *)
Lemma round_captured st doi tr url publisher tr1 :
  Exn.doi_to_url env doi tr = (Returned (url, publisher), tr1) ->
  doi_to_url (Exn.world env) doi tr = (Returned (url, publisher), tr1) ->
  (Str.startswith "Error" url = false ->
   Exn.netloc_error env (Url.netloc (Url.urlparse url)) = None) ->
  exists info after tr',
    Exn.process_doi env driver wait_time proxy st doi tr
    = (Returned (mkLoopState (<[doi := info]> (results st)) after), tr') /\
    captured env driver wait_time proxy (first_visit st) doi tr info after tr'.
Proof.
  intros H1 H2 Hacc. rewrite (round_returned _ _ _ _ _ _ H1 H2 Hacc).
  destruct (Str.startswith "Error" url) eqn:Herr.
  { rewrite (process_doi_resolve_failed _ _ _ _ _ _ _ _ _ _ H2 Herr).
    eexists _, _, _. split; [done |]. by eapply captured_resolve_failed. }
  specialize (Hacc eq_refl).
  pose proof (select_proxy_accepted env proxy url tr1 Hacc) as Hsel.
  destruct (select_proxy proxy url tr1) as [[proxied|e] tr2] eqn:Hold.
  2:{ rewrite (process_doi_proxy_error _ _ _ _ _ _ _ _ _ _ _ _ H2 Herr Hold).
      eexists _, _, _. split; [done |]. by eapply captured_proxy_error. }
  destruct (Selenium.get driver tr2 proxied) as [[]|e] eqn:Hget.
  2:{ rewrite (process_doi_navigation_error _ _ _ _ _ _ _ _ _ _ _ _ _
                 H2 Herr Hold Hget).
      eexists _, _, _. split; [done |].
      by eapply captured_navigation_error. }
  destruct (awaited_run (first_visit st) (tr2 ++ [EvDriverGet proxied true]))
    as (tr3 & Hawait & Hawaited).
  destruct (switched_run publisher doi url proxied tr3)
    as (info & tr4 & Hswitch & Hswitched).
  rewrite (process_doi_visited _ _ _ _ _ _ _ _ _ _ _ _
             H2 Herr Hold Hget _ _ _ Hawait Hswitch).
  eexists _, _, _. split; [done |]. by eapply captured_visited.
Qed.

(** The loop: it ends all rounds, and is then the loop without the
    uncaught exceptions, or the resolution of one DOI raises after the
    rounds before it. *)
Lemma for_each_cases dois st tr :
  (exists st' tr',
     rounds_done env driver wait_time proxy dois st tr st' tr' /\
     for_each (process_doi (Exn.world env) driver wait_time proxy) dois st tr
     = (Returned st', tr')) \/
  (exists pre doi post st1 tr1 e,
     dois = pre ++ doi :: post /\
     rounds_done env driver wait_time proxy pre st tr st1 tr1 /\
     for_each (process_doi (Exn.world env) driver wait_time proxy) pre st tr
     = (Returned st1, tr1) /\
     resolution_raises env doi tr1 e /\
     for_each (Exn.process_doi env driver wait_time proxy) dois st tr
     = (Raised e, tr1 ++ [EvRequestsGet (resolver_url doi)])).
Proof.
  unfold rounds_done. revert st tr.
  induction dois as [|doi dois IH]; intros st tr.
  - left. by exists st, tr.
  - destruct (doi_to_url_cases env doi tr)
      as [(e & Hraises & Hrun)|(url & publisher & H1 & H2 & _ & Hacc)].
    + right. exists [], doi, dois, st, tr, e. split; [done |].
      split; [done |]. split; [done |]. split; [done |]. simpl.
      by rewrite (bind_raised _ _ _ _ _ (round_raised _ _ _ _ _ Hrun)).
    + pose proof (round_returned st doi tr _ _ _ H1 H2 Hacc) as Heq.
      destruct (process_doi (Exn.world env) driver wait_time proxy st doi tr)
        as [[st2|e2] tr2] eqn:Hold.
      2:{ destruct (round_captured st doi tr _ _ _ H1 H2 Hacc)
            as (? & ? & ? & Hr & _). congruence. }
      destruct (IH st2 tr2)
        as [(st' & tr' & Hd & Ho)
           |(pre & d & post & st1 & tr1 & e & -> & Hd & Ho & Hr & He)].
      * left. exists st', tr'. simpl.
        by rewrite (bind_returned _ _ _ _ _ Heq), (bind_returned _ _ _ _ _ Hold).
      * right. exists (doi :: pre), d, post, st1, tr1, e. simpl.
        rewrite !(bind_returned _ _ _ _ _ Heq), !(bind_returned _ _ _ _ _ Hold).
        by split_and!.
Qed.

(** A round touches the record of its own DOI and no other. *)
Lemma rounds_frame dois st tr st' tr' doi :
  rounds_done env driver wait_time proxy dois st tr st' tr' ->
  doi ∉ dois -> results st' !! doi = results st !! doi.
Proof.
  unfold rounds_done. revert st tr.
  induction dois as [|d dois IH]; intros st tr.
  - by intros [= <- _].
  - intros Hrun [Hne Hnotin]%not_elem_of_cons. simpl in Hrun.
    destruct (doi_to_url_cases env d tr)
      as [(e & _ & Hr)|(url & publisher & H1 & H2 & _ & Hacc)].
    + by rewrite (bind_raised _ _ _ _ _ (round_raised _ _ _ _ _ Hr)) in Hrun.
    + destruct (round_captured st d tr _ _ _ H1 H2 Hacc)
        as (info & after & tr2 & Hround & _).
      rewrite (bind_returned _ _ _ _ _ Hround) in Hrun.
      rewrite (IH _ _ Hrun Hnotin). simpl. by rewrite lookup_insert_ne.
Qed.

(** The record of a DOI is the one of its last round. *)
Lemma rounds_last pre doi post st tr st' tr' :
  rounds_done env driver wait_time proxy (pre ++ doi :: post) st tr st' tr' ->
  doi ∉ post ->
  exists st1 tr1 info after tr2,
    rounds_done env driver wait_time proxy pre st tr st1 tr1 /\
    captured env driver wait_time proxy (first_visit st1) doi tr1
      info after tr2 /\
    results st' !! doi = Some info.
Proof.
  unfold rounds_done. intros Hrun Hnotin. rewrite for_each_app in Hrun.
  destruct (for_each _ pre st tr) as [[st1|e] tr1] eqn:Hpre; [|done].
  simpl in Hrun.
  destruct (doi_to_url_cases env doi tr1)
    as [(e & _ & Hr)|(url & publisher & H1 & H2 & _ & Hacc)].
  { by rewrite (bind_raised _ _ _ _ _ (round_raised _ _ _ _ _ Hr)) in Hrun. }
  destruct (round_captured st1 doi tr1 _ _ _ H1 H2 Hacc)
    as (info & after & tr2 & Hround & Hcap).
  rewrite (bind_returned _ _ _ _ _ Hround) in Hrun.
  exists st1, tr1, info, after, tr2. split; [done |]. split; [done |].
  rewrite (rounds_frame _ _ _ _ _ _ Hrun Hnotin). simpl.
  apply lookup_insert_eq.
Qed.

End EscapeRounds.

Section EscapeBatch.
Context (env : Exn.Env) (driver : Selenium.WebDriver) (wait_time : Z)
  (proxy : ProxyArg).

(** The batch: it returns what the batch without the uncaught exceptions
    returns, or the resolution of one DOI raises after the rounds before
    it, which asked for the DOIs before it. *)
Lemma process_dois_cases dois tr :
  (exists evs st',
     Exn.process_dois env dois driver wait_time proxy tr
     = (Returned (results st'), tr ++ evs) /\
     rounds_done env driver wait_time proxy dois (mkLoopState ∅ true) tr
       st' (tr ++ evs) /\
     dom (results st') = list_to_set dois /\
     requests_of evs = resolver_url <$> dois /\
     (forall doi info,
        results st' !! doi = Some info -> finished doi info)) \/
  (exists pre doi post st1 evs1 e,
     dois = pre ++ doi :: post /\
     rounds_done env driver wait_time proxy pre (mkLoopState ∅ true) tr
       st1 (tr ++ evs1) /\
     requests_of evs1 = resolver_url <$> pre /\
     resolution_raises env doi (tr ++ evs1) e /\
     Exn.process_dois env dois driver wait_time proxy tr
     = (Raised e, tr ++ evs1 ++ [EvRequestsGet (resolver_url doi)])).
Proof.
  destruct (for_each_cases env driver wait_time proxy dois
              (mkLoopState ∅ true) tr)
    as [(st' & tr' & Hd & Ho)
       |(pre & doi & post & st1 & tr1 & e & -> & Hd & Ho & Hr & He)].
  - destruct (for_each_run (Exn.world env) driver wait_time proxy dois
                (mkLoopState ∅ true) tr)
      as (st'' & evs & Hrun & Hreq & Hdom & Hrec & _).
    rewrite Hrun in Ho. injection Ho as <- <-.
    left. exists evs, st''. unfold Exn.process_dois.
    rewrite (bind_returned _ _ _ _ _ Hd).
    split; [done |]. split; [done |]. split; [|split; [done |]].
    + rewrite Hdom. simpl. rewrite dom_empty_L. apply union_empty_l_L.
    + intros doi info Hinfo.
      by destruct (Hrec doi info Hinfo) as [H|[_ H]].
  - destruct (for_each_run (Exn.world env) driver wait_time proxy pre
                (mkLoopState ∅ true) tr)
      as (st'' & evs1 & Hrun & Hreq & _).
    rewrite Hrun in Ho. injection Ho as <- <-.
    right. exists pre, doi, post, st'', evs1, e. unfold Exn.process_dois.
    rewrite (bind_raised _ _ _ _ _ He). rewrite <-app_assoc.
    by split_and!.
Qed.

End EscapeBatch.

(** * The model on sample inputs *)

(** [urlparse] on the sample URL, on a URL with user information, port,
    parameters, query and fragment, and on a string without scheme *)
Example urlparse_acs :
  Url.urlparse Sample.acs_url
  = Url.mkParseResult "https" "pubs.acs.org" "/doi/10.1021/acscatal.9b05338"
      "" "" "".
Proof. vm_compute. reflexivity. Qed.

Example urlparse_components :
  Url.urlparse "HTTPS://user@Pubs.ACS.org:8080/a;b?c#d"
  = Url.mkParseResult "https" "user@Pubs.ACS.org:8080" "/a" "b" "c" "d" /\
  Url.hostname (Url.urlparse "HTTPS://user@Pubs.ACS.org:8080/a;b?c#d")
  = Some "pubs.acs.org".
Proof. split; vm_compute; reflexivity. Qed.

Example urlparse_relative :
  Url.urlparse "foo" = Url.mkParseResult "" "" "foo" "" "" "" /\
  convert_to_hku_proxy "foo" = "//.eproxy.lib.hku.hk/foo".
Proof. split; vm_compute; reflexivity. Qed.

(** The example of the docstring of [convert_to_hku_proxy] *)
Example convert_to_hku_proxy_acs :
  convert_to_hku_proxy Sample.acs_url
  = "https://pubs-acs-org.eproxy.lib.hku.hk/doi/10.1021/acscatal.9b05338".
Proof. vm_compute. reflexivity. Qed.

(** The example of the docstring of [doi_to_url] *)
Example doi_to_url_acs :
  doi_to_url Sample.world_acs Sample.doi []
  = (Returned (Sample.acs_url, "ACS"),
     [EvRequestsGet "https://doi.org/10.1021/acscatal.9b05338"]).
Proof. vm_compute. reflexivity. Qed.

(** A batch of three DOIs: one pause after the first navigation, the wait
    for the page after the others *)
Example three_dois_trace :
  (process_dois Sample.world_acs ["a"; "b"; "c"] Sample.driver_ok 10
     (ProxyStr "none") []).2
  = [EvRequestsGet "https://doi.org/a"; EvDriverGet Sample.acs_url true;
     EvSleep 20000;
     EvFindElement "class name" "article__btn__secondary--pdf" true;
     EvClick true; EvSleep 3000;
     EvRequestsGet "https://doi.org/b"; EvDriverGet Sample.acs_url true;
     EvWaitForPageLoad 10; EvExecuteScript "return document.readyState";
     EvFindElement "class name" "article__btn__secondary--pdf" true;
     EvClick true; EvSleep 3000;
     EvRequestsGet "https://doi.org/c"; EvDriverGet Sample.acs_url true;
     EvWaitForPageLoad 10; EvExecuteScript "return document.readyState";
     EvFindElement "class name" "article__btn__secondary--pdf" true;
     EvClick true; EvSleep 3000].
Proof. vm_compute. reflexivity. Qed.

(** Without network no DOI resolves: no navigation and no pause *)
Example offline_trace :
  (process_dois Sample.world_offline ["a"; "b"] Sample.driver_ok 10
     ProxyNone []).2
  = [EvRequestsGet "https://doi.org/a"; EvRequestsGet "https://doi.org/b"].
Proof. vm_compute. reflexivity. Qed.

(** [close] twice on a session whose teardown raises: both calls return *)
Example close_twice_stuck :
  DOI2PDFDownloader.close_times 2 Sample.downloader []
  = (Returned tt, [EvQuit; EvQuit]).
Proof. vm_compute. reflexivity. Qed.

(** A DOI given as a string is one entry of the queue. *)
Example add_dois_string :
  DOI2PDFDownloader._queue
    (DOI2PDFDownloader.add_dois
       (DOI2PDFDownloader.add_dois Sample.downloader
          (DOI2PDFDownloader.ManyDois ["a"; "b"]))
       (DOI2PDFDownloader.OneDoi Sample.doi))
  = ["a"; "b"; "10.1021/acscatal.9b05338"].
Proof. reflexivity. Qed.

(** * The claims of the specification *)

(** C1, as stated, fails: [doi_to_url] is called outside every [try], and
    [urlparse] raises [ValueError] on a final URL with an unbalanced
    bracket.  When the resolver redirects to [http://[::1/x],
    [process_dois] raises. *)
Lemma process_dois_raises_on_bracket :
  ~ never_raises SampleEnv.env_bracket [Sample.doi] Sample.driver_ok 10
      ProxyNone [].
Proof.
  intros (res & tr' & H). vm_compute in H. discriminate H.
Qed.

(** C1, amended.  [process_dois] raises only what the resolution of a DOI
    raises: the exception of [requests.get] that is no [RequestException],
    or the [ValueError] of [urlparse] on the final URL.  It then raises
    right after the request for that DOI, after the rounds of the DOIs
    before it, and asks for no later DOI.  Every exception of the proxy
    function and of the browser session is captured.  When no resolution
    raises, [process_dois] returns; the keys of the mapping are the DOIs of
    the list; every record is finished; the resolver has been asked for
    every DOI in order; and the record under a DOI is the one the
    specification describes for its last round, by what failed in that
    round. *)
Theorem process_dois_raises_from_resolution_only
    (env : Exn.Env) (dois : list string) (driver_obj : Selenium.WebDriver)
    (wait_time : Z) (proxy : ProxyArg) (tr : Trace) :
  (exists res evs,
     Exn.process_dois env dois driver_obj wait_time proxy tr
     = (Returned res, tr ++ evs) /\
     dom res = list_to_set dois /\
     requests_of evs = resolver_url <$> dois /\
     (forall doi info, res !! doi = Some info -> finished doi info) /\
     (forall pre doi post,
        dois = pre ++ doi :: post -> doi ∉ post ->
        exists st1 tr1 info after tr2,
          rounds_done env driver_obj wait_time proxy pre
            (mkLoopState ∅ true) tr st1 tr1 /\
          captured env driver_obj wait_time proxy (first_visit st1) doi tr1
            info after tr2 /\
          res !! doi = Some info)) \/
  (exists pre doi post st1 evs1 e,
     dois = pre ++ doi :: post /\
     rounds_done env driver_obj wait_time proxy pre (mkLoopState ∅ true) tr
       st1 (tr ++ evs1) /\
     requests_of evs1 = resolver_url <$> pre /\
     resolution_raises env doi (tr ++ evs1) e /\
     Exn.process_dois env dois driver_obj wait_time proxy tr
     = (Raised e, tr ++ evs1 ++ [EvRequestsGet (resolver_url doi)])).
Proof.
  destruct (process_dois_cases env driver_obj wait_time proxy dois tr)
    as [(evs & st' & Hrun & Hdone & Hdom & Hreq & Hfin)|Hraise];
    [left | by right].
  exists (results st'), evs. split; [done |]. split; [done |].
  split; [done |]. split; [done |].
  intros pre doi post -> Hnotin.
  by apply (rounds_last env driver_obj wait_time proxy pre doi post
              (mkLoopState ∅ true) tr st' (tr ++ evs)).
Qed.

(** C2, as stated, fails on a URL with a port: the host name of
    [https://pubs.acs.org:8080/doi/x] is [pubs.acs.org], the host name of the
    rewritten URL is [pubs-acs-org]. *)
Lemma hostname_not_rewritten_with_port :
  ~ hostname_rewritten "https://pubs.acs.org:8080/doi/x".
Proof.
  intros H. specialize (H "pubs.acs.org" eq_refl).
  vm_compute in H. discriminate H.
Qed.

(** C2, amended.  [convert_to_hku_proxy] is not total: it raises the
    [ValueError] that [urlparse] raises on its argument.  For a URL that
    [urlparse] accepts, with a network location without square brackets, it
    returns a URL that [urlparse] accepts, whose network location is the one
    of the input with every dot replaced by a hyphen, followed by the proxy
    suffix, and whose scheme, path, parameters, query and fragment are those
    of the input.  When the network location is ASCII and its host part is a
    bare host name (no port), the host name of the result is the host name
    of the input rewritten in the same way. *)
Theorem convert_to_hku_proxy_components (env : Exn.Env) (url : string) :
  (forall e,
     Exn.urlparse env url = Raised e ->
     Exn.convert_to_hku_proxy env url = Raised e) /\
  (forall parsed,
     Exn.urlparse env url = Returned parsed ->
     Url.netloc parsed <> "" ->
     bracket_free (Url.netloc parsed) ->
     exists proxied_url proxied,
       Exn.convert_to_hku_proxy env url = Returned proxied_url /\
       Exn.urlparse env proxied_url = Returned proxied /\
       Url.netloc proxied
       = Str.replace "." "-" (Url.netloc parsed) +:+ hku_suffix /\
       Url.scheme proxied = Url.scheme parsed /\
       Url.path proxied = Url.path parsed /\
       Url.params proxied = Url.params parsed /\
       Url.query proxied = Url.query parsed /\
       Url.fragment proxied = Url.fragment parsed /\
       (isascii (Url.netloc parsed) = true ->
        bare_host (Url.netloc parsed) ->
        forall h,
          Url.hostname parsed = Some h ->
          Url.hostname proxied
          = Some (Str.replace "." "-" h +:+ hku_suffix))).
Proof.
  split.
  - intros e He. apply urlparse_raised in He. by apply convert_raised.
  - intros parsed [-> Hacc]%urlparse_returned Hne [Hopen Hclose].
    set (parsed := Url.urlparse url) in *.
    assert (E : Url.urlparse (convert_to_hku_proxy url)
                = with_proxy_netloc parsed).
    { unfold convert_to_hku_proxy. fold parsed.
      fold (with_proxy_netloc parsed). apply urlparse_urlunparse.
      - apply rewritten_ok; [apply urlparse_ok | done].
      - apply rewritten_netloc_nonempty. }
    exists (convert_to_hku_proxy url), (with_proxy_netloc parsed).
    split; [by apply convert_returned |]. split.
    { apply urlparse_returned. split; [done |]. rewrite E.
      apply netloc_error_bracket_free. cbn [with_proxy_netloc Url.netloc].
      by apply rewritten_bracket_free. }
    split_and!; try done.
    intros _ Hbare h Hh. by apply hostname_rewritten_bare.
Qed.

Lemma convert_to_hku_proxy_components_witness :
  (exists proxied_url proxied,
     Exn.convert_to_hku_proxy SampleEnv.env_acs Sample.acs_url
     = Returned proxied_url /\
     Exn.urlparse SampleEnv.env_acs proxied_url = Returned proxied /\
     Url.netloc proxied = "pubs-acs-org.eproxy.lib.hku.hk" /\
     Url.path proxied = "/doi/10.1021/acscatal.9b05338" /\
     Url.hostname proxied = Some "pubs-acs-org.eproxy.lib.hku.hk") /\
  Exn.convert_to_hku_proxy SampleEnv.env_acs SampleEnv.bracket_url
  = Raised (Exn.ValueError "Invalid IPv6 URL").
Proof.
  split.
  - destruct (convert_to_hku_proxy_components SampleEnv.env_acs
                Sample.acs_url) as [_ H].
    destruct (H (Url.urlparse Sample.acs_url))
      as (p & q & Hp & Hq & Hnl & _ & Hpath & _ & _ & _ & Hhost).
    + reflexivity.
    + vm_compute. discriminate.
    + split; reflexivity.
    + exists p, q. split; [exact Hp |]. split; [exact Hq |].
      split; [rewrite Hnl; vm_compute; reflexivity |].
      split; [rewrite Hpath; vm_compute; reflexivity |].
      rewrite (Hhost eq_refl (conj eq_refl eq_refl) "pubs.acs.org" eq_refl).
      vm_compute. reflexivity.
  - apply (convert_to_hku_proxy_components SampleEnv.env_acs
             SampleEnv.bracket_url).
    reflexivity.
Defined.

(** C3, as stated, fails on a final URL with a port: its host name is
    [pubs.acs.org], the publisher reported is ["Unknown"]. *)
Lemma publisher_not_by_hostname :
  ~ publisher_by_hostname Sample.world_port Sample.doi [].
Proof.
  intros H.
  specialize (H "https://pubs.acs.org:443/doi/10.1021/acscatal.9b05338"
                "pubs.acs.org" (or_introl eq_refl) eq_refl).
  vm_compute in H. discriminate H.
Qed.

Lemma publisher_map_lookup domain label :
  publisher_map !! domain = Some label <-> (domain, label) ∈ publisher_table.
Proof.
  unfold publisher_map. rewrite <-elem_of_list_to_map; [done |].
  apply (bool_decide_unpack _). vm_compute. exact I.
Qed.

(** C3, amended.  When the resolution ends at [final_url], [doi_to_url]
    returns it with the label that the table of nine publisher domains gives
    for the network location of [final_url] (the host with user information
    and port, as written), and with ["Unknown"] when the table has no entry
    for it.  The network location [pubs.acs.org] gives ["ACS"],
    [example.com] gives ["Unknown"]. *)
Theorem publisher_by_netloc
    (w : World) (doi : string) (tr : Trace) (final_url : string) :
  resolves_to w doi tr final_url ->
  (doi_to_url w doi tr).1
  = Returned (final_url,
              default "Unknown"
                (publisher_map !! Url.netloc (Url.urlparse final_url))) /\
  length publisher_table = 9%nat /\
  (forall domain label,
     publisher_map !! domain = Some label <-> (domain, label) ∈ publisher_table) /\
  default "Unknown" (publisher_map !! "pubs.acs.org") = "ACS" /\
  default "Unknown" (publisher_map !! "example.com") = "Unknown".
Proof.
  intros Hres. split; [|split_and!; [done | apply publisher_map_lookup | done..]].
  unfold doi_to_url. fold (resolver_url doi).
  by destruct Hres as [->|(text & r & -> & <-)].
Qed.

Lemma publisher_by_netloc_witness :
  (doi_to_url Sample.world_acs Sample.doi []).1
  = Returned (Sample.acs_url, "ACS").
Proof.
  destruct (publisher_by_netloc Sample.world_acs Sample.doi [] Sample.acs_url)
    as [H _].
  - left. reflexivity.
  - rewrite H. vm_compute. reflexivity.
Defined.



(** C5.  A round whose resolution result starts with ["Error"] stores a
    record with status ["resolve_failed"] and no actions, leaves the
    [first_visit] flag alone, and its only event is the request to the
    resolver: the driver is not called.  The loop goes on with the next
    DOI. *)
Theorem resolve_failed_no_navigation
    (w : World) (driver : Selenium.WebDriver) (wait_time : Z)
    (proxy : ProxyArg) (st : LoopState) (doi : string) (tr : Trace)
    (url publisher : string) :
  (doi_to_url w doi tr).1 = Returned (url, publisher) ->
  Str.startswith "Error" url = true ->
  exists info,
    info !! "status" = Some (VStr "resolve_failed") /\
    info !! "actions" = Some (VList []) /\
    info !! "proxied_url" = None /\
    let st' := mkLoopState (<[doi := info]> (results st)) (first_visit st) in
    let tr' := tr ++ [EvRequestsGet (resolver_url doi)] in
    process_doi w driver wait_time proxy st doi tr = (Returned st', tr') /\
    forall rest,
      for_each (process_doi w driver wait_time proxy) (doi :: rest) st tr
      = for_each (process_doi w driver wait_time proxy) rest st' tr'.
Proof.
  intros Hres Herr.
  destruct (doi_to_url_run w doi tr) as (url' & publisher' & Hrun).
  rewrite Hrun in Hres. injection Hres as -> ->.
  eexists. split_and!; [| | |].
  4:{ cbv zeta. rewrite (process_doi_resolve_failed _ _ _ _ _ _ _ _ _ _ Hrun Herr).
      split; [reflexivity |]. intros rest. simpl.
      by rewrite (bind_returned _ _ _ _ _
                (process_doi_resolve_failed _ _ _ _ _ _ _ _ _ _ Hrun Herr)). }
  all: done.
Qed.

Lemma resolve_failed_no_navigation_witness :
  exists info,
    info !! "status" = Some (VStr "resolve_failed") /\
    process_doi Sample.world_offline Sample.driver_ok 10 ProxyNone
      (mkLoopState ∅ true) Sample.doi []
    = (Returned (mkLoopState {[Sample.doi := info]} true),
       [EvRequestsGet "https://doi.org/10.1021/acscatal.9b05338"]).
Proof.
  destruct (resolve_failed_no_navigation Sample.world_offline Sample.driver_ok
              10 ProxyNone (mkLoopState ∅ true) Sample.doi []
              "Error resolving DOI 10.1021/acscatal.9b05338: Connection refused"
              "Unknown" eq_refl eq_refl)
    as (info & Hs & _ & _ & Hrun & _).
  exists info. split; [exact Hs | exact Hrun].
Defined.

(** C6.  The proxy selector: [None] and ["hku"] apply
    [convert_to_hku_proxy]; ["none"] passes the URL through; a callable is
    applied to the URL; every other string and every other object fall back
    to [convert_to_hku_proxy].  When the selected transformation raises,
    the round stores a record with status ["proxy_error"], the error text
    ["proxy function error: {e}"] and no actions, leaves the [first_visit]
    flag alone, and ends without a call to the driver. *)
Theorem proxy_dispatch (url : string) (tr : Trace) :
  select_proxy ProxyNone url tr = (Returned (convert_to_hku_proxy url), tr) /\
  select_proxy (ProxyStr "hku") url tr
  = (Returned (convert_to_hku_proxy url), tr) /\
  select_proxy (ProxyStr "none") url tr = (Returned url, tr) /\
  (forall f,
     select_proxy (ProxyCallable f) url tr
     = (f tr url, tr ++ [EvProxyCall url])) /\
  (forall s, s <> "hku" -> s <> "none" ->
     select_proxy (ProxyStr s) url tr
     = (Returned (convert_to_hku_proxy url), tr)) /\
  select_proxy ProxyOther url tr = (Returned (convert_to_hku_proxy url), tr) /\
  (forall w driver wait_time proxy st doi tr0 publisher e tr',
     doi_to_url w doi tr0 = (Returned (url, publisher), tr) ->
     Str.startswith "Error" url = false ->
     select_proxy proxy url tr = (Raised e, tr') ->
     exists info,
       info !! "status" = Some (VStr "proxy_error") /\
       info !! "error"
       = Some (VStr ("proxy function error: " +:+ exc_str e)) /\
       info !! "actions" = Some (VList []) /\
       process_doi w driver wait_time proxy st doi tr0
       = (Returned (mkLoopState (<[doi := info]> (results st))
                      (first_visit st)),
          tr') /\
       tr' = tr0 ++ [EvRequestsGet (resolver_url doi); EvProxyCall url]).
Proof.
  split_and!; try done.
  - intros s H1 H2. simpl.
    destruct (String.eqb_spec s "hku"); [done |].
    by destruct (String.eqb_spec s "none").
  - intros w driver wait_time proxy st doi tr0 publisher e tr' Hres Herr Hsel.
    eexists. split_and!.
    4:{ by rewrite (process_doi_proxy_error _ _ _ _ _ _ _ _ _ _ _ _
                      Hres Herr Hsel). }
    1-3: done.
    destruct (doi_to_url_run w doi tr0) as (? & ? & Hrun).
    rewrite Hrun in Hres. injection Hres as _ _ <-.
    destruct (select_proxy_run proxy url
                (tr0 ++ [EvRequestsGet (resolver_url doi)]))
      as [[p Hp]|(f & _ & Hf)].
    + rewrite Hp in Hsel. discriminate Hsel.
    + rewrite Hf in Hsel. injection Hsel as _ <-. by rewrite <-app_assoc.
Qed.

Lemma proxy_dispatch_witness :
  exists info,
    info !! "status" = Some (VStr "proxy_error") /\
    info !! "error"
    = Some (VStr "proxy function error: no proxy for this host") /\
    process_doi Sample.world_acs Sample.driver_ok 10 Sample.proxy_raising
      (mkLoopState ∅ true) Sample.doi []
    = (Returned (mkLoopState {[Sample.doi := info]} true),
       [EvRequestsGet "https://doi.org/10.1021/acscatal.9b05338";
        EvProxyCall Sample.acs_url]).
Proof.
  destruct (proxy_dispatch Sample.acs_url
              [EvRequestsGet "https://doi.org/10.1021/acscatal.9b05338"])
    as (_ & _ & _ & _ & _ & _ & H).
  destruct (H Sample.world_acs Sample.driver_ok 10 Sample.proxy_raising
              (mkLoopState ∅ true) Sample.doi [] "ACS"
              (mkExc "ValueError" "no proxy for this host")
              [EvRequestsGet "https://doi.org/10.1021/acscatal.9b05338";
               EvProxyCall Sample.acs_url])
    as (info & Hs & He & _ & Hrun & _).
  - vm_compute. reflexivity.
  - vm_compute. reflexivity.
  - reflexivity.
  - exists info. split; [exact Hs |]. split; [exact He | exact Hrun].
Defined.

(** C7, as stated, fails on a batch without a navigation that returns:
    without network the three DOIs of the example do not resolve, the driver
    is never called, and there is no pause. *)
Lemma no_pause_offline :
  ~ pauses_exactly_once Sample.world_offline Sample.dois Sample.driver_ok 10
      ProxyNone [].
Proof.
  intros (results & evs & Hrun & Hpauses).
  assert (E : (process_dois Sample.world_offline Sample.dois Sample.driver_ok
                 10 ProxyNone []).2
              = [EvRequestsGet "https://doi.org/10.1021/acscatal.9b05338";
                 EvRequestsGet "https://doi.org/10.1021/jacs.5c12544";
                 EvRequestsGet "https://doi.org/10.1021/acs.jpcc.3c04283"])
    by (vm_compute; reflexivity).
  rewrite Hrun in E. simpl in E. subst evs. discriminate Hpauses.
Qed.

(** C7, amended.  Across a batch the 20-second pause occurs at most once,
    and exactly once when some navigation returns.  Without an arrival (a
    navigation that returned) it does not occur.  Otherwise the events of
    the batch are: events without arrival, pause or action on the page; the
    first arrival; directly after it the pause; and a remainder without
    pause in which every arrival is directly followed by the entry into
    [_wait_for_page_load] with the timeout [wait_time]. *)
Theorem login_pause_once
    (w : World) (dois : list string) (driver_obj : Selenium.WebDriver)
    (wait_time : Z) (proxy : ProxyArg) (tr : Trace) :
  exists results evs,
    process_dois w dois driver_obj wait_time proxy tr
    = (Returned results, tr ++ evs) /\
    ((Forall (fun e => is_arrival e = false) evs /\ pauses evs = 0%nat) \/
     (exists pre url post,
        evs = pre ++ EvDriverGet url true :: EvSleep 20000 :: post /\
        Forall (fun e => is_arrival e = false /\ is_login_pause e = false /\
                         is_ui_action e = false) pre /\
        pauses evs = 1%nat /\
        Forall (fun e => is_login_pause e = false) post /\
        forall evs1 url' evs2,
          post = evs1 ++ EvDriverGet url' true :: evs2 ->
          exists evs2', evs2 = EvWaitForPageLoad wait_time :: evs2')).
Proof.
  destruct (for_each_run w driver_obj wait_time proxy dois
              (mkLoopState ∅ true) tr)
    as (st' & evs & Hrun & _ & _ & _ & Hshape).
  exists (results st'), evs. unfold process_dois.
  rewrite (bind_returned _ _ _ _ _ Hrun). split; [done |].
  specialize (Hshape [] (Forall_nil_2 _)). simpl in Hshape.
  destruct (first_visit st'); simpl in Hshape.
  - left. split.
    + eapply Forall_impl; [exact Hshape | apply quiet_not_arrival].
    + apply pauses_none.
      eapply Forall_impl; [exact Hshape | apply quiet_not_pause].
  - right. destruct Hshape as (pre & url & post & -> & Hpre & Hpost & Hwait).
    exists pre, url, post. split; [done |]. split.
    { eapply Forall_impl; [exact Hpre |]. intros e He. unfold is_quiet in He.
      apply andb_prop in He as [[H1 H2]%andb_prop H3].
      by rewrite !negb_true_iff in H1, H2, H3. }
    split.
    { rewrite pauses_app. simpl. rewrite (pauses_none post Hpost).
      rewrite pauses_none; [done |].
      eapply Forall_impl; [exact Hpre | apply quiet_not_pause]. }
    split; [done |].
    intros evs1 url' evs2 ->. by eapply arrivals_wait_at.
Qed.

(** C8, as stated, fails when the exception has no text: with a driver
    whose [find_element] raises [Exception()], the record has status
    ["click_pdf_failed"] and the error text [""]. *)
Lemma click_failure_without_text :
  ~ click_failures_have_text Sample.world_acs [Sample.doi]
      Sample.driver_silent 10 (ProxyStr "none") [].
Proof.
  intros H.
  destruct (H {[Sample.doi :=
                  click_failed
                    (info_proxied Sample.doi Sample.acs_url "ACS" Sample.acs_url)
                    (mkExc "Exception" "")]}
              Sample.doi
              (click_failed
                 (info_proxied Sample.doi Sample.acs_url "ACS" Sample.acs_url)
                 (mkExc "Exception" "")))
    as (text & Htext & Hne).
  - vm_compute. reflexivity.
  - apply lookup_singleton_eq.
  - reflexivity.
  - vm_compute in Htext. congruence.
Qed.

(** C8, amended.  In a round whose DOI resolved, whose proxied URL was
    selected and whose navigation returned, with [tr3] the history after the
    pause or the wait: for the publisher ["ACS"] the driver is asked for the
    element of class [article__btn__secondary--pdf]; when it is found and the
    click returns, the record has the actions [["clicked_pdf_button"]] and
    the status ["pdf_clicked"], after a pause of 3 seconds; when finding or
    clicking raises [e], the record has the status ["click_pdf_failed"] and
    the error text [str(e)] (empty when [str(e)] is), and no action.  For
    every other publisher the record has the status
    ["no_action_for_publisher"] and the round ends without an action on the
    page. *)
Theorem publisher_action
    (w : World) (driver : Selenium.WebDriver) (wait_time : Z)
    (proxy : ProxyArg) (st : LoopState) (doi : string) (tr : Trace)
    (url publisher proxied : string) (tr1 tr2 : Trace) :
  doi_to_url w doi tr = (Returned (url, publisher), tr1) ->
  Str.startswith "Error" url = false ->
  select_proxy proxy url tr1 = (Returned proxied, tr2) ->
  Selenium.get driver tr2 proxied = Returned tt ->
  exists tr3 info tr4,
    await_page driver wait_time (first_visit st)
      (tr2 ++ [EvDriverGet proxied true]) = (Returned false, tr3) /\
    process_doi w driver wait_time proxy st doi tr
    = (Returned (mkLoopState (<[doi := info]> (results st)) false), tr4) /\
    if String.eqb publisher "ACS" then
      match Selenium.find_element driver tr3 Selenium.CLASS_NAME pdf_class
      with
      | Returned pdf_button =>
          let tr3' :=
            tr3 ++ [EvFindElement Selenium.CLASS_NAME pdf_class true] in
          match Selenium.click pdf_button tr3' with
          | Returned _ =>
              info !! "status" = Some (VStr "pdf_clicked") /\
              info !! "actions" = Some (VList ["clicked_pdf_button"]) /\
              info !! "error" = None /\
              tr4 = tr3' ++ [EvClick true; EvSleep 3000]
          | Raised e =>
              info !! "status" = Some (VStr "click_pdf_failed") /\
              info !! "error" = Some (VStr (exc_str e)) /\
              info !! "actions" = Some (VList []) /\
              tr4 = tr3' ++ [EvClick false]
          end
      | Raised e =>
          info !! "status" = Some (VStr "click_pdf_failed") /\
          info !! "error" = Some (VStr (exc_str e)) /\
          info !! "actions" = Some (VList []) /\
          tr4 = tr3 ++ [EvFindElement Selenium.CLASS_NAME pdf_class false]
      end
    else
      info !! "status" = Some (VStr "no_action_for_publisher") /\
      info !! "actions" = Some (VList []) /\
      info !! "error" = None /\
      tr4 = tr3.
Proof.
  intros Hres Herr Hsel Hget.
  assert (Hawait : exists tr3,
    await_page driver wait_time (first_visit st)
      (tr2 ++ [EvDriverGet proxied true]) = (Returned false, tr3)).
  { destruct (first_visit st).
    - rewrite await_page_first. eauto.
    - destruct (await_page_later driver wait_time
                  (tr2 ++ [EvDriverGet proxied true])) as (evs & -> & _).
      eauto. }
  destruct Hawait as [tr3 Hawait]. exists tr3.
  destruct (String.eqb_spec publisher "ACS") as [->|Hne].
  - pose proof (publisher_switch_acs driver
                  (info_proxied doi url "ACS" proxied) [] tr3 eq_refl) as Hsw.
    cbv zeta in Hsw.
    destruct (Selenium.find_element driver tr3 Selenium.CLASS_NAME pdf_class)
      as [pdf_button|e]; simpl ok_of in Hsw.
    + cbv zeta.
      destruct (Selenium.click pdf_button _) as [[]|e].
      * eexists _, _. split; [done |].
        rewrite (process_doi_visited _ _ _ _ _ _ _ _ _ _ _ _
                   Hres Herr Hsel Hget _ _ _ Hawait Hsw).
        by split_and!.
      * eexists _, _. split; [done |].
        rewrite (process_doi_visited _ _ _ _ _ _ _ _ _ _ _ _
                   Hres Herr Hsel Hget _ _ _ Hawait Hsw).
        by split_and!.
    + eexists _, _. split; [done |].
      rewrite (process_doi_visited _ _ _ _ _ _ _ _ _ _ _ _
                 Hres Herr Hsel Hget _ _ _ Hawait Hsw).
      by split_and!.
  - pose proof (publisher_switch_other driver publisher
                  (info_proxied doi url publisher proxied) tr3 Hne) as Hsw.
    eexists _, _. split; [done |].
    rewrite (process_doi_visited _ _ _ _ _ _ _ _ _ _ _ _
               Hres Herr Hsel Hget _ _ _ Hawait Hsw).
    by split_and!.
Qed.

Lemma publisher_action_witness :
  exists info,
    info !! "status" = Some (VStr "pdf_clicked") /\
    info !! "actions" = Some (VList ["clicked_pdf_button"]) /\
    (process_doi Sample.world_acs Sample.driver_ok 10 (ProxyStr "none")
       (mkLoopState ∅ true) Sample.doi []).1
    = Returned (mkLoopState (<[Sample.doi := info]> ∅) false).
Proof.
  destruct (publisher_action Sample.world_acs Sample.driver_ok 10
              (ProxyStr "none") (mkLoopState ∅ true) Sample.doi []
              Sample.acs_url "ACS" Sample.acs_url
              [EvRequestsGet "https://doi.org/10.1021/acscatal.9b05338"]
              [EvRequestsGet "https://doi.org/10.1021/acscatal.9b05338"])
    as (tr3 & info & tr4 & _ & Hrun & Hs & Ha & _ & _).
  - vm_compute. reflexivity.
  - vm_compute. reflexivity.
  - reflexivity.
  - reflexivity.
  - exists info. split; [exact Hs |]. split; [exact Ha |].
    rewrite Hrun. reflexivity.
Defined.

(** C9.  [close], called any number of times in succession, returns each
    time, whether the teardown of the session returns or raises; with a
    session, [quit] is called each time. *)
Theorem close_never_raises
    (self : DOI2PDFDownloader.t) (n : nat) (tr : Trace) :
  DOI2PDFDownloader.close_times n self tr
  = (Returned tt,
     tr ++ match DOI2PDFDownloader._driver self with
           | Some _ => replicate n EvQuit
           | None => []
           end).
Proof.
  destruct self as [queue method hl [driver|]]; simpl.
  - revert tr. induction n as [|n IH]; intros tr; simpl.
    + unfold ret. by rewrite app_nil_r.
    + unfold bind, DOI2PDFDownloader.close, try_except, call. simpl.
      destruct (Selenium.quit driver tr) as [[]|e]; simpl;
        rewrite IH; by rewrite <-app_assoc.
  - revert tr. induction n as [|n IH]; intros tr; simpl.
    + unfold ret. by rewrite app_nil_r.
    + unfold bind, DOI2PDFDownloader.close, ret. simpl. apply IH.
Qed.

(** C10.  [add_dois] with a string appends that string to the queue as
    one entry; with a list it appends the elements of the list in order;
    the entries already queued stay in front, and nothing else of the
    downloader changes. *)
Theorem add_dois_enqueues (self : DOI2PDFDownloader.t) :
  (forall doi,
     DOI2PDFDownloader._queue
       (DOI2PDFDownloader.add_dois self (DOI2PDFDownloader.OneDoi doi))
     = DOI2PDFDownloader._queue self ++ [doi] /\
     length (DOI2PDFDownloader._queue
               (DOI2PDFDownloader.add_dois self (DOI2PDFDownloader.OneDoi doi)))
     = S (length (DOI2PDFDownloader._queue self))) /\
  (forall dois,
     DOI2PDFDownloader._queue
       (DOI2PDFDownloader.add_dois self (DOI2PDFDownloader.ManyDois dois))
     = DOI2PDFDownloader._queue self ++ dois) /\
  (forall arg,
     DOI2PDFDownloader.proxy_method (DOI2PDFDownloader.add_dois self arg)
     = DOI2PDFDownloader.proxy_method self /\
     DOI2PDFDownloader.headless (DOI2PDFDownloader.add_dois self arg)
     = DOI2PDFDownloader.headless self /\
     DOI2PDFDownloader._driver (DOI2PDFDownloader.add_dois self arg)
     = DOI2PDFDownloader._driver self).
Proof.
  split_and!.
  - intros doi. split; [done |]. simpl. rewrite length_app. simpl. lia.
  - done.
  - by intros [doi|dois].
Qed.

(** * Further properties of the program *)

(** ** The page-load waiter *)

Section Waiter.
Context (driver : Selenium.WebDriver).

(** One step of the loop, by the answer of the driver *)
Lemma wait_loop_step fuel end_ tr :
  clock tr < end_ ->
  wait_loop (S fuel) driver end_ tr =
  if reports_complete driver tr
  then (Returned true, tr ++ [EvExecuteScript ready_script])
  else wait_loop fuel driver end_
         (tr ++ [EvExecuteScript ready_script; EvSleep 500]).
Proof.
  intros Hlt. simpl. apply Z.ltb_lt in Hlt. rewrite Hlt.
  unfold reports_complete, ready_script, bind, time_sleep.
  destruct (Selenium.execute_script driver tr _) as [state|e].
  - destruct (String.eqb state "complete"); [done |].
    by rewrite <-app_assoc.
  - by rewrite <-app_assoc.
Qed.

Lemma wait_loop_done fuel end_ tr :
  end_ <= clock tr -> wait_loop fuel driver end_ tr = (Returned false, tr).
Proof.
  intros Hle. destruct fuel; [done |]. simpl.
  destruct (clock tr <? end_) eqn:Hlt; [|done].
  apply Z.ltb_lt in Hlt. lia.
Qed.

(** What the loop returns, in terms of the answers to its polls *)
Lemma wait_loop_outcome fuel end_ tr :
  end_ - clock tr <= 500 * Z.of_nat fuel ->
  exists ready evs,
    wait_loop fuel driver end_ tr = (Returned ready, tr ++ evs) /\
    (forall evs1 script evs2,
       evs = evs1 ++ EvExecuteScript script :: evs2 ->
       script = ready_script /\
       (reports_complete driver (tr ++ evs1) = true <->
        ready = true /\ evs2 = [])) /\
    (ready = false -> end_ <= clock (tr ++ evs)).
Proof.
  revert tr. induction fuel as [|fuel IH]; intros tr Hfuel.
  - exists false, []. rewrite app_nil_r. split; [done |].
    split; [by intros [|??] ?? ? | intros _; lia].
  - destruct (Z.lt_ge_cases (clock tr) end_) as [Hlt|Hge].
    2:{ rewrite wait_loop_done by done. exists false, [].
        rewrite app_nil_r. split; [done |].
        split; [by intros [|??] ?? ? | done]. }
    rewrite wait_loop_step by done.
    destruct (reports_complete driver tr) eqn:Hc.
    + exists true, [EvExecuteScript ready_script]. split; [done |].
      split; [|done].
      intros [|e1 evs1] script evs2 E.
      * injection E as <- <-. rewrite app_nil_r, Hc. by split.
      * injection E as _ E. by destruct evs1.
    + destruct (IH (tr ++ [EvExecuteScript ready_script; EvSleep 500]))
        as (ready & evs & -> & Hpolls & Hend).
      { rewrite clock_app. simpl. lia. }
      exists ready, (EvExecuteScript ready_script :: EvSleep 500 :: evs).
      rewrite <-app_assoc in *. split; [done |]. split; [|done].
      intros [|e1 [|e2 evs1]] script evs2 E.
      * injection E as <- <-. rewrite app_nil_r, Hc. split; [done |].
        split; [done | by intros [_ ?]].
      * by injection E as _ E.
      * injection E as <- <- ->.
        destruct (Hpolls evs1 script evs2 eq_refl) as [-> Hiff].
        split; [done |]. by rewrite <-app_assoc in Hiff.
Qed.

(** Bounds: with [n] half seconds left at most, at most [n] polls; a
    sleep of half a second after every poll but the one that sees the
    page. *)
Lemma wait_loop_bounds fuel (n : nat) end_ tr :
  end_ - clock tr <= 500 * Z.of_nat n ->
  exists ready evs,
    wait_loop fuel driver end_ tr = (Returned ready, tr ++ evs) /\
    (polls evs <= n)%nat /\
    (ready = true -> (0 < polls evs)%nat) /\
    clock evs = 500 * Z.of_nat (polls evs - (if ready then 1 else 0)).
Proof.
  revert n tr. induction fuel as [|fuel IH]; intros n tr Hn.
  - exists false, []. rewrite app_nil_r. simpl. split; [done |].
    split; [lia |]. split; [done | lia].
  - destruct (Z.lt_ge_cases (clock tr) end_) as [Hlt|Hge].
    2:{ rewrite wait_loop_done by done. exists false, [].
        rewrite app_nil_r. simpl. split; [done |].
        split; [lia |]. split; [done | lia]. }
    destruct n as [|n]; [lia |].
    rewrite wait_loop_step by done.
    destruct (reports_complete driver tr).
    + exists true, [EvExecuteScript ready_script]. simpl. split; [done |].
      split; [lia |]. split; [lia | done].
    + destruct (IH n (tr ++ [EvExecuteScript ready_script; EvSleep 500]))
        as (ready & evs & -> & Hp & Hpos & Hc).
      { rewrite clock_app. simpl. lia. }
      exists ready, (EvExecuteScript ready_script :: EvSleep 500 :: evs).
      rewrite <-app_assoc. split; [done |]. simpl.
      split; [lia |]. split; [lia |].
      rewrite Hc. destruct ready; [specialize (Hpos eq_refl) |]; lia.
Qed.

(** A loop that returns [True] ends on a poll. *)
Lemma wait_loop_ready fuel end_ tr evs :
  wait_loop fuel driver end_ tr = (Returned true, tr ++ evs) ->
  exists evs1, evs = evs1 ++ [EvExecuteScript ready_script].
Proof.
  revert tr evs. induction fuel as [|fuel IH]; intros tr evs; [done |].
  destruct (Z.lt_ge_cases (clock tr) end_) as [Hlt|Hge];
    [|by rewrite wait_loop_done].
  rewrite wait_loop_step by done.
  destruct (reports_complete driver tr).
  - intros [= E]. apply app_inv_head in E as <-. by exists [].
  - intros E.
    destruct (wait_loop_run driver fuel end_
                (tr ++ [EvExecuteScript ready_script; EvSleep 500]))
      as (ready & evs' & E' & _).
    rewrite E' in E. injection E as -> E.
    rewrite <-app_assoc in E. apply app_inv_head in E as <-.
    destruct (IH _ _ E') as [evs1 ->].
    by exists (EvExecuteScript ready_script :: EvSleep 500 :: evs1).
Qed.

(** The loop runs the one script and sleeps half seconds. *)
Lemma wait_loop_events fuel end_ tr :
  exists ready evs,
    wait_loop fuel driver end_ tr = (Returned ready, tr ++ evs) /\
    Forall (fun e => is_wait_event e = true) evs.
Proof.
  revert tr. induction fuel as [|fuel IH]; intros tr.
  - exists false, []. by rewrite app_nil_r.
  - destruct (Z.lt_ge_cases (clock tr) end_) as [Hlt|Hge].
    2:{ rewrite wait_loop_done by done. exists false, [].
        by rewrite app_nil_r. }
    rewrite wait_loop_step by done.
    destruct (reports_complete driver tr).
    + exists true, [EvExecuteScript ready_script].
      split; [done | by repeat constructor].
    + destruct (IH (tr ++ [EvExecuteScript ready_script; EvSleep 500]))
        as (ready & evs & -> & Hevs).
      exists ready, (EvExecuteScript ready_script :: EvSleep 500 :: evs).
      rewrite <-app_assoc. split; [done | by repeat constructor].
Qed.

Lemma _wait_for_page_load_events timeout tr :
  exists ready evs,
    _wait_for_page_load driver timeout tr
    = (Returned ready, tr ++ EvWaitForPageLoad timeout :: evs) /\
    Forall (fun e => is_wait_event e = true) evs.
Proof.
  unfold _wait_for_page_load.
  destruct (wait_loop_events (S (Z.to_nat (2 * timeout)))
              (clock (tr ++ [EvWaitForPageLoad timeout]) + 1000 * timeout)
              (tr ++ [EvWaitForPageLoad timeout]))
    as (ready & evs & -> & Hevs).
  exists ready, evs. by rewrite <-app_assoc.
Qed.

End Waiter.

(** X1.  What [_wait_for_page_load] returns: [True] exactly when a poll
    saw the loaded page, and then that poll is the last thing it did; every
    earlier poll, and every poll of a call that returns [False], did not see
    it (the script returned something else, or raised); a call that returns
    [False] has used up its timeout. *)
Theorem wait_for_page_load_outcome
    (driver : Selenium.WebDriver) (timeout : Z) (tr : Trace) :
  let tr0 := tr ++ [EvWaitForPageLoad timeout] in
  exists ready evs,
    _wait_for_page_load driver timeout tr = (Returned ready, tr0 ++ evs) /\
    (forall evs1 script evs2,
       evs = evs1 ++ EvExecuteScript script :: evs2 ->
       script = ready_script /\
       (reports_complete driver (tr0 ++ evs1) = true <->
        ready = true /\ evs2 = [])) /\
    (ready = true ->
     exists evs1, evs = evs1 ++ [EvExecuteScript ready_script]) /\
    (ready = false -> clock tr0 + 1000 * timeout <= clock (tr0 ++ evs)).
Proof.
  intros tr0. unfold _wait_for_page_load. fold tr0.
  destruct (wait_loop_outcome driver (S (Z.to_nat (2 * timeout)))
              (clock tr0 + 1000 * timeout) tr0)
    as (ready & evs & Hrun & Hpolls & Hend); [lia |].
  exists ready, evs. split; [done |]. split; [done |]. split; [|done].
  intros ->. by eapply wait_loop_ready.
Qed.

(** X2.  [_wait_for_page_load] raises nothing and is bounded: it polls at
    most [2 * timeout] times (never for a timeout of zero or less), sleeps
    half a second after every poll but the one that sees the page, and so
    sleeps for at most [timeout] seconds; it runs no other script and calls
    nothing else of the driver. *)
Theorem wait_for_page_load_bounds
    (driver : Selenium.WebDriver) (timeout : Z) (tr : Trace) :
  exists ready evs,
    _wait_for_page_load driver timeout tr
    = (Returned ready, tr ++ EvWaitForPageLoad timeout :: evs) /\
    (polls evs <= Z.to_nat (2 * timeout))%nat /\
    clock evs = 500 * Z.of_nat (polls evs - (if ready then 1 else 0)) /\
    clock evs <= Z.max 0 (1000 * timeout) /\
    Forall (fun e => is_wait_event e = true) evs.
Proof.
  destruct (_wait_for_page_load_events driver timeout tr)
    as (ready & evs & Hrun & Hevs).
  exists ready, evs. split; [done |].
  unfold _wait_for_page_load in Hrun.
  destruct (wait_loop_bounds driver (S (Z.to_nat (2 * timeout)))
              (Z.to_nat (2 * timeout))
              (clock (tr ++ [EvWaitForPageLoad timeout]) + 1000 * timeout)
              (tr ++ [EvWaitForPageLoad timeout]))
    as (ready' & evs' & Hrun' & Hp & Hpos & Hc); [lia |].
  rewrite Hrun in Hrun'. injection Hrun' as -> E.
  rewrite <-app_assoc in E. apply app_inv_head in E. injection E as ->.
  split; [done |]. split; [done |]. split; [|done].
  rewrite Hc. destruct ready'; [specialize (Hpos eq_refl) |]; lia.
Qed.

(** X3.  With a timeout of zero or less [_wait_for_page_load] returns
    [False] at once, without a call to the driver. *)
Theorem wait_for_page_load_no_time
    (driver : Selenium.WebDriver) (timeout : Z) (tr : Trace) :
  timeout <= 0 ->
  _wait_for_page_load driver timeout tr
  = (Returned false, tr ++ [EvWaitForPageLoad timeout]).
Proof.
  intros Hle. unfold _wait_for_page_load. apply wait_loop_done. lia.
Qed.

Lemma wait_for_page_load_no_time_witness :
  _wait_for_page_load Sample.driver_ok 0 []
  = (Returned false, [EvWaitForPageLoad 0]).
Proof. apply (wait_for_page_load_no_time Sample.driver_ok 0 []). lia. Defined.

(** X5.  When the page is loaded at the first poll and the timeout is
    positive, [_wait_for_page_load] returns [True] after that one poll,
    without sleeping. *)
Theorem wait_for_page_load_at_once
    (driver : Selenium.WebDriver) (timeout : Z) (tr : Trace) :
  0 < timeout ->
  reports_complete driver (tr ++ [EvWaitForPageLoad timeout]) = true ->
  _wait_for_page_load driver timeout tr
  = (Returned true,
     tr ++ [EvWaitForPageLoad timeout; EvExecuteScript ready_script]).
Proof.
  intros Hpos Hready. unfold _wait_for_page_load.
  rewrite wait_loop_step by lia. rewrite Hready. by rewrite <-app_assoc.
Qed.

Lemma wait_for_page_load_at_once_witness :
  _wait_for_page_load Sample.driver_ok 10 []
  = (Returned true, [EvWaitForPageLoad 10; EvExecuteScript ready_script]).
Proof.
  apply (wait_for_page_load_at_once Sample.driver_ok 10 []);
    [lia | reflexivity].
Defined.

(** ** The rounds of [process_dois] *)

Section Records.
Context (w : World) (driver : Selenium.WebDriver) (wait_time : Z)
  (proxy : ProxyArg).

Ltac shape status :=
  exists status; split_and!;
    [done | in_vocabulary | vm_compute; reflexivity
    | done | done].

Ltac label url publisher status :=
  exists url, publisher, status; split_and!;
    [done | done | done | done
    | let H := fresh in intros H; try (by not_in_list H)
    | try done].

Lemma labelled_acs url :
  labelled url "ACS" -> Url.netloc (Url.urlparse url) = "pubs.acs.org".
Proof.
  intros [H|H]; [done |]. unfold publisher_table in H.
  repeat (apply elem_of_cons in H as [H|H]; [congruence |]).
  by apply elem_of_nil in H.
Qed.

Lemma doi_to_url_labelled doi tr url publisher tr1 :
  doi_to_url w doi tr = (Returned (url, publisher), tr1) ->
  labelled url publisher.
Proof.
  unfold doi_to_url, labelled, resolve_error.
  destruct (fetch w _ tr) as [[text [r|]|text]|final_url]; simpl;
    intros [= <- <- _]; auto.
  - destruct (publisher_map !! _) as [label|] eqn:E; simpl; [|by left].
    right. by apply publisher_map_lookup.
  - destruct (publisher_map !! _) as [label|] eqn:E; simpl; [|by left].
    right. by apply publisher_map_lookup.
Qed.

Lemma shape_resolve_failed doi url publisher :
  labelled url publisher ->
  let info := <["actions" := VList []]>
                (<["status" := VStr "resolve_failed"]>
                   (info_resolved doi url publisher)) in
  record_shape doi info /\ record_label info.
Proof.
  intros Hl info. subst info. unfold info_resolved. split.
  - shape "resolve_failed".
  - label url publisher "resolve_failed".
Qed.

Lemma shape_proxy_error doi url publisher text :
  labelled url publisher ->
  let info := <["actions" := VList []]>
                (<["error" := VStr text]>
                   (<["status" := VStr "proxy_error"]>
                      (info_resolved doi url publisher))) in
  record_shape doi info /\ record_label info.
Proof.
  intros Hl info. subst info. unfold info_resolved. split.
  - shape "proxy_error".
  - label url publisher "proxy_error".
Qed.

Lemma shape_navigation_error doi url publisher proxied text :
  labelled url publisher ->
  let info := <["error" := VStr text]>
                (<["status" := VStr "navigation_error"]>
                   (info_proxied doi url publisher proxied)) in
  record_shape doi info /\ record_label info.
Proof.
  intros Hl info. subst info. unfold info_proxied, info_resolved. split.
  - shape "navigation_error".
  - label url publisher "navigation_error".
Qed.

Lemma shape_click_failed doi url proxied e :
  labelled url "ACS" ->
  let info := click_failed (info_proxied doi url "ACS" proxied) e in
  record_shape doi info /\ record_label info.
Proof.
  intros Hl info. subst info.
  unfold click_failed, info_proxied, info_resolved. split.
  - shape "click_pdf_failed".
  - exists url, "ACS", "click_pdf_failed".
    split_and!; [done.. | | done]. intros _. by split; [|apply labelled_acs].
Qed.

Lemma shape_clicked doi url proxied :
  labelled url "ACS" ->
  let info := clicked (info_proxied doi url "ACS" proxied) [] in
  record_shape doi info /\ record_label info.
Proof.
  intros Hl info. subst info.
  unfold clicked, info_proxied, info_resolved. split.
  - shape "pdf_clicked".
  - exists url, "ACS", "pdf_clicked".
    split_and!; [done.. | | done]. intros _. by split; [|apply labelled_acs].
Qed.

Lemma shape_no_action doi url publisher proxied :
  labelled url publisher -> publisher <> "ACS" ->
  let info := <["status" := VStr "no_action_for_publisher"]>
                (info_proxied doi url publisher proxied) in
  record_shape doi info /\ record_label info.
Proof.
  intros Hl Hne info. subst info. unfold info_proxied, info_resolved. split.
  - shape "no_action_for_publisher".
  - label url publisher "no_action_for_publisher".
Qed.

Lemma wait_event_batch e :
  is_wait_event e = true ->
  batch_event proxy wait_time e = true /\ is_navigation e = false.
Proof.
  destruct e; simpl; try done. intros ->. split; [|done].
  by rewrite orb_true_r.
Qed.

(** The publisher switch: a record of the right shape, after events of the
    batch that are no navigation. *)
Lemma publisher_switch_summary doi url publisher proxied tr :
  labelled url publisher ->
  exists info sevs,
    publisher_switch driver publisher
      (info_proxied doi url publisher proxied) tr
    = (Returned info, tr ++ sevs) /\
    Forall (fun e => batch_event proxy wait_time e = true /\
                     is_navigation e = false) sevs /\
    record_shape doi info /\ record_label info.
Proof.
  intros Hl. destruct (decide (publisher = "ACS")) as [->|Hne].
  - rewrite (publisher_switch_acs driver _ [] tr) by done.
    destruct (Selenium.find_element driver tr _ _) as [pdf_button|e];
      simpl ok_of.
    + destruct (Selenium.click pdf_button _) as [[]|e].
      * eexists _, [_; _; _]. rewrite <-app_assoc. split; [done |].
        split; [by repeat constructor | by apply shape_clicked].
      * eexists _, [_; _]. rewrite <-app_assoc. split; [done |].
        split; [by repeat constructor | by apply shape_click_failed].
    + eexists _, [_]. split; [done |].
      split; [by repeat constructor | by apply shape_click_failed].
  - rewrite publisher_switch_other by done.
    eexists _, []. rewrite app_nil_r. split; [done |].
    split; [constructor | by apply shape_no_action].
Qed.

Lemma navigations_app tr1 tr2 :
  navigations (tr1 ++ tr2) = (navigations tr1 + navigations tr2)%nat.
Proof. induction tr1 as [|e tr1 IH]; simpl; [done | rewrite IH; lia]. Qed.

Lemma arrivals_app tr1 tr2 :
  arrivals (tr1 ++ tr2) = (arrivals tr1 + arrivals tr2)%nat.
Proof. induction tr1 as [|e tr1 IH]; simpl; [done | rewrite IH; lia]. Qed.

Lemma navigations_none evs :
  Forall (fun e => batch_event proxy wait_time e = true /\
                   is_navigation e = false) evs ->
  Forall (fun e => batch_event proxy wait_time e = true) evs /\
  navigations evs = O /\ arrivals evs = O /\ targets_selected proxy evs.
Proof.
  induction 1 as [|e evs [He Hn] _ (IH1 & IH2 & IH3 & IH4)].
  - split; [constructor |]. split; [done |]. split; [done | constructor].
  - assert (Ha : is_arrival e = false) by (by destruct e).
    simpl. rewrite Hn, Ha, IH2, IH3.
    split; [by constructor |]. split; [done |]. split; [done |].
    constructor; [|done]. by destruct e.
Qed.

(** One round, summed up: the record stored has the shape of its status;
    the events are those a batch may produce; there is at most one
    navigation, to the address the proxy selection returned. *)
Lemma process_doi_summary st doi tr :
  exists info after evs,
    process_doi w driver wait_time proxy st doi tr =
    (Returned (mkLoopState (<[doi := info]> (results st)) after), tr ++ evs) /\
    (record_shape doi info /\ record_label info) /\
    Forall (fun e => batch_event proxy wait_time e = true) evs /\
    (navigations evs <= 1)%nat /\
    (arrivals evs <= navigations evs)%nat /\
    targets_selected proxy evs.
Proof.
  destruct (doi_to_url_run w doi tr) as (url & publisher & Hres).
  pose proof (doi_to_url_labelled _ _ _ _ _ Hres) as Hl.
  destruct (Str.startswith "Error" url) eqn:Herr.
  { rewrite (process_doi_resolve_failed _ _ _ _ _ _ _ _ _ _ Hres Herr).
    eexists _, _, [_]. split; [done |].
    split; [by apply shape_resolve_failed |]. simpl.
    split_and!; [by repeat constructor | lia | lia |].
    by repeat constructor. }
  set (req := EvRequestsGet (resolver_url doi)) in *.
  assert (Hsel : exists r pevs,
    select_proxy proxy url (tr ++ [req]) = (r, (tr ++ [req]) ++ pevs) /\
    Forall (fun e => batch_event proxy wait_time e = true /\
                     is_navigation e = false) pevs).
  { destruct (select_proxy_run proxy url (tr ++ [req]))
      as [[p ->]|(f & -> & ->)].
    - eexists _, []. by rewrite app_nil_r.
    - eexists _, [_]. split; [done | by repeat constructor]. }
  destruct Hsel as ([proxied|e] & pevs & Hsel & Hpevs).
  2:{ rewrite (process_doi_proxy_error _ _ _ _ _ _ _ _ _ _ _ _ Hres Herr Hsel).
      eexists _, _, (req :: pevs). rewrite <-app_assoc. split; [done |].
      split; [by apply shape_proxy_error |].
      destruct (navigations_none _ Hpevs) as (H1 & H2 & H3 & H4).
      simpl. rewrite H2, H3.
      split_and!; [by constructor | lia | lia |].
      constructor; [done | exact H4]. }
  destruct (navigations_none _ Hpevs) as (P1 & P2 & P3 & P4).
  assert (Himage : proxy_image proxy proxied) by (by eexists _, _, _).
  destruct (Selenium.get driver ((tr ++ [req]) ++ pevs) proxied)
    as [[]|e] eqn:Hget.
  2:{ rewrite (process_doi_navigation_error _ _ _ _ _ _ _ _ _ _ _ _ _
                 Hres Herr Hsel Hget).
      eexists _, _, (req :: pevs ++ [EvDriverGet proxied false]).
      rewrite <-!app_assoc. split; [done |].
      split; [by apply shape_navigation_error |].
      simpl. rewrite navigations_app, arrivals_app, P2, P3. simpl.
      split_and!; [|lia|lia|].
      - constructor; [done |]. apply Forall_app. split; [done |].
        by repeat constructor.
      - constructor; [done |]. apply Forall_app. split; [done |].
        constructor; [|done]. by intros p [= <-]. }
  set (tr2 := ((tr ++ [req]) ++ pevs) ++ [EvDriverGet proxied true]).
  assert (Hawait : exists aevs,
    await_page driver wait_time (first_visit st) tr2
    = (Returned false, tr2 ++ aevs) /\
    Forall (fun e => batch_event proxy wait_time e = true /\
                     is_navigation e = false) aevs).
  { destruct (first_visit st).
    - exists [EvSleep 20000]. rewrite await_page_first.
      split; [done | by repeat constructor].
    - unfold await_page, bind.
      destruct (_wait_for_page_load_events driver wait_time tr2)
        as (ready & evs & -> & Hevs).
      eexists. split; [done |]. constructor.
      + simpl. by rewrite Z.eqb_refl.
      + eapply Forall_impl; [exact Hevs | apply wait_event_batch]. }
  destruct Hawait as (aevs & Hawait & Haevs).
  destruct (publisher_switch_summary doi url publisher proxied (tr2 ++ aevs) Hl)
    as (info & sevs & Hswitch & Hsevs & Hshape).
  rewrite (process_doi_visited _ _ _ _ _ _ _ _ _ _ _ _
             Hres Herr Hsel Hget _ _ _ Hawait Hswitch).
  exists info, false, (req :: pevs ++ EvDriverGet proxied true :: aevs ++ sevs).
  split; [subst tr2; by rewrite <-!app_assoc |]. split; [done |].
  destruct (navigations_none _ Haevs) as (A1 & A2 & A3 & A4).
  destruct (navigations_none _ Hsevs) as (S1 & S2 & S3 & S4).
  simpl. rewrite navigations_app, arrivals_app, P2, P3. simpl.
  rewrite navigations_app, arrivals_app, A2, A3, S2, S3.
  split_and!; [|lia|lia|].
  - constructor; [done |]. apply Forall_app. split; [done |].
    constructor; [done |]. by apply Forall_app.
  - constructor; [done |]. apply Forall_app. split; [done |].
    constructor; [by intros p [= <-] |]. by apply Forall_app.
Qed.

End Records.

Section LoopSummary.
Context (w : World) (driver : Selenium.WebDriver) (wait_time : Z)
  (proxy : ProxyArg).

(** The loop, summed up over its rounds *)
Lemma for_each_summary dois st tr :
  exists st' evs,
    for_each (process_doi w driver wait_time proxy) dois st tr
    = (Returned st', tr ++ evs) /\
    Forall (fun e => batch_event proxy wait_time e = true) evs /\
    (navigations evs <= length dois)%nat /\
    (arrivals evs <= navigations evs)%nat /\
    targets_selected proxy evs /\
    (forall doi info,
       results st' !! doi = Some info ->
       results st !! doi = Some info \/
       (doi ∈ dois /\ record_shape doi info /\ record_label info)) /\
    (forall doi, doi ∉ dois -> results st' !! doi = results st !! doi).
Proof.
  revert st tr. induction dois as [|doi dois IH]; intros st tr.
  - exists st, []. rewrite app_nil_r. split; [done |]. simpl.
    split_and!; [constructor | lia | lia | constructor | auto | done].
  - destruct (process_doi_summary w driver wait_time proxy st doi tr)
      as (info & after & revs & Hround & Hshape & Hev & Hnav & Harr & Htgt).
    simpl. rewrite (bind_returned _ _ _ _ _ Hround).
    destruct (IH (mkLoopState (<[doi := info]> (results st)) after)
                (tr ++ revs))
      as (st' & evs & -> & Hevs & Hnavs & Harrs & Htgts & Hrec & Hframe).
    exists st', (revs ++ evs). rewrite <-app_assoc. split; [done |].
    rewrite navigations_app, arrivals_app. simpl in Hrec, Hframe.
    split_and!; [by apply Forall_app | lia | lia | by apply Forall_app | |].
    + intros d i Hd. destruct (Hrec d i Hd) as [Hin|[Hin Hf]].
      * destruct (decide (doi = d)) as [->|Hne].
        -- rewrite lookup_insert_eq in Hin. injection Hin as <-.
           right. split; [apply list_elem_of_here | done].
        -- rewrite lookup_insert_ne in Hin by done. by left.
      * right. split; [by apply list_elem_of_further | done].
    + intros d Hd. apply not_elem_of_cons in Hd as [Hne Hd].
      rewrite (Hframe d Hd). by rewrite lookup_insert_ne.
Qed.

End LoopSummary.

(** X6.  A round whose navigation raises [e] stores a record with status
    ["navigation_error"], the error text [str(e)], the proxied URL and no
    actions; it neither pauses nor waits nor touches the page, and it leaves
    the [first_visit] flag as it was, so the login pause is still to
    come. *)
Theorem navigation_error_round
    (w : World) (driver : Selenium.WebDriver) (wait_time : Z)
    (proxy : ProxyArg) (st : LoopState) (doi : string) (tr : Trace)
    (url publisher proxied : string) (tr1 tr2 : Trace) (e : PyExc) :
  doi_to_url w doi tr = (Returned (url, publisher), tr1) ->
  Str.startswith "Error" url = false ->
  select_proxy proxy url tr1 = (Returned proxied, tr2) ->
  Selenium.get driver tr2 proxied = Raised e ->
  exists info,
    process_doi w driver wait_time proxy st doi tr
    = (Returned (mkLoopState (<[doi := info]> (results st)) (first_visit st)),
       tr2 ++ [EvDriverGet proxied false]) /\
    info !! "status" = Some (VStr "navigation_error") /\
    info !! "error" = Some (VStr (exc_str e)) /\
    info !! "proxied_url" = Some (VStr proxied) /\
    info !! "actions" = Some (VList []).
Proof.
  intros Hres Herr Hsel Hget. eexists. split.
  - by apply (process_doi_navigation_error w driver wait_time proxy st doi tr
                url publisher tr1 proxied tr2 e).
  - by split_and!.
Qed.

Lemma navigation_error_round_witness :
  exists info,
    process_doi Sample.world_acs Fixture.driver_unreachable 10
      (ProxyStr "none") (mkLoopState ∅ true) Sample.doi []
    = (Returned (mkLoopState (<[Sample.doi := info]> ∅) true),
       [EvRequestsGet "https://doi.org/10.1021/acscatal.9b05338";
        EvDriverGet Sample.acs_url false]) /\
    info !! "status" = Some (VStr "navigation_error") /\
    info !! "error" = Some (VStr "Message: unreachable").
Proof.
  destruct (navigation_error_round Sample.world_acs Fixture.driver_unreachable
              10 (ProxyStr "none") (mkLoopState ∅ true) Sample.doi []
              Sample.acs_url "ACS" Sample.acs_url
              [EvRequestsGet "https://doi.org/10.1021/acscatal.9b05338"]
              [EvRequestsGet "https://doi.org/10.1021/acscatal.9b05338"]
              (mkExc "WebDriverException" "Message: unreachable"))
    as (info & Hrun & Hs & He & _).
  - vm_compute. reflexivity.
  - vm_compute. reflexivity.
  - reflexivity.
  - reflexivity.
  - exists info. split; [exact Hrun |]. split; [exact Hs | exact He].
Defined.

(** X7.  Every record that [process_dois] returns has the keys of its
    status and no others: [doi], [url], [publisher], [status] and [actions]
    always; [proxied_url] unless the status is ["resolve_failed"] or
    ["proxy_error"]; [error] exactly with ["proxy_error"],
    ["click_pdf_failed"] and ["navigation_error"].  Its actions are
    [["clicked_pdf_button"]] with the status ["pdf_clicked"] and empty with
    every other status. *)
Theorem records_have_shape
    (w : World) (dois : list string) (driver_obj : Selenium.WebDriver)
    (wait_time : Z) (proxy : ProxyArg) (tr : Trace) :
  exists results tr',
    process_dois w dois driver_obj wait_time proxy tr
    = (Returned results, tr') /\
    forall doi info, results !! doi = Some info -> record_shape doi info.
Proof.
  destruct (for_each_summary w driver_obj wait_time proxy dois
              (mkLoopState ∅ true) tr)
    as (st' & evs & Hrun & _ & _ & _ & _ & Hrec & _).
  exists (results st'), (tr ++ evs). unfold process_dois.
  rewrite (bind_returned _ _ _ _ _ Hrun). split; [done |].
  intros doi info Hinfo. by destruct (Hrec doi info Hinfo) as [?|(_ & ? & _)].
Qed.

(** X8.  Every record that [process_dois] returns agrees with itself: its
    publisher is ["Unknown"] or the label that the table gives for the
    network location of its URL; a record with status ["pdf_clicked"] or
    ["click_pdf_failed"] has the publisher ["ACS"] and a URL whose network
    location is [pubs.acs.org]; a record with status
    ["no_action_for_publisher"] has another publisher. *)
Theorem records_agree_with_table
    (w : World) (dois : list string) (driver_obj : Selenium.WebDriver)
    (wait_time : Z) (proxy : ProxyArg) (tr : Trace) :
  exists results tr',
    process_dois w dois driver_obj wait_time proxy tr
    = (Returned results, tr') /\
    forall doi info, results !! doi = Some info -> record_label info.
Proof.
  destruct (for_each_summary w driver_obj wait_time proxy dois
              (mkLoopState ∅ true) tr)
    as (st' & evs & Hrun & _ & _ & _ & _ & Hrec & _).
  exists (results st'), (tr ++ evs). unfold process_dois.
  rewrite (bind_returned _ _ _ _ _ Hrun). split; [done |].
  intros doi info Hinfo. by destruct (Hrec doi info Hinfo) as [?|(_ & _ & ?)].
Qed.

(** X9.  What a batch never does: it never calls [quit]; it runs no
    script but the one that reads the ready state and looks for no element
    but the PDF button by its class name; it sleeps for 20, 0.5 or 3 seconds
    only; it waits for pages with the timeout [wait_time] only; and it calls
    the proxy argument only when that is callable. *)
Theorem batch_events_allowed
    (w : World) (dois : list string) (driver_obj : Selenium.WebDriver)
    (wait_time : Z) (proxy : ProxyArg) (tr : Trace) :
  exists results evs,
    process_dois w dois driver_obj wait_time proxy tr
    = (Returned results, tr ++ evs) /\
    Forall (fun e => batch_event proxy wait_time e = true) evs.
Proof.
  destruct (for_each_summary w driver_obj wait_time proxy dois
              (mkLoopState ∅ true) tr)
    as (st' & evs & Hrun & Hevs & _).
  exists (results st'), evs. unfold process_dois.
  by rewrite (bind_returned _ _ _ _ _ Hrun).
Qed.

(** X11.  When a DOI occurs more than once in the list, it is resolved and
    processed each time, and the record returned for it is the one of its
    last round: the earlier record is overwritten. *)
Theorem last_round_wins
    (w : World) (driver_obj : Selenium.WebDriver) (wait_time : Z)
    (proxy : ProxyArg) (dois : list string) (doi : string)
    (rest : list string) (tr : Trace) :
  doi ∉ rest ->
  exists st1 tr1 info after tr2 res tr3,
    for_each (process_doi w driver_obj wait_time proxy) dois
      (mkLoopState ∅ true) tr = (Returned st1, tr1) /\
    process_doi w driver_obj wait_time proxy st1 doi tr1
    = (Returned (mkLoopState (<[doi := info]> (results st1)) after), tr2) /\
    process_dois w (dois ++ doi :: rest) driver_obj wait_time proxy tr
    = (Returned res, tr3) /\
    res !! doi = Some info.
Proof.
  intros Hnotin.
  destruct (for_each_summary w driver_obj wait_time proxy dois
              (mkLoopState ∅ true) tr) as (st1 & evs1 & Hrun1 & _).
  destruct (process_doi_summary w driver_obj wait_time proxy st1 doi
              (tr ++ evs1)) as (info & after & revs & Hround & _).
  destruct (for_each_summary w driver_obj wait_time proxy rest
              (mkLoopState (<[doi := info]> (results st1)) after)
              ((tr ++ evs1) ++ revs))
    as (st3 & evs3 & Hrun3 & _ & _ & _ & _ & _ & Hframe).
  exists st1, (tr ++ evs1), info, after, ((tr ++ evs1) ++ revs),
    (results st3), (((tr ++ evs1) ++ revs) ++ evs3).
  split; [done |]. split; [done |]. split.
  - unfold process_dois, bind at 1. rewrite for_each_app, Hrun1. simpl.
    by rewrite (bind_returned _ _ _ _ _ Hround), Hrun3.
  - rewrite (Hframe doi Hnotin). simpl. apply lookup_insert_eq.
Qed.

Lemma last_round_wins_witness :
  exists info res,
    (process_dois Sample.world_acs [Sample.doi; Sample.doi]
       Sample.driver_ok 10 (ProxyStr "none") []).1 = Returned res /\
    res !! Sample.doi = Some info.
Proof.
  destruct (last_round_wins Sample.world_acs Sample.driver_ok 10
              (ProxyStr "none") [Sample.doi] Sample.doi [] [])
    as (st1 & tr1 & info & after & tr2 & res & tr3 & _ & _ & Hrun & Hinfo).
  - apply not_elem_of_nil.
  - exists info, res. split; [|exact Hinfo].
    change ([Sample.doi; Sample.doi]) with ([Sample.doi] ++ [Sample.doi]).
    by rewrite Hrun.
Defined.

(** ** The rounds of a batch, one by one *)

Section RoundTraces.
Context (env : Exn.Env) (driver : Selenium.WebDriver) (wait_time : Z)
  (proxy : ProxyArg).

Lemma local_events evs :
  Forall (fun e => is_local e = true) evs ->
  requests_of evs = [] /\ navigations evs = O /\
  forall e, e ∈ evs -> navigation_target e = None.
Proof.
  induction 1 as [|e evs He _ (IH1 & IH2 & IH3)].
  - split_and!; [done | done |]. by intros e []%elem_of_nil.
  - split_and!.
    + by destruct e.
    + simpl. rewrite IH2. by destruct e.
    + intros e' [->|Hin]%elem_of_cons; [by destruct e | by apply IH3].
Qed.

Lemma poll_local e : is_poll e = true -> is_local e = true.
Proof. by destruct e. Qed.

(** The proxy selection leaves the history as it is, or adds the call of
    the proxy function. *)
Lemma select_proxy_trace url tr r tr' :
  Exn.select_proxy env proxy url tr = (r, tr') ->
  exists pevs, tr' = tr ++ pevs /\ Forall (fun e => is_local e = true) pevs.
Proof.
  unfold Exn.select_proxy, of_outcome, ret, call.
  destruct proxy as [|s|f|].
  - intros [= _ <-]. exists []. by rewrite app_nil_r.
  - destruct (String.eqb s "hku"); [|destruct (String.eqb s "none")];
      intros [= _ <-]; exists []; by rewrite app_nil_r.
  - intros [= _ <-]. exists [EvProxyCall url]. by repeat constructor.
  - intros [= _ <-]. exists []. by rewrite app_nil_r.
Qed.

Lemma awaited_trace before tr tr' :
  awaited driver wait_time before tr tr' ->
  exists aevs, tr' = tr ++ aevs /\ Forall (fun e => is_local e = true) aevs.
Proof.
  unfold awaited. destruct before.
  - intros ->. exists [EvSleep 20000]. by repeat constructor.
  - intros [ready Hrun].
    destruct (_wait_for_page_load_run driver wait_time tr)
      as (ready' & evs & Hrun' & Hevs).
    rewrite Hrun in Hrun'. injection Hrun' as _ ->.
    eexists. split; [done |]. constructor; [done |].
    eapply Forall_impl; [exact Hevs | apply poll_local].
Qed.

Lemma switched_trace publisher info tr info' tr' :
  switched driver publisher info tr info' tr' ->
  exists sevs, tr' = tr ++ sevs /\ Forall (fun e => is_local e = true) sevs.
Proof.
  intros [e Hp Hf|b e Hp Hf Hc|b Hp Hf Hc|Hp].
  - eexists. split; [done | by repeat constructor].
  - eexists. split; [done | by repeat constructor].
  - eexists. split; [done | by repeat constructor].
  - exists []. by rewrite app_nil_r.
Qed.

Lemma doi_to_url_trace doi tr r tr1 :
  Exn.doi_to_url env doi tr = (r, tr1) ->
  tr1 = tr ++ [EvRequestsGet (resolver_url doi)].
Proof.
  destruct (doi_to_url_cases env doi tr)
    as [(e & _ & ->)|(url & publisher & -> & _)]; by intros [= _ <-].
Qed.

(** The events of a round that stores a record *)
Lemma captured_trace before doi tr info after tr' :
  captured env driver wait_time proxy before doi tr info after tr' ->
  exists revs, tr' = tr ++ revs /\ round_navigation env proxy doi tr revs.
Proof.
  intros [url publisher tr1 H1 Herr
         |url publisher tr1 e tr2 H1 Herr Hsel
         |url publisher tr1 proxied tr2 e H1 Herr Hsel Hget
         |url publisher tr1 proxied tr2 tr3 info' tr4 H1 Herr Hsel Hget
            Hawait Hswitch];
    pose proof (doi_to_url_trace _ _ _ _ H1) as ->.
  - exists [EvRequestsGet (resolver_url doi)]. split; [done |].
    split; [by exists [] |]. split; [simpl; lia |].
    by intros e p [->|[]%elem_of_nil]%elem_of_cons.
  - destruct (select_proxy_trace _ _ _ _ Hsel) as (pevs & -> & Hp).
    destruct (local_events _ Hp) as (P1 & P2 & P3).
    exists (EvRequestsGet (resolver_url doi) :: pevs).
    rewrite <-app_assoc. split; [done |].
    split; [by exists pevs |]. split; [simpl; lia |].
    intros e' p [->|Hin]%elem_of_cons; [done |].
    by rewrite (P3 e' Hin).
  - destruct (select_proxy_trace _ _ _ _ Hsel) as (pevs & Htr2 & Hp).
    destruct (local_events _ Hp) as (P1 & P2 & P3).
    exists (EvRequestsGet (resolver_url doi)
            :: pevs ++ [EvDriverGet proxied false]).
    split; [subst tr2; by rewrite <-!app_assoc |].
    split; [|split].
    + eexists. split; [done |]. by rewrite requests_of_app, P1.
    + simpl. rewrite navigations_app, P2. simpl. lia.
    + intros e' p [->|[Hin|Hin]%elem_of_app]%elem_of_cons; [done | |].
      * by rewrite (P3 e' Hin).
      * apply list_elem_of_singleton in Hin as ->. intros [= <-].
        by eexists _, _, _, _.
  - destruct (select_proxy_trace _ _ _ _ Hsel) as (pevs & Htr2 & Hp).
    destruct (awaited_trace _ _ _ Hawait) as (aevs & -> & Ha).
    destruct (switched_trace _ _ _ _ _ Hswitch) as (sevs & -> & Hs).
    destruct (local_events _ Hp) as (P1 & P2 & P3).
    destruct (local_events _ Ha) as (A1 & A2 & A3).
    destruct (local_events _ Hs) as (S1 & S2 & S3).
    exists (EvRequestsGet (resolver_url doi)
            :: pevs ++ EvDriverGet proxied true :: aevs ++ sevs).
    split; [subst tr2; by rewrite <-!app_assoc |].
    split; [|split].
    + eexists. split; [done |]. rewrite requests_of_app, P1. simpl.
      by rewrite requests_of_app, A1, S1.
    + simpl. rewrite navigations_app, P2. simpl.
      rewrite navigations_app, A2, S2. lia.
    + intros e' p [->|[Hin|[->|[Hin|Hin]%elem_of_app]%elem_of_cons]
                        %elem_of_app]%elem_of_cons.
      * done.
      * by rewrite (P3 e' Hin).
      * intros [= <-]. by eexists _, _, _, _.
      * by rewrite (A3 e' Hin).
      * by rewrite (S3 e' Hin).
Qed.

(** The events of a round, whether it stores a record or raises *)
Lemma round_trace st doi tr :
  exists r revs,
    Exn.process_doi env driver wait_time proxy st doi tr = (r, tr ++ revs) /\
    round_navigation env proxy doi tr revs.
Proof.
  destruct (doi_to_url_cases env doi tr)
    as [(e & _ & Hr)|(url & publisher & H1 & H2 & _ & Hacc)].
  - rewrite (round_raised env driver wait_time proxy st _ _ _ _ Hr).
    eexists _, _. split; [done |].
    split; [by exists [] |]. split; [simpl; lia |].
    by intros e' p [->|[]%elem_of_nil]%elem_of_cons.
  - destruct (round_captured env driver wait_time proxy st doi tr _ _ _
                H1 H2 Hacc) as (info & after & tr' & -> & Hcap).
    destruct (captured_trace _ _ _ _ _ _ Hcap) as (revs & -> & Hnav).
    by eexists _, _.
Qed.

Lemma for_each_rounds dois st tr :
  exists r rounds,
    for_each (Exn.process_doi env driver wait_time proxy) dois st tr
    = (r, tr ++ concat rounds) /\
    by_rounds (round_navigation env proxy) dois tr rounds /\
    (length rounds <= length dois)%nat /\
    (ok_of r = true -> length rounds = length dois).
Proof.
  revert st tr. induction dois as [|doi dois IH]; intros st tr.
  - exists (Returned st), []. simpl. by rewrite app_nil_r.
  - destruct (round_trace st doi tr) as (r & revs & Hround & Hnav).
    simpl. unfold bind. rewrite Hround. destruct r as [st1|e].
    + destruct (IH st1 (tr ++ revs)) as (r & rounds & -> & Hby & Hlen & Hok).
      exists r, (revs :: rounds). simpl. rewrite <-app_assoc.
      split; [done |]. split; [done |]. split; [lia |].
      intros H. by rewrite Hok.
    + exists (Raised e), [revs]. simpl. rewrite app_nil_r.
      split; [done |]. split; [done |]. split; [lia | done].
Qed.

End RoundTraces.

(** X10.  The events of a batch are those of its rounds, one round per DOI
    of the list in order, up to the round that raises, if one does.  Each
    round begins with the request for its DOI and makes no other request; it
    navigates at most once (a failed navigation is not retried); and it
    navigates to the address that the proxy selection returned for the URL
    that [doi_to_url] returned for this DOI in this round.  A batch that
    returns has a round for every DOI of the list. *)
Theorem one_navigation_per_round
    (env : Exn.Env) (dois : list string) (driver_obj : Selenium.WebDriver)
    (wait_time : Z) (proxy : ProxyArg) (tr : Trace) :
  exists r rounds,
    Exn.process_dois env dois driver_obj wait_time proxy tr
    = (r, tr ++ concat rounds) /\
    by_rounds (round_navigation env proxy) dois tr rounds /\
    (length rounds <= length dois)%nat /\
    (ok_of r = true -> length rounds = length dois).
Proof.
  destruct (for_each_rounds env driver_obj wait_time proxy dois
              (mkLoopState ∅ true) tr)
    as (r & rounds & Hrun & Hby & Hlen & Hok).
  unfold Exn.process_dois, bind. rewrite Hrun.
  destruct r as [st'|e].
  - by exists (Returned (results st')), rounds.
  - by exists (Raised e), rounds.
Qed.

(** ** [convert_to_hku_proxy] without square brackets *)

Section Rooted.
Implicit Types (s t u sch nl path params : string) (pr : Url.ParseResult).

(** [urlunsplit] behind a network location, whatever the path *)
Lemma urlunsplit_rooted sch nl u qu fr :
  nl <> "" ->
  Url.urlunsplit sch nl u qu fr =
  (if Str.nonempty sch then sch +:+ ":" else "") +:+ "//" +:+ nl
  +:+ (if Str.nonempty u && negb (Str.startswith "/" u) then "/" +:+ u else u)
  +:+ (if Str.nonempty qu then String "?" qu else "")
  +:+ (if Str.nonempty fr then String "#" fr else "").
Proof.
  intros Hne%nonempty_true. unfold Url.urlunsplit.
  rewrite Hne. cbn [orb].
  destruct (Str.nonempty sch), (Str.nonempty qu), (Str.nonempty fr);
    cbn [String.append]; rewrite ?sapp_assoc, ?sapp_nil_r; cbn [String.append];
    rewrite ?sapp_assoc, ?sapp_nil_r; reflexivity.
Qed.

Lemma splitparams_slash u path params :
  Str.contains ";" u = true ->
  Url._splitparams u = (path, params) ->
  Url._splitparams (String "/" u) = (String "/" path, params).
Proof.
  intros Hsemi. unfold Url._splitparams. simpl.
  destruct (Str.rbreak "/" u) as [[h t]|] eqn:Er.
  - destruct (Str.break (Ascii.eqb ";") t) as [b [|x r]];
      by intros [= <- <-].
  - simpl. destruct (Str.break (Ascii.eqb ";") u) as [b r] eqn:Eb.
    destruct r as [|x r]; [|by intros [= <- <-]].
    apply break_eq in Eb as (-> & Hb & _). rewrite sapp_nil_r in Hsemi.
    rewrite contains_any in Hsemi.
    congruence.
Qed.

(** The parameter split commutes with the slash that [urlunsplit]
    supplies. *)
Lemma split_params_rooted sch path params :
  split_params_of sch (with_params path params) = (path, params) ->
  split_params_of sch
    (if Str.nonempty (with_params path params)
        && negb (Str.startswith "/" (with_params path params))
     then "/" +:+ with_params path params else with_params path params)
  = (rooted path params, params).
Proof.
  unfold rooted. cbv zeta.
  destruct (Str.nonempty (with_params path params)
            && negb (Str.startswith "/" (with_params path params)));
    [|done].
  unfold split_params_of. change ("/" +:+ ?s) with (String "/" s).
  cbn [Str.contains]. change (Ascii.eqb "/" ";") with false. cbn [orb].
  destruct (Url.in_list sch Url.uses_params); cbn [andb];
    [|by intros [= <- <-]].
  destruct (Str.contains ";" (with_params path params)) eqn:Hsemi;
    [|by intros [= <- <-]].
  by apply splitparams_slash.
Qed.

Lemma root_first u :
  first_in Url.is_netloc_delim
    (if Str.nonempty u && negb (Str.startswith "/" u) then "/" +:+ u else u).
Proof.
  destruct u as [|a u]; [done |].
  cbn [Str.nonempty Str.startswith andb].
  destruct (Ascii.eqb "/" a) eqn:Ha; cbn [negb andb]; [|reflexivity].
  apply Ascii.eqb_eq in Ha as <-. reflexivity.
Qed.

Lemma root_any p u :
  p "/"%char = false -> Str.any p u = false ->
  Str.any p
    (if Str.nonempty u && negb (Str.startswith "/" u) then "/" +:+ u else u)
  = false.
Proof.
  intros Hp Hu.
  destruct (Str.nonempty u && negb (Str.startswith "/" u)); [|done].
  change ("/" +:+ u) with (String "/" u). simpl. by rewrite Hp, Hu.
Qed.

(** What [urlparse] reads back from the URL that [convert_to_hku_proxy]
    writes, for every parse result of [urlparse] *)
Lemma urlparse_rewritten pr :
  parsed_ok pr ->
  Url.urlparse (Url.urlunparse (with_proxy_netloc pr)) =
  Url.mkParseResult (Url.scheme pr)
    (Str.replace "." "-" (Url.netloc pr) +:+ hku_suffix)
    (rooted (Url.path pr) (Url.params pr)) (Url.params pr)
    (Url.query pr) (Url.fragment pr).
Proof.
  intros [H1 H2 H3 H4 H5 H6 H7 H8 H9 H10].
  rewrite urlparse_unfold, urlunparse_unfold.
  rewrite urlunsplit_rooted by apply (rewritten_netloc_nonempty pr).
  cbn [Url.scheme Url.netloc Url.path Url.params Url.query Url.fragment
       with_proxy_netloc].
  rewrite urlsplit_joined.
  - by rewrite split_params_rooted.
  - done.
  - apply (rewritten_netloc_nonempty pr).
  - by rewrite any_app, replace_dot_delim, H2.
  - apply root_first.
  - by apply root_any.
  - done.
  - by rewrite any_app, replace_dot_unsafe, H6.
  - by apply root_any.
  - done.
  - done.
Qed.

Lemma replace_dot_idem s :
  Str.replace "." "-" (Str.replace "." "-" s) = Str.replace "." "-" s.
Proof.
  unfold Str.replace. induction s as [|a s IH]; simpl; [done |].
  rewrite IH. f_equal. by_cases a.
Qed.

End Rooted.

Section Rewriter.
Context (env : Exn.Env).

(** One application to a URL whose network location has no bracket: what
    it returns is accepted by [urlparse], with these components. *)
Lemma convert_accepted url :
  bracket_free (Url.netloc (Url.urlparse url)) ->
  Exn.convert_to_hku_proxy env url = Returned (convert_to_hku_proxy url) /\
  Exn.urlparse env (convert_to_hku_proxy url)
  = Returned (Url.urlparse (convert_to_hku_proxy url)) /\
  Url.urlparse (convert_to_hku_proxy url)
  = Url.mkParseResult (Url.scheme (Url.urlparse url))
      (Str.replace "." "-" (Url.netloc (Url.urlparse url)) +:+ hku_suffix)
      (rooted (Url.path (Url.urlparse url)) (Url.params (Url.urlparse url)))
      (Url.params (Url.urlparse url)) (Url.query (Url.urlparse url))
      (Url.fragment (Url.urlparse url)).
Proof.
  intros Hfree.
  assert (E : Url.urlparse (convert_to_hku_proxy url)
              = Url.mkParseResult (Url.scheme (Url.urlparse url))
                  (Str.replace "." "-" (Url.netloc (Url.urlparse url))
                   +:+ hku_suffix)
                  (rooted (Url.path (Url.urlparse url))
                     (Url.params (Url.urlparse url)))
                  (Url.params (Url.urlparse url))
                  (Url.query (Url.urlparse url))
                  (Url.fragment (Url.urlparse url))).
  { unfold convert_to_hku_proxy.
    fold (with_proxy_netloc (Url.urlparse url)).
    apply urlparse_rewritten, urlparse_ok. }
  split; [by apply convert_returned, netloc_error_bracket_free |].
  split; [|done].
  apply urlparse_returned. split; [done |]. rewrite E.
  apply netloc_error_bracket_free. by apply rewritten_bracket_free.
Qed.

End Rewriter.

(** X12.  For a URL that [urlparse] accepts and whose network location
    has no square bracket, in particular for a URL without network location
    (a relative reference, a [mailto:] address, an error text),
    [convert_to_hku_proxy] returns a URL that [urlparse] accepts.  Its
    network location is the one of the input with dots replaced, followed by
    the proxy suffix, so the bare suffix for an input without network
    location; scheme, parameters, query and fragment are kept; the path is
    kept except that a path without leading slash gets one. *)
Theorem convert_to_hku_proxy_bracket_free
    (env : Exn.Env) (url : string) (parsed : Url.ParseResult) :
  Exn.urlparse env url = Returned parsed ->
  bracket_free (Url.netloc parsed) ->
  exists proxied_url proxied,
    Exn.convert_to_hku_proxy env url = Returned proxied_url /\
    Exn.urlparse env proxied_url = Returned proxied /\
    Url.netloc proxied
    = Str.replace "." "-" (Url.netloc parsed) +:+ hku_suffix /\
    Url.scheme proxied = Url.scheme parsed /\
    Url.path proxied = rooted (Url.path parsed) (Url.params parsed) /\
    Url.params proxied = Url.params parsed /\
    Url.query proxied = Url.query parsed /\
    Url.fragment proxied = Url.fragment parsed /\
    (Url.netloc parsed = "" -> Url.netloc proxied = hku_suffix).
Proof.
  intros [-> _]%urlparse_returned Hfree.
  destruct (convert_accepted env url Hfree) as (H1 & H2 & H3).
  eexists _, _. split; [exact H1 |]. split; [exact H2 |].
  rewrite H3. split_and!; try done. simpl. by intros ->.
Qed.

Lemma convert_to_hku_proxy_bracket_free_witness :
  exists proxied_url proxied,
    Exn.convert_to_hku_proxy SampleEnv.env_acs "mailto:a@b.c"
    = Returned proxied_url /\
    Exn.urlparse SampleEnv.env_acs proxied_url = Returned proxied /\
    Url.netloc proxied = ".eproxy.lib.hku.hk" /\
    Url.path proxied = "/a@b.c".
Proof.
  destruct (convert_to_hku_proxy_bracket_free SampleEnv.env_acs
              "mailto:a@b.c" (Url.urlparse "mailto:a@b.c"))
    as (p & q & Hp & Hq & Hnl & _ & Hpath & _).
  - reflexivity.
  - split; reflexivity.
  - exists p, q. split; [exact Hp |]. split; [exact Hq |].
    split; [rewrite Hnl | rewrite Hpath]; vm_compute; reflexivity.
Defined.

(** X13.  The rewriter is not idempotent: applied to an address that is
    already proxied it proxies it again.  For a URL that [urlparse] accepts
    and whose network location has no square bracket, two applications
    return, and the network location is then the rewritten network location
    of the input followed by the suffix with hyphens and by the suffix; the
    second result differs from the first. *)
Theorem convert_to_hku_proxy_applied_twice
    (env : Exn.Env) (url : string) (parsed : Url.ParseResult) :
  Exn.urlparse env url = Returned parsed ->
  bracket_free (Url.netloc parsed) ->
  exists once twice parsed2,
    Exn.convert_to_hku_proxy env url = Returned once /\
    Exn.convert_to_hku_proxy env once = Returned twice /\
    Exn.urlparse env twice = Returned parsed2 /\
    Url.netloc parsed2
    = Str.replace "." "-" (Url.netloc parsed)
      +:+ "-eproxy-lib-hku-hk" +:+ hku_suffix /\
    twice <> once.
Proof.
  intros [-> _]%urlparse_returned Hfree.
  destruct (convert_accepted env url Hfree) as (H1 & _ & H3).
  assert (Hfree1 : bracket_free
                     (Url.netloc (Url.urlparse (convert_to_hku_proxy url)))).
  { rewrite H3. by apply rewritten_bracket_free. }
  destruct (convert_accepted env _ Hfree1) as (K1 & K2 & K3).
  eexists _, _, _. split; [exact H1 |]. split; [exact K1 |].
  split; [exact K2 |].
  assert (Hnl : Url.netloc
                  (Url.urlparse
                     (convert_to_hku_proxy (convert_to_hku_proxy url)))
                = Str.replace "." "-" (Url.netloc (Url.urlparse url))
                  +:+ "-eproxy-lib-hku-hk" +:+ hku_suffix).
  { rewrite K3, H3. cbn [Url.netloc]. unfold Str.replace at 1.
    rewrite smap_app. fold (Str.replace "." "-"). rewrite replace_dot_idem.
    by rewrite sapp_assoc. }
  split; [exact Hnl |].
  intros Heq. rewrite Heq, H3 in Hnl. cbn [Url.netloc] in Hnl.
  revert Hnl.
  generalize (Str.replace "." "-" (Url.netloc (Url.urlparse url))).
  intros s H. induction s as [|a s IH]; [discriminate H |].
  simpl in H. injection H as H. auto.
Qed.

Lemma convert_to_hku_proxy_applied_twice_witness :
  exists once twice parsed2,
    Exn.convert_to_hku_proxy SampleEnv.env_acs Sample.acs_url
    = Returned once /\
    Exn.convert_to_hku_proxy SampleEnv.env_acs once = Returned twice /\
    Exn.urlparse SampleEnv.env_acs twice = Returned parsed2 /\
    Url.netloc parsed2 = "pubs-acs-org-eproxy-lib-hku-hk.eproxy.lib.hku.hk".
Proof.
  destruct (convert_to_hku_proxy_applied_twice SampleEnv.env_acs
              Sample.acs_url (Url.urlparse Sample.acs_url))
    as (p & q & r & Hp & Hq & Hr & Hnl & _).
  - reflexivity.
  - split; reflexivity.
  - exists p, q, r. split; [exact Hp |]. split; [exact Hq |].
    split; [exact Hr |]. rewrite Hnl. vm_compute. reflexivity.
Defined.

(** ** The downloader *)

Section Facade.
Import DOI2PDFDownloader.

Lemma queue_add_all self args :
  _queue (add_all self args) = _queue self ++ concat (dois_of <$> args) /\
  proxy_method (add_all self args) = proxy_method self /\
  headless (add_all self args) = headless self /\
  _driver (add_all self args) = _driver self.
Proof.
  unfold add_all. revert self.
  induction args as [|arg args IH]; intros self; simpl.
  - by rewrite app_nil_r.
  - destruct (IH (add_dois self arg)) as (-> & -> & -> & ->).
    destruct arg; simpl; by rewrite <-app_assoc.
Qed.

Lemma hku_address_selected p : proxy_image ProxyNone p -> hku_address p.
Proof.
  intros (url & tr1 & tr2 & [= <- _]). exists url. split; [done |].
  unfold convert_to_hku_proxy. fold (with_proxy_netloc (Url.urlparse url)).
  by rewrite urlparse_rewritten by apply urlparse_ok.
Qed.

End Facade.

(** X14.  [start_download_sync] never consults [proxy_method]: it calls
    [process_dois] without a proxy argument.  Whatever the downloader was
    configured with, ['none'] and a function included, the run is the same,
    every navigation goes to an address written by [convert_to_hku_proxy],
    on a host that ends in the proxy suffix, and no proxy function is
    called. *)
Theorem start_download_sync_ignores_proxy_method
    (w : World) (self : DOI2PDFDownloader.t) (method : ProxyArg)
    (wait_time : Z) (tr : Trace) :
  exists results evs,
    DOI2PDFDownloader.start_download_sync w self wait_time tr
    = (Returned (results, after_run self), tr ++ evs) /\
    DOI2PDFDownloader.start_download_sync w (with_proxy_method self method)
      wait_time tr
    = (Returned (results, after_run (with_proxy_method self method)),
       tr ++ evs) /\
    Forall (fun e => forall p, navigation_target e = Some p -> hku_address p)
      evs /\
    Forall (fun e => batch_event ProxyNone wait_time e = true) evs.
Proof.
  destruct (for_each_summary w
              (default DOI2PDFDownloader.no_driver
                 (DOI2PDFDownloader._driver self))
              wait_time ProxyNone (DOI2PDFDownloader._queue self)
              (mkLoopState ∅ true) tr)
    as (st' & evs & Hrun & Hevs & _ & _ & Htgt & _).
  exists (results st'), evs.
  unfold DOI2PDFDownloader.start_download_sync, process_dois, with_proxy_method,
    bind, ret.
  cbn [DOI2PDFDownloader._queue DOI2PDFDownloader._driver].
  rewrite Hrun. split; [done |]. split; [done |]. split; [|done].
  eapply Forall_impl; [exact Htgt |]. simpl.
  intros e He p Hp. by apply hku_address_selected, He.
Qed.

(** X15.  A run of [start_download_sync] ends in one of two ways.  It
    returns: the queue is then empty, the session kept, and a second run
    right after it returns the empty mapping and performs no call.  Or the
    resolution of a queued DOI raises: the exception reaches the caller
    right after the request for that DOI, the records of the DOIs before it
    are lost, and the object is as before the run, the queue still holding
    every DOI, those already processed included. *)
Theorem start_download_sync_queue_on_exit
    (env : Exn.Env) (self : DOI2PDFDownloader.t) (wait_time : Z)
    (tr : Trace) :
  (exists res tr',
     Exn.start_download_sync env self wait_time tr
     = ((Returned res, after_run self), tr') /\
     DOI2PDFDownloader._queue (after_run self) = [] /\
     forall wait_time',
       Exn.start_download_sync env (after_run self) wait_time' tr'
       = ((Returned ∅, after_run self), tr')) \/
  (exists e pre doi post evs1,
     DOI2PDFDownloader._queue self = pre ++ doi :: post /\
     requests_of evs1 = resolver_url <$> pre /\
     resolution_raises env doi (tr ++ evs1) e /\
     Exn.start_download_sync env self wait_time tr
     = ((Raised e, self),
        tr ++ evs1 ++ [EvRequestsGet (resolver_url doi)])).
Proof.
  destruct (process_dois_cases env
              (default DOI2PDFDownloader.no_driver
                 (DOI2PDFDownloader._driver self))
              wait_time ProxyNone (DOI2PDFDownloader._queue self) tr)
    as [(evs & st' & Hrun & _)
       |(pre & doi & post & st1 & evs1 & e & Hq & _ & Hreq & Hr & Hrun)].
  - left. exists (results st'), (tr ++ evs).
    unfold Exn.start_download_sync. rewrite Hrun.
    split; [done |]. split; [done |]. by intros wait_time'.
  - right. exists e, pre, doi, post, evs1.
    unfold Exn.start_download_sync. by rewrite Hrun.
Qed.

(** X16.  Enqueueing and running compose.  After any calls of [add_dois],
    the queue holds the DOIs queued before followed by those of the calls
    in the order of the calls, each string argument counting as one DOI.  A
    run that returns has asked the resolver for exactly these, in order, and
    the mapping has them as keys.  A run that raises has asked for the DOIs
    before the one whose resolution raised and then for that one, and for
    none after it, and leaves the object with its full queue. *)
Theorem enqueue_then_run_requests
    (env : Exn.Env) (self : DOI2PDFDownloader.t)
    (args : list DOI2PDFDownloader.DoisArg) (wait_time : Z) (tr : Trace) :
  let queue := DOI2PDFDownloader._queue self ++ concat (dois_of <$> args) in
  DOI2PDFDownloader._queue (add_all self args) = queue /\
  ((exists res evs,
      Exn.start_download_sync env (add_all self args) wait_time tr
      = ((Returned res, after_run self), tr ++ evs) /\
      requests_of evs = resolver_url <$> queue /\
      dom res = list_to_set queue) \/
   (exists e pre doi post evs1,
      queue = pre ++ doi :: post /\
      requests_of evs1 = resolver_url <$> pre /\
      resolution_raises env doi (tr ++ evs1) e /\
      Exn.start_download_sync env (add_all self args) wait_time tr
      = ((Raised e, add_all self args),
         tr ++ evs1 ++ [EvRequestsGet (resolver_url doi)]))).
Proof.
  intros queue. destruct (queue_add_all self args) as (Hq & Hp & Hh & Hd).
  split; [done |].
  destruct (process_dois_cases env
              (default DOI2PDFDownloader.no_driver
                 (DOI2PDFDownloader._driver self))
              wait_time ProxyNone queue tr)
    as [(evs & st' & Hrun & _ & Hdom & Hreq & _)
       |(pre & doi & post & st1 & evs1 & e & Hpre & _ & Hreq & Hr & Hrun)].
  - left. exists (results st'), evs.
    unfold Exn.start_download_sync. rewrite Hq, Hp, Hh, Hd. fold queue.
    by rewrite Hrun.
  - right. exists e, pre, doi, post, evs1.
    split; [done |]. split; [done |]. split; [done |].
    unfold Exn.start_download_sync. rewrite Hq, Hd. fold queue.
    by rewrite Hrun.
Qed.

(** X19.  Without its uncaught exceptions the program is the one of the
    definitions that leave them out: whenever [convert_to_hku_proxy],
    [doi_to_url], [process_dois] or [start_download_sync] returns, it
    returns what it returns there, after the same calls.  So what is proved
    of the results and events of a batch without these exceptions holds of
    every batch that returns. *)
Theorem returns_as_without_exceptions (env : Exn.Env) :
  (forall url proxied_url,
     Exn.convert_to_hku_proxy env url = Returned proxied_url ->
     proxied_url = convert_to_hku_proxy url) /\
  (forall doi tr resolved tr',
     Exn.doi_to_url env doi tr = (Returned resolved, tr') ->
     doi_to_url (Exn.world env) doi tr = (Returned resolved, tr')) /\
  (forall dois driver_obj wait_time proxy tr res tr',
     Exn.process_dois env dois driver_obj wait_time proxy tr
     = (Returned res, tr') ->
     process_dois (Exn.world env) dois driver_obj wait_time proxy tr
     = (Returned res, tr')) /\
  (forall self wait_time tr res self' tr',
     Exn.start_download_sync env self wait_time tr
     = ((Returned res, self'), tr') ->
     DOI2PDFDownloader.start_download_sync (Exn.world env) self wait_time tr
     = (Returned (res, self'), tr')).
Proof.
  assert (Hbatch : forall dois driver_obj wait_time proxy tr res tr',
    Exn.process_dois env dois driver_obj wait_time proxy tr
    = (Returned res, tr') ->
    process_dois (Exn.world env) dois driver_obj wait_time proxy tr
    = (Returned res, tr')).
  { intros dois driver_obj wait_time proxy tr res tr'.
    unfold Exn.process_dois, process_dois, bind, ret.
    destruct (for_each_cases env driver_obj wait_time proxy dois
                (mkLoopState ∅ true) tr)
      as [(st' & tr1 & Hd & Ho)|(pre & doi & post & st1 & tr1 & e & _ & _ & _
                                 & _ & He)].
    - unfold rounds_done in Hd. by rewrite Hd, Ho.
    - by rewrite He. }
  split_and!.
  - intros url proxied_url. unfold Exn.convert_to_hku_proxy, Exn.urlparse.
    destruct (Exn.netloc_error env _); [done |]. by intros [= <-].
  - intros doi tr resolved tr'.
    destruct (doi_to_url_cases env doi tr)
      as [(e & _ & ->)|(url & publisher & -> & -> & _)]; [done |].
    by intros [= <- <-].
  - exact Hbatch.
  - intros self wait_time tr res self' tr'.
    unfold Exn.start_download_sync, DOI2PDFDownloader.start_download_sync.
    destruct (Exn.process_dois env _ _ _ _ tr) as [[res0|e] tr0] eqn:Hrun;
      [|done].
    intros [= <- <- <-]. unfold bind, ret. by rewrite (Hbatch _ _ _ _ _ _ _ Hrun).
Qed.

(** ** Construction and configuration *)

Section Preferences.
Import Config.
Context (os : Os).

Lemma prefs_for_directory d d' :
  <["download.default_directory" := PStr d']> (prefs_for d) = prefs_for d'.
Proof.
  unfold prefs_for. rewrite insert_insert_ne by done.
  by rewrite insert_insert_eq.
Qed.

Lemma init_configured download_path proxy_method headless self :
  __init__ os download_path proxy_method headless = Returned self ->
  configured os (default "." (truthy download_path)) self.
Proof.
  unfold __init__, add_experimental_option.
  destruct (Chrome os _) as [driver|e]; [|done]. intros [= <-].
  unfold configured. simpl.
  destruct (truthy download_path) as [path|]; simpl.
  - fold (prefs_for (abspath os ".")). rewrite prefs_for_directory.
    split; [done |]. apply insert_empty.
  - split; [done |]. apply insert_empty.
Qed.

Lemma setup_configured dir self download_path proxy_method headless :
  configured os dir self ->
  configured os (default dir (truthy download_path))
    (setup os self download_path proxy_method headless).2.
Proof.
  intros [Hp Ho]. unfold setup, add_experimental_option.
  assert (E : match truthy download_path with
              | Some path =>
                  <["download.default_directory" := PStr (abspath os path)]>
                    (prefs self)
              | None => prefs self
              end
              = prefs_for (abspath os (default dir (truthy download_path)))).
  { rewrite Hp. destruct (truthy download_path); simpl; [|done].
    apply prefs_for_directory. }
  rewrite E, Ho.
  destruct (Chrome os _); unfold configured; simpl;
    (split; [done |]); rewrite insert_singleton_eq; done.
Qed.

Lemma setups_configured dir self calls :
  configured os dir self ->
  configured os (requested_directory dir (arg_download_path <$> calls))
    (setups os self calls).
Proof.
  revert dir self. induction calls as [|args calls IH]; intros dir self H.
  - done.
  - simpl. apply IH. by apply setup_configured.
Qed.

End Preferences.

(** X17.  The [headless] flag and [proxy_method] are stored and nothing
    more: they do not reach the browser.  Construction with any two values
    of them ends with the same exception or with the same session, started
    with the same options and preferences, and [setup] likewise; so
    [headless=True] does not give a headless browser. *)
Theorem headless_never_reaches_browser
    (os : Config.Os) (download_path : option string) :
  (forall method1 method2 headless1 headless2,
     same_browser (Config.__init__ os download_path method1 headless1)
       (Config.__init__ os download_path method2 headless2)) /\
  (forall self method1 method2 headless1 headless2,
     let r1 := Config.setup os self download_path method1 headless1 in
     let r2 := Config.setup os self download_path method2 headless2 in
     r1.1 = r2.1 /\ browser_of r1.2 = browser_of r2.2).
Proof.
  split.
  - intros method1 method2 headless1 headless2.
    unfold same_browser, Config.__init__.
    by destruct (Config.Chrome os _).
  - intros self method1 method2 headless1 headless2. unfold Config.setup.
    by destruct (Config.Chrome os _).
Qed.

(** X18.  After construction and any calls of [setup], whether or not
    Chrome started in them, the preferences have exactly three keys:
    PDFs open externally, downloads do not prompt, and the download
    directory is the absolute path of the last [download_path] that was
    given and not empty, of ["."] when there was none (a call without
    [download_path] keeps the directory of the call before).  The options
    hold these preferences under ["prefs"] and nothing else. *)
Theorem preferences_invariant
    (os : Config.Os) (download_path : option string) (proxy_method : ProxyArg)
    (headless : bool) (self0 : Config.Instance)
    (calls : list Config.SetupArgs) :
  Config.__init__ os download_path proxy_method headless = Returned self0 ->
  let self := Config.setups os self0 calls in
  let directory :=
    Config.abspath os
      (Config.requested_directory "."
         (download_path :: (Config.arg_download_path <$> calls))) in
  dom (Config.prefs self)
  = list_to_set ["plugins.always_open_pdf_externally";
                 "download.default_directory";
                 "download.prompt_for_download"] /\
  Config.prefs self !! "plugins.always_open_pdf_externally"
  = Some (Config.PBool true) /\
  Config.prefs self !! "download.default_directory"
  = Some (Config.PStr directory) /\
  Config.prefs self !! "download.prompt_for_download"
  = Some (Config.PBool false) /\
  Config.experimental_options (Config.chrome_options self)
  = {["prefs" := Config.prefs self]}.
Proof.
  intros Hinit self directory.
  apply init_configured in Hinit.
  apply (setups_configured os _ _ calls) in Hinit.
  destruct Hinit as [Hp Ho]. fold self in Hp, Ho.
  change (Config.requested_directory _ _) with
    (Config.requested_directory "."
       (download_path :: (Config.arg_download_path <$> calls))) in Hp.
  fold directory in Hp. rewrite Ho, Hp. unfold prefs_for.
  split_and!; [|done..].
  rewrite !dom_insert_L, dom_singleton_L. simpl.
  rewrite union_empty_r_L.
  rewrite (union_comm_L {["download.prompt_for_download"]}).
  rewrite (union_comm_L {["download.default_directory"]}).
  by rewrite <-union_assoc_L.
Qed.

Lemma preferences_invariant_witness :
  exists self0,
    Config.__init__ Fixture.os (Some "papers") (ProxyStr "hku") false
    = Returned self0 /\
    Config.prefs
      (Config.setups Fixture.os self0
         [Config.mkArgs None (ProxyStr "none") None;
          Config.mkArgs (Some "") ProxyNone (Some true)])
    !! "download.default_directory"
    = Some (Config.PStr "/home/user/papers").
Proof.
  eexists. split; [reflexivity |].
  eapply (preferences_invariant Fixture.os (Some "papers") (ProxyStr "hku")
            false _
            [Config.mkArgs None (ProxyStr "none") None;
             Config.mkArgs (Some "") ProxyNone (Some true)]).
  reflexivity.
Defined.
